(** * The FUSE node tree of MediaProvider (jni/node-inl.h)

    A shallow embedding of [mediaprovider::fuse::node], [NodeTracker],
    [handle] and [dirhandle], followed by the properties of the node
    lifetime protocol: inode mapping, reference counting, creation,
    renaming, name lookup and the tree/tracker invariant.

    Modelling decisions.
    - A [node*] is the integer value of the address ([Z], [nullptr] is 0);
      the objects live in a store [heap : gmap Z node], so aliasing between
      a node, its parent and its siblings is the aliasing of the program.
    - [uint32_t] and [__u64] values are [Z] with the wrap-around written
      out ([wrap32], [to_u64]); pointers are 64 bits wide.
    - A failed [CHECK] ends the run with [Abort]; using a pointer that does
      not address a live node ends it with [Undef].
    - [new node] gets the address from the allocator: [Create] and
      [CreateRoot] take it as an argument, and the allocator's contract
      (a non-null address that holds no live object) is checked there.
    - One FUSE instance has one [NodeTracker]; it is a field of the state
      and not an argument of the methods.
    - Every method takes the one recursive mutex of the FUSE instance; the
      model is sequential, where a recursive lock has no effect.
    - [Release] deletes the node, whose destructor releases the parent:
      the recursion follows the parent chain and is bounded by fuel. *)

From Stdlib Require Import ZArith String Ascii List Lia.

From stdpp Require Import base gmap sets list strings.

Open Scope Z_scope.

(** ** Machine integers *)

Definition wrap32 (z : Z) : Z := z mod 2 ^ 32.

Definition to_u64 (z : Z) : Z := z mod 2 ^ 64.

Definition to_uintptr (z : Z) : Z := z mod 2 ^ 64.

Definition nullptr : Z := 0.

Definition valid_ptr (a : Z) : Prop := 0 < a < 2 ^ 64.

Definition is_uint32 (z : Z) : Prop := 0 <= z < 2 ^ 32.

(** ** Data model *)

(** [struct handle]: the descriptor, the redaction info it owns and the
    cached flag. *)
Record handle := Handle { fd : Z; ri : Z; cached : bool }.

(** [struct dirhandle]: the directory stream, the read offset and the
    memoized entries. *)
Record dirhandle := DirHandle { d : Z; next_off : Z; de : list Z }.

(** [class node]. The owned handles are kept with the address of the
    object each [unique_ptr] holds. *)
Record node := Node {
  name_ : string;
  refcount_ : Z;
  children_ : list Z;
  parent_ : Z;
  handles_ : list (Z * handle);
  dirhandles_ : list (Z * dirhandle);
  deleted_ : bool
}.

Definition with_name (x : string) (n : node) : node :=
  Node x (refcount_ n) (children_ n) (parent_ n) (handles_ n) (dirhandles_ n) (deleted_ n).

Definition with_refcount (x : Z) (n : node) : node :=
  Node (name_ n) x (children_ n) (parent_ n) (handles_ n) (dirhandles_ n) (deleted_ n).

Definition with_children (x : list Z) (n : node) : node :=
  Node (name_ n) (refcount_ n) x (parent_ n) (handles_ n) (dirhandles_ n) (deleted_ n).

Definition with_parent (x : Z) (n : node) : node :=
  Node (name_ n) (refcount_ n) (children_ n) x (handles_ n) (dirhandles_ n) (deleted_ n).

Definition with_handles (x : list (Z * handle)) (n : node) : node :=
  Node (name_ n) (refcount_ n) (children_ n) (parent_ n) x (dirhandles_ n) (deleted_ n).

Definition with_dirhandles (x : list (Z * dirhandle)) (n : node) : node :=
  Node (name_ n) (refcount_ n) (children_ n) (parent_ n) (handles_ n) x (deleted_ n).

Definition with_deleted (x : bool) (n : node) : node :=
  Node (name_ n) (refcount_ n) (children_ n) (parent_ n) (handles_ n) (dirhandles_ n) x.

(** The store of node objects and the [NodeTracker] of the instance. *)
Record state := State {
  heap : gmap Z node;
  active_nodes_ : gset Z
}.

Definition empty_state : state := State ∅ ∅.

(** ** Outcomes and the monad of the methods *)

(** The [CHECK]s of the file. *)
Inductive check_id :=
| CHECK_tracked          (* CheckTracked: the inode is an active node *)
| CHECK_deleted_tracked  (* NodeDeleted: the node is active *)
| CHECK_created_fresh    (* NodeCreated: the node is not active yet *)
| CHECK_unparented       (* AddToParent: parent_ == nullptr *)
| CHECK_parent_nonnull   (* AddToParent: parent != nullptr *)
| CHECK_child_found      (* RemoveFromParent: this is among the children *)
| CHECK_handle_found     (* DestroyHandle *)
| CHECK_dirhandle_found.

 (* DestroyDirHandle *)

Inductive outcome (A : Type) : Type :=
| Done (a : A) (s : state)
| Abort (c : check_id)
| Undef
| OutOfFuel.

Arguments Done {A} a s.

Arguments Abort {A} c.

Arguments Undef {A}.

Arguments OutOfFuel {A}.

Definition M (A : Type) : Type := state → outcome A.

Definition ret {A} (a : A) : M A := λ s, Done a s.

Definition bind {A B} (m : M A) (k : A → M B) : M B := λ s,
  match m s with
  | Done a s' => k a s'
  | Abort c => Abort c
  | Undef => Undef
  | OutOfFuel => OutOfFuel
  end.

#[global] Instance M_ret : MRet M := @ret.

#[global] Instance M_bind : MBind M := λ A B k m, bind m k.

Definition abort {A} (c : check_id) : M A := λ _, Abort c.

Definition check (b : bool) (c : check_id) : M unit :=
  if b then ret tt else abort c.

(** Reading through a pointer, writing an object back, and the two ends
    of an object's storage. The allocator picks the address [a] of a new
    object; it never hands out an address in use. *)
Definition deref (a : Z) : M node := λ s,
  match heap s !! a with
  | Some n => Done n s
  | None => Undef
  end.

Definition store (a : Z) (n : node) : M unit := λ s,
  Done tt (State (<[a := n]> (heap s)) (active_nodes_ s)).

Definition modify (a : Z) (f : node → node) : M unit :=
  n ← deref a; store a (f n).

Definition alloc (a : Z) (n : node) : M unit := λ s,
  if bool_decide (valid_ptr a ∧ heap s !! a = None)
  then Done tt (State (<[a := n]> (heap s)) (active_nodes_ s))
  else Undef.

Definition free (a : Z) : M unit := λ s,
  Done tt (State (delete a (heap s)) (active_nodes_ s)).

(** ** NodeTracker *)

Definition kEnableInodeTracking : bool := true.

Definition CheckTracked (ino : Z) : M unit :=
  if kEnableInodeTracking then
    let node := to_uintptr ino in
    λ s, if bool_decide (node ∈ active_nodes_ s) then Done tt s
         else Abort CHECK_tracked
  else ret tt.

Definition NodeDeleted (node : Z) : M unit :=
  if kEnableInodeTracking then
    λ s, if bool_decide (node ∈ active_nodes_ s)
         then Done tt (State (heap s) (active_nodes_ s ∖ {[node]}))
         else Abort CHECK_deleted_tracked
  else ret tt.

Definition NodeCreated (node : Z) : M unit :=
  if kEnableInodeTracking then
    λ s, if bool_decide (node ∉ active_nodes_ s)
         then Done tt (State (heap s) ({[node]} ∪ active_nodes_ s))
         else Abort CHECK_created_fresh
  else ret tt.

(** ** strcasecmp

    The libc comparison used by [LookupChildByName], in the C locale: it
    walks the two NUL-terminated byte strings ([c_str()], so the end of
    the [std::string] reads as 0), compares the lower-cased bytes and
    stops at the first difference or at the terminator. *)

Definition byte_of (c : ascii) : Z := Z.of_N (N_of_ascii c).

Definition tolower (c : Z) : Z :=
  if (65 <=? c) && (c <=? 90) then c + 32 else c.

Definition head_byte (s : string) : Z :=
  match s with
  | EmptyString => 0
  | String c _ => byte_of c
  end.

Fixpoint strcasecmp (s1 s2 : string) : Z :=
  match s1, s2 with
  | String c1 r1, String c2 r2 =>
      if tolower (byte_of c1) =? tolower (byte_of c2)
      then if byte_of c1 =? 0 then 0 else strcasecmp r1 r2
      else tolower (byte_of c1) - tolower (byte_of c2)
  | _, _ => tolower (head_byte s1) - tolower (head_byte s2)
  end.

(** ** node *)

(** [std::find] followed by [erase]: drops the first occurrence, [None]
    when there is none. *)
Fixpoint erase_first (x : Z) (l : list Z) : option (list Z) :=
  match l with
  | [] => None
  | y :: l' =>
      if bool_decide (y = x) then Some l'
      else match erase_first x l' with
           | Some r => Some (y :: r)
           | None => None
           end
  end.

(** [std::find_if] on the address held by each [unique_ptr], then
    [erase]. *)
Fixpoint erase_owned {A} (x : Z) (l : list (Z * A)) : option (list (Z * A)) :=
  match l with
  | [] => None
  | y :: l' =>
      if bool_decide (y.1 = x) then Some l'
      else match erase_owned x l' with
           | Some r => Some (y :: r)
           | None => None
           end
  end.

Definition Acquire (this : Z) : M unit :=
  modify this (λ n, with_refcount (wrap32 (refcount_ n + 1)) n).

Definition AddToParent (this parent : Z) : M unit :=
  n ← deref this;
  check (bool_decide (parent_ n = nullptr)) CHECK_unparented ;;
  check (bool_decide (parent ≠ nullptr)) CHECK_parent_nonnull ;;
  modify this (with_parent parent) ;;
  modify parent (λ p, with_children (children_ p ++ [this]) p) ;;
  Acquire parent.

(** [RemoveFromParent], with the [Release] it calls on the parent passed
    in, so that the mutual recursion of [Release], the destructor and
    [RemoveFromParent] is tied in [Release]. *)
Definition RemoveFromParent_with (release : Z → Z → M bool) (this : Z) : M unit :=
  n ← deref this;
  if bool_decide (parent_ n ≠ nullptr) then
    p ← deref (parent_ n);
    match erase_first this (children_ p) with
    | None => abort CHECK_child_found
    | Some l =>
        store (parent_ n) (with_children l p) ;;
        _ ← release (parent_ n) 1;
        modify this (with_parent nullptr)
    end
  else ret tt.

(** [~node]. Closing the descriptors of the handles is outside the
    model. *)
Definition node_dtor (release : Z → Z → M bool) (this : Z) : M unit :=
  RemoveFromParent_with release this ;;
  modify this (with_handles []) ;;
  modify this (with_dirhandles []) ;;
  NodeDeleted this.

(** [delete this]. *)
Definition delete_node (release : Z → Z → M bool) (this : Z) : M unit :=
  node_dtor release this ;; free this.

Fixpoint Release (fuel : nat) (this : Z) (count : Z) : M bool :=
  match fuel with
  | O => λ _, OutOfFuel
  | S fuel' =>
      n ← deref this;
      if bool_decide (count <= refcount_ n) then
        store this (with_refcount (wrap32 (refcount_ n - count)) n) ;;
        n' ← deref this;
        if bool_decide (refcount_ n' = 0) then
          delete_node (Release fuel') this ;; ret true
        else ret false
      else
        (* LOG(ERROR) << "Mismatched reference count" *)
        ret false
  end.

Definition RemoveFromParent (fuel : nat) (this : Z) : M unit :=
  RemoveFromParent_with (Release fuel) this.

(** The constructor, run on the storage at [a]. *)
Definition node_ctor (a parent : Z) (name : string) : M unit :=
  alloc a (Node name 0 [] nullptr [] [] false) ;;
  NodeCreated a ;;
  Acquire a ;;
  if bool_decide (parent ≠ nullptr) then AddToParent a parent else ret tt.

Definition Create (a parent : Z) (name : string) : M Z :=
  node_ctor a parent name ;; ret a.

Definition CreateRoot (a : Z) (path : string) : M Z :=
  node_ctor a nullptr path ;;
  Acquire a ;;
  ret a.

Definition ToInode (node : Z) : Z := to_u64 (to_uintptr node).

Definition FromInode (ino : Z) : M Z :=
  CheckTracked ino ;; ret (to_uintptr ino).

Definition GetName (this : Z) : M string := n ← deref this; ret (name_ n).

Definition GetParent (this : Z) : M Z := n ← deref this; ret (parent_ n).

(** The loop of [LookupChildByName] over the children. *)
Fixpoint lookup_scan (name : string) (acquire : bool) (l : list Z) : M Z :=
  match l with
  | [] => ret nullptr
  | child :: rest =>
      c ← deref child;
      if (strcasecmp name (name_ c) =? 0) && negb (deleted_ c) then
        (if acquire then Acquire child else ret tt) ;; ret child
      else lookup_scan name acquire rest
  end.

Definition LookupChildByName (this : Z) (name : string) (acquire : bool) : M Z :=
  n ← deref this; lookup_scan name acquire (children_ n).

Definition SetDeleted (this : Z) : M unit :=
  modify this (with_deleted true).

Definition Rename (fuel : nat) (this : Z) (name : string) (new_parent : Z) : M unit :=
  modify this (with_name name) ;;
  n ← deref this;
  if bool_decide (new_parent ≠ parent_ n) then
    RemoveFromParent fuel this ;;
    AddToParent this new_parent
  else ret tt.

Definition AddHandle (this h : Z) (obj : handle) : M unit :=
  modify this (λ n, with_handles (handles_ n ++ [(h, obj)]) n).

Definition DestroyHandle (this h : Z) : M unit :=
  n ← deref this;
  match erase_owned h (handles_ n) with
  | None => abort CHECK_handle_found
  | Some l => store this (with_handles l n)
  end.

Definition HasCachedHandle (this : Z) : M bool :=
  n ← deref this; ret (existsb (λ x, cached x.2) (handles_ n)).

Definition AddDirHandle (this dh : Z) (obj : dirhandle) : M unit :=
  modify this (λ n, with_dirhandles (dirhandles_ n ++ [(dh, obj)]) n).

Definition DestroyDirHandle (this dh : Z) : M unit :=
  n ← deref this;
  match erase_owned dh (dirhandles_ n) with
  | None => abort CHECK_dirhandle_found
  | Some l => store this (with_dirhandles l n)
  end.

(** ** Stores written by the methods *)

Definition upd (a : Z) (n : node) (s : state) : state :=
  State (<[a := n]> (heap s)) (active_nodes_ s).

(** The object the constructor has built before it links to a parent. *)
Definition fresh_node (name : string) : node := Node name 1 [] nullptr [] [] false.

(** A parent after [AddToParent] of the child at [a]. *)
Definition linked_parent (a : Z) (pn : node) : node :=
  with_refcount (wrap32 (refcount_ pn + 1)) (with_children (children_ pn ++ [a]) pn).

(** The store after [Acquire] on the node [cn] at [c]. *)
Definition acquired (c : Z) (cn : node) (s : state) : state :=
  upd c (with_refcount (wrap32 (refcount_ cn + 1)) cn) s.

(** ** Case-insensitive equality of names *)

(** The bytes [c_str()] exposes: those before the first NUL. *)
Fixpoint c_str (s : string) : list Z :=
  match s with
  | EmptyString => []
  | String c r => if byte_of c =? 0 then [] else byte_of c :: c_str r
  end.

(** Equality of names up to the case of ASCII letters. *)
Definition ci_equal (s1 s2 : string) : Prop :=
  map tolower (c_str s1) = map tolower (c_str s2).

(** The test of the loop body of [LookupChildByName] on child [c], read
    off the store. *)
Definition child_matches (s : state) (name : string) (c : Z) : bool :=
  match heap s !! c with
  | Some cn => (strcasecmp name (name_ cn) =? 0) && negb (deleted_ cn)
  | None => false
  end.

(** ** The tree and tracker invariant

    [Inv_x X s] is the invariant of the store, with the nodes of [X]
    exempt from the rule that a parent lists its child: these are the
    nodes a running [RemoveFromParent] has taken out of their parent's
    list and whose [parent_] is not reset yet. [Inv_x ∅] is the invariant
    between calls. It counts references: a child holds one reference on
    its parent, so a refcount is never below the number of children, and
    only a node under destruction has refcount 0. *)
Record Inv_x (X : gset Z) (s : state) : Prop := {
  inv_ptr : ∀ a n, heap s !! a = Some n → valid_ptr a;
  inv_tracked : dom (heap s) = active_nodes_ s;
  inv_children : ∀ a n c, heap s !! a = Some n → c ∈ children_ n →
                 (c ∉ X) ∧ ∃ cn, heap s !! c = Some cn ∧ parent_ cn = a;
  inv_parent : ∀ a n, heap s !! a = Some n → a ∉ X → parent_ n ≠ nullptr →
               ∃ pn, heap s !! parent_ n = Some pn ∧ a ∈ children_ pn;
  inv_nodup : ∀ a n, heap s !! a = Some n → NoDup (children_ n);
  inv_count : ∀ a n, heap s !! a = Some n →
              is_uint32 (refcount_ n) ∧
              (refcount_ n = 0 ∨ Z.of_nat (length (children_ n)) <= refcount_ n);
  inv_zero : ∀ a n, heap s !! a = Some n → refcount_ n = 0 → a ∈ X
}.

Definition Inv (s : state) : Prop := Inv_x ∅ s.

(** How often [a] occurs in a children list. *)
Definition occurrences (a : Z) (l : list Z) : nat :=
  length (filter (λ c, c = a) l).

(** The invariant as the specification words it: children point back to
    their parent, a node with a parent is listed exactly once by it, and
    the tracker holds exactly the live nodes. *)
Record tree_inv (s : state) : Prop := {
  ti_children : ∀ a n c, heap s !! a = Some n → c ∈ children_ n →
                ∃ cn, heap s !! c = Some cn ∧ parent_ cn = a;
  ti_parent : ∀ a n, heap s !! a = Some n → parent_ n ≠ nullptr →
              ∃ pn, heap s !! parent_ n = Some pn ∧
                    occurrences a (children_ pn) = 1%nat;
  ti_tracked : ∀ a, a ∈ active_nodes_ s ↔ is_Some (heap s !! a)
}.

(** ** What Release and the destructor guarantee *)

(** The run stopped at a [CHECK] or at a dangling pointer. *)
Definition failed {A} (o : outcome A) : Prop :=
  match o with
  | Abort _ | Undef => True
  | _ => False
  end.

(** What a [Release] may do to the nodes that stay: lists shrink, parent
    pointers stay, refcounts go down but not to 0. *)
Definition shrinks (s s' : state) : Prop :=
  ∀ a n', heap s' !! a = Some n' →
    ∃ n, heap s !! a = Some n ∧ (∀ c, c ∈ children_ n' → c ∈ children_ n) ∧
         parent_ n' = parent_ n ∧ refcount_ n' <= refcount_ n ∧
         (refcount_ n' = 0 → refcount_ n = 0).

(** The exempt nodes that have a parent pointer are not destroyed. *)
Definition survive (X : gset Z) (s s' : state) : Prop :=
  ∀ x xn, x ∈ X → heap s !! x = Some xn → parent_ xn ≠ nullptr →
          is_Some (heap s' !! x).

(** Destruction climbs: when a listed node is destroyed and its parent
    had refcount 1, the parent is destroyed as well. *)
Definition upward (X : gset Z) (s s' : state) : Prop :=
  ∀ a an gn, heap s !! a = Some an → heap s' !! a = None → a ∉ X →
             heap s !! parent_ an = Some gn → refcount_ gn = 1 →
             heap s' !! parent_ an = None ∧ (parent_ an ∉ active_nodes_ s').

(** An exempt node that still has references: releasing its last one
    would run [RemoveFromParent] on a parent that does not list it. *)
Definition bad (X : gset Z) (s : state) : Prop :=
  ∃ x xn, x ∈ X ∧ heap s !! x = Some xn ∧ refcount_ xn ≠ 0.

(** The count does not touch the references that children hold. *)
Definition disciplined (qn : node) (c : Z) : Prop :=
  refcount_ qn < c ∨ c + Z.of_nat (length (children_ qn)) <= refcount_ qn.

(** [Release(c)] on the node [qn] at [q]: it completes, with the three
    cases of the count, unless an exempt node still has references. *)
Definition release_spec (X : gset Z) (s : state) (q : Z) (qn : node) (c : Z)
    (o : outcome bool) : Prop :=
  (∃ b s', o = Done b s' ∧ shrinks s s' ∧ survive X s s' ∧ upward X s s' ∧
     (refcount_ qn < c → b = false ∧ s' = s) ∧
     (c < refcount_ qn →
        b = false ∧ s' = upd q (with_refcount (refcount_ qn - c) qn) s) ∧
     (refcount_ qn = c →
        b = true ∧ heap s' !! q = None ∧ (q ∉ active_nodes_ s')) ∧
     (disciplined qn c → Inv_x X s'))
  ∨ (failed o ∧ bad X s).

(** [delete] of the node [qn] at [q], started in [s] with the refcount
    of [q] set to 0. *)
Definition delete_spec (X : gset Z) (s : state) (q : Z) (qn : node)
    (o : outcome unit) : Prop :=
  (∃ s', o = Done tt s' ∧ heap s' !! q = None ∧ (q ∉ active_nodes_ s') ∧
     shrinks s s' ∧ survive X s s' ∧ upward X s s' ∧
     (children_ qn = [] → Inv_x X s') ∧
     (∀ pn l, heap s !! parent_ qn = Some pn → 1 < refcount_ pn →
              parent_ qn ≠ q → erase_first q (children_ pn) = Some l →
              heap s' !! parent_ qn =
                Some (with_refcount (refcount_ pn - 1) (with_children l pn))))
  ∨ (failed o ∧ bad X s).

(** ** The frame of a Release *)

(** [n'] is [n] but for its refcount, its parent pointer and children
    erased from its list. *)
Definition kept (n n' : node) : Prop :=
  name_ n' = name_ n ∧ deleted_ n' = deleted_ n ∧
  handles_ n' = handles_ n ∧ dirhandles_ n' = dirhandles_ n ∧
  sublist (children_ n') (children_ n).

(** From [s] to [s'] nodes were destroyed, each one leaving the tracker
    with its storage, no node was made, and the nodes that stay are
    [kept], with their parent pointer when they are not in [X]. *)
Definition frame_x (X : gset Z) (s s' : state) : Prop :=
  (∀ a n', heap s' !! a = Some n' →
     ∃ n, heap s !! a = Some n ∧ kept n n' ∧ (a ∉ X → parent_ n' = parent_ n)) ∧
  active_nodes_ s' = active_nodes_ s ∖ (dom (heap s) ∖ dom (heap s')).

Definition frame (s s' : state) : Prop := frame_x ∅ s s'.

(** ** Reachable states

    One call of the public interface that returns. The side conditions
    are the part of the FUSE lookup-count protocol the invariant rests on:
    a refcount does not wrap around, and [Release] gives back references
    that were handed out, not those that children hold on the node. *)
Inductive step (s : state) : state → Prop :=
| step_Create a p name r s' :
    (∀ pn, heap s !! p = Some pn → refcount_ pn < 2 ^ 32 - 1) →
    Create a p name s = Done r s' → step s s'
| step_CreateRoot a path r s' :
    CreateRoot a path s = Done r s' → step s s'
| step_Rename fuel n name q s' :
    (size (dom (heap s)) < fuel)%nat →
    (∀ qn, heap s !! q = Some qn → refcount_ qn < 2 ^ 32 - 1) →
    Rename fuel n name q s = Done tt s' → step s s'
| step_SetDeleted n s' :
    SetDeleted n s = Done tt s' → step s s'
| step_Release fuel n c b s' :
    (size (dom (heap s)) < fuel)%nat → 0 <= c →
    (∀ nn, heap s !! n = Some nn → disciplined nn c) →
    Release fuel n c s = Done b s' → step s s'
| step_LookupChildByName p name acquire r s' :
    (∀ cn, heap s !! r = Some cn → refcount_ cn < 2 ^ 32 - 1) →
    LookupChildByName p name acquire s = Done r s' → step s s'
| step_AddHandle n h obj s' :
    AddHandle n h obj s = Done tt s' → step s s'
| step_DestroyHandle n h s' :
    DestroyHandle n h s = Done tt s' → step s s'
| step_HasCachedHandle n b s' :
    HasCachedHandle n s = Done b s' → step s s'
| step_AddDirHandle n h obj s' :
    AddDirHandle n h obj s = Done tt s' → step s s'
| step_DestroyDirHandle n h s' :
    DestroyDirHandle n h s = Done tt s' → step s s'
| step_FromInode ino r s' :
    FromInode ino s = Done r s' → step s s'
| step_GetName n r s' :
    GetName n s = Done r s' → step s s'
| step_GetParent n r s' :
    GetParent n s = Done r s' → step s s'.

Inductive reachable : state → Prop :=
| reachable_init : reachable empty_state
| reachable_step s s' : reachable s → step s s' → reachable s'.

(** ** The claim about Rename to another parent *)

(** The property as the specification states it, for one call: whenever
    [n] has the live parent [oldParent] and [newParent] is another live
    node, the call completes with [n] moved and one reference moved from
    [oldParent] to [newParent]. *)
Definition Rename_claim (fuel : nat) (s : state) (n : Z) (newName : string)
    (newParent : Z) : Prop :=
  ∀ nn oldParent po pq,
    heap s !! n = Some nn → parent_ nn = oldParent →
    heap s !! oldParent = Some po → heap s !! newParent = Some pq →
    newParent ≠ oldParent →
    ∃ s' nn' po' pq',
      Rename fuel n newName newParent s = Done tt s' ∧
      heap s' !! n = Some nn' ∧ heap s' !! oldParent = Some po' ∧
      heap s' !! newParent = Some pq' ∧
      name_ nn' = newName ∧
      n ∈ children_ pq' ∧ (n ∉ children_ po') ∧
      parent_ nn' = newParent ∧
      refcount_ po' = refcount_ po - 1 ∧
      refcount_ pq' = refcount_ pq + 1 ∧
      refcount_ nn' = refcount_ nn.

(** ** Example states *)

(** The store a run ends in. *)
Definition run {A} (m : M A) (s : state) : option state :=
  match m s with
  | Done _ s' => Some s'
  | _ => None
  end.

(** A root, a directory under it and a file in the directory. *)
Definition st_root : state :=
  default empty_state (run (CreateRoot 16 "/storage") empty_state).

Definition st_dir : state :=
  default empty_state (run (Create 32 16 "Pictures") st_root).

Definition st_file : state :=
  default empty_state (run (Create 48 32 "img.jpg") st_dir).

(** The kernel has forgotten the directory, its file is still looked up:
    the directory is kept by the reference of its child alone. *)
Definition st_kept : state :=
  default empty_state (run (Release 3 32 1) st_file).

(** A file two directories down, both directories forgotten by the
    kernel. *)
Definition st_deep : state :=
  default empty_state
    (s1 ← run (Create 64 48 "a.jpg") st_file;
     s2 ← run (Release 3 32 1) s1;
     run (Release 3 48 1) s2).

(** The root of [st_dir] has refcount 3: two of its own and one held by
    its child. Releasing all three destroys the root under the child. *)
Definition st_orphan : state :=
  default empty_state (run (Release 3 16 3) st_dir).

(** * Properties *)

Example st_file_root : refcount_ <$> heap st_file !! 16 = Some 3.
Proof. vm_compute. reflexivity. Qed.

Example st_file_dir : children_ <$> heap st_file !! 32 = Some [48].
Proof. vm_compute. reflexivity. Qed.

Example st_file_lookup :
  (LookupChildByName 16 "PICTURES" false st_file) = Done 32 st_file.
Proof. vm_compute. reflexivity. Qed.

(** ** Reasoning about runs *)

Lemma bind_Done {A B} (m : M A) (k : A → M B) s a s1 :
  m s = Done a s1 → (m ≫= k) s = k a s1.
Proof. unfold mbind, M_bind, bind. intros ->. reflexivity. Qed.

Lemma bind_Done_inv {A B} (m : M A) (k : A → M B) s b s' :
  (m ≫= k) s = Done b s' → ∃ a s1, m s = Done a s1 ∧ k a s1 = Done b s'.
Proof.
  unfold mbind, M_bind, bind. destruct (m s) as [a s1| | |]; try discriminate.
  intros H. exists a, s1. split; [reflexivity | exact H].
Qed.

Lemma deref_Done a n s : heap s !! a = Some n → deref a s = Done n s.
Proof. unfold deref. intros ->. reflexivity. Qed.

Lemma deref_Done_inv a n s s' :
  deref a s = Done n s' → s' = s ∧ heap s !! a = Some n.
Proof.
  unfold deref. destruct (heap s !! a) eqn:E; [|discriminate].
  intros [= -> ->]. split; reflexivity.
Qed.

Lemma modify_Done a f n s :
  heap s !! a = Some n →
  modify a f s = Done tt (State (<[a := f n]> (heap s)) (active_nodes_ s)).
Proof. intros H. unfold modify. rewrite (bind_Done _ _ _ _ _ (deref_Done _ _ _ H)). reflexivity. Qed.

Lemma modify_Done_inv a f s s' :
  modify a f s = Done tt s' →
  ∃ n, heap s !! a = Some n ∧ s' = State (<[a := f n]> (heap s)) (active_nodes_ s).
Proof.
  unfold modify. intros H. apply bind_Done_inv in H as (n & s1 & H1 & H2).
  apply deref_Done_inv in H1 as [-> H1]. exists n. split; [exact H1|].
  unfold store in H2. congruence.
Qed.

Lemma NodeDeleted_Done_inv a s s' :
  NodeDeleted a s = Done tt s' →
  a ∈ active_nodes_ s ∧ s' = State (heap s) (active_nodes_ s ∖ {[a]}).
Proof.
  unfold NodeDeleted, kEnableInodeTracking. case_bool_decide; [|discriminate].
  intros [= <-]. split; [assumption | reflexivity].
Qed.

Lemma wrap32_small z : is_uint32 z → wrap32 z = z.
Proof. unfold is_uint32, wrap32. intros H. apply Z.mod_small. lia. Qed.

Lemma to_uintptr_ToInode n : valid_ptr n → to_uintptr (ToInode n) = n.
Proof.
  unfold valid_ptr, ToInode, to_u64, to_uintptr. intros H.
  assert (E : n mod 2 ^ 64 = n) by (apply Z.mod_small; lia).
  rewrite !E. reflexivity.
Qed.

Lemma Release_S fuel this count :
  Release (S fuel) this count =
    (n ← deref this;
     if bool_decide (count <= refcount_ n) then
       store this (with_refcount (wrap32 (refcount_ n - count)) n) ;;
       n' ← deref this;
       if bool_decide (refcount_ n' = 0) then
         delete_node (Release fuel) this ;; ret true
       else ret false
     else ret false).
Proof. reflexivity. Qed.

(** A [Release] that reports the last reference gone has unregistered and
    freed the node. *)
Lemma Release_true_gone fuel n c s s' :
  Release fuel n c s = Done true s' →
  (n ∉ active_nodes_ s') ∧ heap s' !! n = None.
Proof.
  destruct fuel as [|fuel]; [discriminate|]. rewrite Release_S. intros H.
  apply bind_Done_inv in H as (nn & s1 & _ & H).
  case_bool_decide; [|discriminate].
  apply bind_Done_inv in H as ([] & s2 & _ & H).
  apply bind_Done_inv in H as (n' & s3 & _ & H).
  case_bool_decide; [|discriminate].
  apply bind_Done_inv in H as ([] & s4 & H & Hr).
  injection Hr as <-.
  unfold delete_node in H.
  apply bind_Done_inv in H as ([] & s5 & Hd & H).
  unfold free in H. injection H as <-. simpl.
  split; [|apply lookup_delete_eq].
  unfold node_dtor in Hd.
  apply bind_Done_inv in Hd as ([] & s6 & _ & Hd).
  apply bind_Done_inv in Hd as ([] & s7 & _ & Hd).
  apply bind_Done_inv in Hd as ([] & s8 & _ & Hd).
  apply NodeDeleted_Done_inv in Hd as [_ ->]. simpl.
  rewrite elem_of_difference, elem_of_singleton. tauto.
Qed.

(** ** Inode mapping *)

(** C1. For a live node [n] (registered in the tracker),
    [FromInode(ToInode(n))] passes [CheckTracked] and returns [n]; for the
    identifier of a node that is not registered, and in particular of a
    node that a [Release] has just destroyed, [FromInode] stops at the
    fatal assertion of [CheckTracked]. *)
Theorem FromInode_ToInode_tracked (s : state) (n : Z) :
  valid_ptr n →
  (n ∈ active_nodes_ s → FromInode (ToInode n) s = Done n s) ∧
  (n ∉ active_nodes_ s → FromInode (ToInode n) s = Abort CHECK_tracked) ∧
  (∀ fuel c s', Release fuel n c s = Done true s' →
                FromInode (ToInode n) s' = Abort CHECK_tracked).
Proof.
  intros Hv.
  assert (Hun : ∀ t, n ∉ active_nodes_ t →
                     FromInode (ToInode n) t = Abort CHECK_tracked).
  { intros t Ht. unfold FromInode, mbind, M_bind, bind, CheckTracked, kEnableInodeTracking.
    rewrite to_uintptr_ToInode by exact Hv.
    rewrite bool_decide_eq_false_2 by exact Ht. reflexivity. }
  split; [|split].
  - intros Hin. unfold FromInode, mbind, M_bind, bind, CheckTracked, kEnableInodeTracking, ret.
    rewrite to_uintptr_ToInode by exact Hv.
    rewrite bool_decide_eq_true_2 by exact Hin. reflexivity.
  - apply Hun.
  - intros fuel c s' H. apply Hun. eapply Release_true_gone. exact H.
Qed.

Lemma FromInode_ToInode_tracked_witness :
  FromInode (ToInode 48) st_file = Done 48 st_file ∧
  FromInode (ToInode 48) (default empty_state (run (Release 3 48 1) st_file))
    = Abort CHECK_tracked.
Proof.
  assert (Hv : valid_ptr 48) by (split; reflexivity).
  destruct (FromInode_ToInode_tracked st_file 48 Hv) as (H1 & _ & H3).
  split.
  - apply H1. refine (bool_decide_unpack _ _). vm_compute. exact I.
  - apply (H3 3%nat 1). vm_compute. reflexivity.
Defined.

(** ** Executing the methods on a known store *)

Ltac step H := rewrite (bind_Done _ _ _ _ _ H); cbv beta.

Tactic Notation "step_by" tactic3(tac) := erewrite bind_Done by tac; cbv beta.

Lemma store_Done a n s : store a n s = Done tt (upd a n s).
Proof. reflexivity. Qed.

Lemma modify_upd a f n s :
  heap s !! a = Some n → modify a f s = Done tt (upd a (f n) s).
Proof. apply modify_Done. Qed.

Lemma Acquire_Done a n s :
  heap s !! a = Some n →
  Acquire a s = Done tt (upd a (with_refcount (wrap32 (refcount_ n + 1)) n) s).
Proof. intros H. unfold Acquire. rewrite (modify_upd _ _ _ _ H). reflexivity. Qed.

Lemma heap_upd_eq a n s : heap (upd a n s) !! a = Some n.
Proof. apply lookup_insert_eq. Qed.

Lemma heap_upd_ne a b n s : a ≠ b → heap (upd a n s) !! b = heap s !! b.
Proof. intros H. simpl. apply lookup_insert_ne. exact H. Qed.

Lemma upd_upd a n m s : upd a n (upd a m s) = upd a n s.
Proof. unfold upd. simpl. rewrite insert_insert_eq. reflexivity. Qed.

Lemma alloc_Done a n s :
  valid_ptr a → heap s !! a = None → alloc a n s = Done tt (upd a n s).
Proof.
  intros Hv Hf. unfold alloc. rewrite bool_decide_eq_true_2 by (split; assumption).
  reflexivity.
Qed.

Lemma NodeCreated_Done a s :
  a ∉ active_nodes_ s →
  NodeCreated a s = Done tt (State (heap s) ({[a]} ∪ active_nodes_ s)).
Proof.
  intros H. unfold NodeCreated, kEnableInodeTracking.
  rewrite bool_decide_eq_true_2 by exact H. reflexivity.
Qed.

Lemma NodeDeleted_Done a s :
  a ∈ active_nodes_ s →
  NodeDeleted a s = Done tt (State (heap s) (active_nodes_ s ∖ {[a]})).
Proof.
  intros H. unfold NodeDeleted, kEnableInodeTracking.
  rewrite bool_decide_eq_true_2 by exact H. reflexivity.
Qed.

Lemma node_ctor_root a name s :
  valid_ptr a → heap s !! a = None → a ∉ active_nodes_ s →
  node_ctor a nullptr name s =
    Done tt (State (<[a := fresh_node name]> (heap s)) ({[a]} ∪ active_nodes_ s)).
Proof.
  intros Hv Hf Ht. unfold node_ctor.
  step (alloc_Done _ (Node name 0 [] nullptr [] [] false) _ Hv Hf).
  step_by (apply NodeCreated_Done; exact Ht).
  step_by (apply Acquire_Done; apply lookup_insert_eq).
  rewrite bool_decide_eq_false_2 by (intros H; apply H; reflexivity).
  unfold ret, upd. simpl. rewrite insert_insert_eq. reflexivity.
Qed.

(** ** CreateRoot *)

(** C4. [CreateRoot] returns a node without parent whose refcount is 2
    right after construction, so one [Release(1)] leaves it alive, with
    refcount 1, and answers false. *)
Theorem CreateRoot_refcount_two (s : state) (a : Z) (path : string) :
  valid_ptr a → heap s !! a = None → a ∉ active_nodes_ s →
  ∃ s', CreateRoot a path s = Done a s' ∧
        heap s' !! a = Some (Node path 2 [] nullptr [] [] false) ∧
        a ∈ active_nodes_ s' ∧
        ∀ fuel, ∃ s'', Release (S fuel) a 1 s' = Done false s'' ∧
                       heap s'' !! a = Some (Node path 1 [] nullptr [] [] false) ∧
                       a ∈ active_nodes_ s''.
Proof.
  intros Hv Hf Ht. eexists. split; [|split; [|split]].
  - unfold CreateRoot.
    step (node_ctor_root _ path _ Hv Hf Ht).
    step_by (apply Acquire_Done; apply lookup_insert_eq).
    reflexivity.
  - apply heap_upd_eq.
  - simpl. apply elem_of_union_l, elem_of_singleton. reflexivity.
  - intros fuel. eexists. split; [|split].
    + rewrite Release_S.
      step_by (apply deref_Done; apply heap_upd_eq).
      simpl refcount_. rewrite bool_decide_eq_true_2 by (vm_compute; discriminate).
      step_by (apply store_Done).
      step_by (apply deref_Done; apply heap_upd_eq).
      simpl refcount_. rewrite bool_decide_eq_false_2 by (vm_compute; discriminate).
      reflexivity.
    + apply heap_upd_eq.
    + simpl. apply elem_of_union_l, elem_of_singleton. reflexivity.
Qed.

Lemma CreateRoot_refcount_two_witness :
  ∃ s', CreateRoot 16 "/storage" empty_state = Done 16 s' ∧
        heap s' !! 16 = Some (Node "/storage" 2 [] nullptr [] [] false) ∧
        16 ∈ active_nodes_ s' ∧
        ∀ fuel, ∃ s'', Release (S fuel) 16 1 s' = Done false s'' ∧
                       heap s'' !! 16 = Some (Node "/storage" 1 [] nullptr [] [] false) ∧
                       16 ∈ active_nodes_ s''.
Proof.
  apply (CreateRoot_refcount_two empty_state 16 "/storage").
  - split; reflexivity.
  - reflexivity.
  - apply not_elem_of_empty.
Defined.

(** ** Linking to a parent *)

Lemma check_true c s : check true c s = Done tt s.
Proof. reflexivity. Qed.

Lemma AddToParent_Done this p n pn s :
  heap s !! this = Some n → parent_ n = nullptr →
  p ≠ nullptr → p ≠ this → heap s !! p = Some pn →
  AddToParent this p s =
    Done tt (upd p (with_refcount (wrap32 (refcount_ pn + 1))
                      (with_children (children_ pn ++ [this]) pn))
               (upd this (with_parent p n) s)).
Proof.
  intros Hn Hpar Hp Hne Hpn. unfold AddToParent.
  step (deref_Done _ _ _ Hn).
  rewrite (bool_decide_eq_true_2 (parent_ n = nullptr)) by exact Hpar.
  rewrite (bool_decide_eq_true_2 (p ≠ nullptr)) by exact Hp.
  step (check_true CHECK_unparented s).
  step (check_true CHECK_parent_nonnull s).
  step (modify_upd _ (with_parent p) _ _ Hn).
  assert (Hpn' : heap (upd this (with_parent p n) s) !! p = Some pn).
  { rewrite heap_upd_ne by congruence. exact Hpn. }
  step (modify_upd _ (λ p0, with_children (children_ p0 ++ [this]) p0) _ _ Hpn').
  rewrite (Acquire_Done p _ _ (heap_upd_eq _ _ _)).
  rewrite upd_upd. reflexivity.
Qed.

Lemma node_ctor_child a p name pn s :
  valid_ptr a → heap s !! a = None → a ∉ active_nodes_ s →
  p ≠ nullptr → heap s !! p = Some pn →
  node_ctor a p name s =
    Done tt (State (<[p := linked_parent a pn]>
                      (<[a := Node name 1 [] p [] [] false]> (heap s)))
               ({[a]} ∪ active_nodes_ s)).
Proof.
  intros Hv Hf Ht Hp Hpn.
  assert (Hne : p ≠ a) by congruence.
  unfold node_ctor.
  step (alloc_Done _ (Node name 0 [] nullptr [] [] false) _ Hv Hf).
  step_by (apply NodeCreated_Done; exact Ht).
  step_by (apply Acquire_Done; apply lookup_insert_eq).
  rewrite bool_decide_eq_true_2 by exact Hp.
  erewrite (AddToParent_Done a p (fresh_node name) pn).
  - unfold upd. simpl. rewrite !insert_insert_eq. reflexivity.
  - simpl. rewrite insert_insert_eq. apply lookup_insert_eq.
  - reflexivity.
  - exact Hp.
  - exact Hne.
  - simpl. rewrite insert_insert_eq. rewrite lookup_insert_ne by congruence. exact Hpn.
Qed.

(** ** Create *)

(** C3. [Create(p, name)] on a live parent [p] returns a new node with
    refcount 1, not deleted, registered in the tracker, with parent
    pointer [p] and appended to [p]'s children; [p]'s refcount goes up by
    one ([uint32_t] arithmetic) and [p]'s name, parent, deleted flag,
    handles and earlier children, every other node and every other
    registration stay as they were. *)
Theorem Create_links_new_node (s : state) (a p : Z) (name : string) (pn : node) :
  valid_ptr a → heap s !! a = None → a ∉ active_nodes_ s →
  p ≠ nullptr → heap s !! p = Some pn →
  ∃ s' pn',
    Create a p name s = Done a s' ∧
    heap s' !! a = Some (Node name 1 [] p [] [] false) ∧
    a ∈ active_nodes_ s' ∧
    heap s' !! p = Some pn' ∧
    a ∈ children_ pn' ∧
    children_ pn' = children_ pn ++ [a] ∧
    refcount_ pn' = wrap32 (refcount_ pn + 1) ∧
    (0 <= refcount_ pn < 2 ^ 32 - 1 → refcount_ pn' = refcount_ pn + 1) ∧
    name_ pn' = name_ pn ∧ parent_ pn' = parent_ pn ∧
    deleted_ pn' = deleted_ pn ∧ handles_ pn' = handles_ pn ∧
    dirhandles_ pn' = dirhandles_ pn ∧
    (∀ b, b ≠ a → b ≠ p → heap s' !! b = heap s !! b) ∧
    active_nodes_ s' = {[a]} ∪ active_nodes_ s.
Proof.
  intros Hv Hf Ht Hp Hpn.
  assert (Hne : p ≠ a) by congruence.
  eexists. exists (linked_parent a pn). split; [|split; [|split; [|split]]].
  - unfold Create.
    step (node_ctor_child a p name pn s Hv Hf Ht Hp Hpn). reflexivity.
  - simpl. rewrite lookup_insert_ne by exact Hne. apply lookup_insert_eq.
  - simpl. apply elem_of_union_l, elem_of_singleton. reflexivity.
  - simpl. apply lookup_insert_eq.
  - simpl. repeat split; try reflexivity.
    + apply elem_of_app. right. apply list_elem_of_singleton. reflexivity.
    + intros Hr. unfold wrap32. apply Z.mod_small. lia.
    + intros b Hba Hbp. rewrite !lookup_insert_ne by congruence. reflexivity.
Qed.

Lemma Create_links_new_node_witness :
  ∃ s' pn',
    Create 32 16 "Pictures" st_root = Done 32 s' ∧
    heap s' !! 32 = Some (Node "Pictures" 1 [] 16 [] [] false) ∧
    32 ∈ active_nodes_ s' ∧
    heap s' !! 16 = Some pn' ∧
    32 ∈ children_ pn' ∧
    children_ pn' = [] ++ [32] ∧
    refcount_ pn' = wrap32 (2 + 1) ∧
    (0 <= 2 < 2 ^ 32 - 1 → refcount_ pn' = 2 + 1) ∧
    name_ pn' = "/storage" ∧ parent_ pn' = nullptr ∧
    deleted_ pn' = false ∧ handles_ pn' = [] ∧
    dirhandles_ pn' = [] ∧
    (∀ b, b ≠ 32 → b ≠ 16 → heap s' !! b = heap st_root !! b) ∧
    active_nodes_ s' = {[32]} ∪ active_nodes_ st_root.
Proof.
  apply (Create_links_new_node st_root 32 16 "Pictures"
           (Node "/storage" 2 [] nullptr [] [] false)).
  - split; reflexivity.
  - vm_compute. reflexivity.
  - refine (bool_decide_unpack _ _). vm_compute. exact I.
  - discriminate.
  - vm_compute. reflexivity.
Defined.

(** ** Case-insensitive comparison *)

Lemma tolower_zero x : tolower x = 0 ↔ x = 0.
Proof.
  unfold tolower. destruct ((65 <=? x) && (x <=? 90)) eqn:E.
  - apply andb_true_iff in E as [E1 E2]. lia.
  - tauto.
Qed.

Lemma strcasecmp_ci_equal s1 : ∀ s2, strcasecmp s1 s2 = 0 ↔ ci_equal s1 s2.
Proof.
  unfold ci_equal.
  induction s1 as [|x r1 IH]; intros [|y r2]; simpl.
  - split; reflexivity.
  - change (tolower 0) with 0. pose proof (tolower_zero (byte_of y)) as T.
    destruct (Z.eqb_spec (byte_of y) 0) as [E|E]; simpl.
    + split; [reflexivity | lia].
    + split; [lia | discriminate].
  - change (tolower 0) with 0. pose proof (tolower_zero (byte_of x)) as T.
    destruct (Z.eqb_spec (byte_of x) 0) as [E|E]; simpl.
    + split; [reflexivity | lia].
    + split; [lia | discriminate].
  - pose proof (tolower_zero (byte_of x)) as Tx.
    pose proof (tolower_zero (byte_of y)) as Ty.
    destruct (Z.eqb_spec (tolower (byte_of x)) (tolower (byte_of y))) as [E|E].
    + destruct (Z.eqb_spec (byte_of x) 0) as [Ex|Ex].
      * destruct (Z.eqb_spec (byte_of y) 0) as [Ey|Ey]; [tauto | lia].
      * destruct (Z.eqb_spec (byte_of y) 0) as [Ey|Ey]; [lia|].
        simpl. rewrite IH. split; [intros ->; congruence | intros [= _ H]; exact H].
    + destruct (Z.eqb_spec (byte_of x) 0) as [Ex|Ex];
        destruct (Z.eqb_spec (byte_of y) 0) as [Ey|Ey]; simpl;
        (split; [lia | try discriminate; try lia; intros [= H _]; congruence]).
Qed.

Example strcasecmp_pictures : strcasecmp "pictures" "PicTures" = 0.
Proof. reflexivity. Qed.

Example strcasecmp_differs : strcasecmp "Videos" "Pictures" = 6.
Proof. reflexivity. Qed.

(** ** LookupChildByName *)

Lemma lookup_scan_find name acquire l : ∀ s,
  Forall (λ c, is_Some (heap s !! c)) l →
  lookup_scan name acquire l s =
    match List.find (child_matches s name) l with
    | None => Done nullptr s
    | Some c =>
        match heap s !! c with
        | Some cn => Done c (if acquire then acquired c cn s else s)
        | None => Undef
        end
    end.
Proof.
  induction l as [|c l IH]; intros s Hl; [reflexivity|].
  apply Forall_cons in Hl as [[cn Hc] Hl]. simpl.
  step (deref_Done _ _ _ Hc). unfold child_matches at 1. rewrite Hc.
  destruct ((strcasecmp name (name_ cn) =? 0) && negb (deleted_ cn)).
  - rewrite Hc. destruct acquire.
    + step (Acquire_Done _ _ _ Hc). reflexivity.
    + reflexivity.
  - apply IH. exact Hl.
Qed.

Lemma lookup_scan_result name acquire l : ∀ s r s',
  lookup_scan name acquire l s = Done r s' →
  r = nullptr ∨ (r ∈ l ∧ child_matches s name r = true).
Proof.
  induction l as [|c l IH]; intros s r s' H; simpl in H.
  - left. unfold ret in H. congruence.
  - apply bind_Done_inv in H as (cn & s1 & H1 & H).
    apply deref_Done_inv in H1 as [-> Hc].
    destruct ((strcasecmp name (name_ cn) =? 0) && negb (deleted_ cn)) eqn:E.
    + apply bind_Done_inv in H as (u & s2 & _ & H). unfold ret in H.
      injection H as <- _. right. split; [apply list_elem_of_here|].
      unfold child_matches. rewrite Hc. exact E.
    + apply IH in H as [H|[H1 H2]]; [left; exact H|].
      right. split; [apply list_elem_of_further; exact H1 | exact H2].
Qed.

(** C8. On a parent [p] whose children are live, [LookupChildByName]
    returns either a child whose name matches case-insensitively and that
    is not deleted, having incremented that child's refcount by one when
    [acquire] is set and changed nothing at all otherwise, or null when
    every child that matches is deleted, and then nothing has changed. *)
Theorem LookupChildByName_spec (s : state) (p : Z) (pn : node)
    (name : string) (acquire : bool) :
  heap s !! p = Some pn →
  Forall (λ c, is_Some (heap s !! c)) (children_ pn) →
  ∃ r s',
    LookupChildByName p name acquire s = Done r s' ∧
    ((r = nullptr ∧ s' = s ∧
      ∀ c cn, c ∈ children_ pn → heap s !! c = Some cn →
              ci_equal name (name_ cn) → deleted_ cn = true)
     ∨
     (∃ cn, r ∈ children_ pn ∧ heap s !! r = Some cn ∧
            strcasecmp name (name_ cn) = 0 ∧ ci_equal name (name_ cn) ∧
            deleted_ cn = false ∧
            (acquire = false → s' = s) ∧
            (acquire = true →
               s' = upd r (with_refcount (wrap32 (refcount_ cn + 1)) cn) s ∧
               (0 <= refcount_ cn < 2 ^ 32 - 1 →
                  refcount_ <$> heap s' !! r = Some (refcount_ cn + 1))))).
Proof.
  intros Hp Hl. unfold LookupChildByName.
  step (deref_Done _ _ _ Hp). rewrite (lookup_scan_find _ _ _ _ Hl).
  destruct (List.find (child_matches s name) (children_ pn)) as [c|] eqn:F.
  - apply find_some in F as [Hin Hm]. apply list_elem_of_In in Hin.
    unfold child_matches in Hm.
    destruct (heap s !! c) as [cn|] eqn:Hc; [|discriminate].
    apply andb_true_iff in Hm as [Hm1 Hm2]. apply Z.eqb_eq in Hm1.
    apply negb_true_iff in Hm2.
    eexists _, _. split; [reflexivity|]. right. exists cn.
    repeat split; try assumption.
    + apply strcasecmp_ci_equal. exact Hm1.
    + intros ->. reflexivity.
    + subst acquire. reflexivity.
    + subst acquire. intros Hr. unfold acquired. rewrite heap_upd_eq. simpl.
      unfold wrap32. rewrite Z.mod_small by lia. reflexivity.
  - eexists _, _. split; [reflexivity|]. left. repeat split.
    intros c cn Hin Hc Hci. apply list_elem_of_In in Hin.
    pose proof (find_none _ _ F c Hin) as Hm. unfold child_matches in Hm.
    rewrite Hc in Hm. apply strcasecmp_ci_equal in Hci. rewrite Hci in Hm.
    simpl in Hm. apply negb_false_iff in Hm. exact Hm.
Qed.

Lemma LookupChildByName_spec_witness :
  ∃ r s', LookupChildByName 16 "PICTURES" true st_file = Done r s'.
Proof.
  destruct (LookupChildByName_spec st_file 16
              (Node "/storage" 3 [32] nullptr [] [] false) "PICTURES" true)
    as (r & s' & H & _).
  - vm_compute. reflexivity.
  - repeat constructor. vm_compute. eexists. reflexivity.
  - exists r, s'. exact H.
Defined.

(** ** SetDeleted *)

Lemma SetDeleted_Done n nn s :
  heap s !! n = Some nn → SetDeleted n s = Done tt (upd n (with_deleted true nn) s).
Proof. intros H. unfold SetDeleted. apply modify_upd. exact H. Qed.

Lemma GetParent_Done n nn s :
  heap s !! n = Some nn → GetParent n s = Done (parent_ nn) s.
Proof. intros H. unfold GetParent. step (deref_Done _ _ _ H). reflexivity. Qed.

(** C7. [SetDeleted] on a live node [n] writes only [n]'s deleted flag:
    the post-state is the pre-state with that one field set, so refcount,
    name, parent pointer, children lists, handles and the tracker are as
    before and [GetParent] answers the same node; afterwards no
    [LookupChildByName] returns [n], and the lookup of [n]'s name on its
    parent still completes. *)
Theorem SetDeleted_only_flag (s : state) (n : Z) (nn : node) :
  n ≠ nullptr → heap s !! n = Some nn →
  ∃ s',
    SetDeleted n s = Done tt s' ∧
    s' = upd n (with_deleted true nn) s ∧
    heap s' !! n = Some (Node (name_ nn) (refcount_ nn) (children_ nn) (parent_ nn)
                           (handles_ nn) (dirhandles_ nn) true) ∧
    (∀ b, b ≠ n → heap s' !! b = heap s !! b) ∧
    active_nodes_ s' = active_nodes_ s ∧
    GetParent n s = Done (parent_ nn) s ∧
    GetParent n s' = Done (parent_ nn) s' ∧
    (∀ p name acquire r s'',
       LookupChildByName p name acquire s' = Done r s'' → r ≠ n) ∧
    (∀ pn acquire,
       heap s !! parent_ nn = Some pn →
       Forall (λ c, is_Some (heap s !! c)) (children_ pn) →
       ∃ r s'', LookupChildByName (parent_ nn) (name_ nn) acquire s' = Done r s'' ∧
                r ≠ n).
Proof.
  intros Hnz Hn. exists (upd n (with_deleted true nn) s).
  assert (Hno : ∀ p name acquire r s'',
            LookupChildByName p name acquire (upd n (with_deleted true nn) s)
              = Done r s'' → r ≠ n).
  { intros p name acquire r s'' H. unfold LookupChildByName in H.
    apply bind_Done_inv in H as (pn & s1 & H1 & H).
    apply deref_Done_inv in H1 as [-> _].
    apply lookup_scan_result in H as [->|[_ H]]; [congruence|].
    intros ->. unfold child_matches in H. rewrite heap_upd_eq in H.
    simpl in H. rewrite andb_false_r in H. discriminate. }
  split; [apply SetDeleted_Done; exact Hn|].
  split; [reflexivity|].
  split; [apply heap_upd_eq|].
  split; [intros b Hb; apply heap_upd_ne; congruence|].
  split; [reflexivity|].
  split; [apply GetParent_Done; exact Hn|].
  split; [apply (GetParent_Done n (with_deleted true nn)); apply heap_upd_eq|].
  split; [exact Hno|].
  intros pn acquire Hp Hl.
  destruct (decide (parent_ nn = n)) as [E|E].
  - destruct (LookupChildByName_spec (upd n (with_deleted true nn) s) (parent_ nn)
                (with_deleted true nn) (name_ nn) acquire) as (r & s'' & H & _).
    + rewrite E. apply heap_upd_eq.
    + rewrite E, Hn in Hp. injection Hp as <-. simpl.
      eapply Forall_impl; [exact Hl|]. intros c [cn Hc]. simpl.
      destruct (decide (n = c)) as [->|Hne].
      * rewrite lookup_insert_eq. eexists. reflexivity.
      * rewrite lookup_insert_ne by exact Hne. eexists. exact Hc.
    + exists r, s''. split; [exact H | eapply Hno; exact H].
  - destruct (LookupChildByName_spec (upd n (with_deleted true nn) s) (parent_ nn)
                pn (name_ nn) acquire) as (r & s'' & H & _).
    + rewrite heap_upd_ne by congruence. exact Hp.
    + eapply Forall_impl; [exact Hl|]. intros c [cn Hc]. simpl.
      destruct (decide (n = c)) as [->|Hne].
      * rewrite lookup_insert_eq. eexists. reflexivity.
      * rewrite lookup_insert_ne by exact Hne. eexists. exact Hc.
    + exists r, s''. split; [exact H | eapply Hno; exact H].
Qed.

Lemma SetDeleted_only_flag_witness :
  ∃ s', SetDeleted 32 st_file = Done tt s' ∧
        LookupChildByName 16 "Pictures" false st_file = Done 32 st_file ∧
        LookupChildByName 16 "Pictures" false s' = Done nullptr s'.
Proof.
  destruct (SetDeleted_only_flag st_file 32 (Node "Pictures" 2 [48] 16 [] [] false))
    as (s' & H & -> & _).
  - discriminate.
  - vm_compute. reflexivity.
  - eexists. split; [exact H|]. split; vm_compute; reflexivity.
Defined.

(** ** Rename *)

(** C10. [Rename(newName, p)] with [p] the current parent of [n] (null
    for a root) writes [n]'s name and nothing else: the post-state is the
    pre-state with that one field set, whatever the fuel, so no refcount
    and no children list changes. *)
Theorem Rename_same_parent (fuel : nat) (s : state) (n : Z) (nn : node)
    (newName : string) :
  heap s !! n = Some nn →
  ∃ s',
    Rename fuel n newName (parent_ nn) s = Done tt s' ∧
    s' = upd n (with_name newName nn) s ∧
    heap s' !! n = Some (Node newName (refcount_ nn) (children_ nn) (parent_ nn)
                           (handles_ nn) (dirhandles_ nn) (deleted_ nn)) ∧
    (∀ b, b ≠ n → heap s' !! b = heap s !! b) ∧
    active_nodes_ s' = active_nodes_ s.
Proof.
  intros Hn. exists (upd n (with_name newName nn) s).
  split; [|split; [reflexivity|split; [apply heap_upd_eq|split]]].
  - unfold Rename. step (modify_upd _ (with_name newName) _ _ Hn).
    step_by (apply deref_Done; apply heap_upd_eq).
    simpl parent_. rewrite bool_decide_eq_false_2 by (intros H; apply H; reflexivity).
    reflexivity.
  - intros b Hb. apply heap_upd_ne. congruence.
  - reflexivity.
Qed.

Lemma Rename_same_parent_witness :
  ∃ s', Rename 0 48 "IMG.JPG" 32 st_file = Done tt s' ∧
        heap s' !! 48 = Some (Node "IMG.JPG" 1 [] 32 [] [] false) ∧
        heap s' !! 32 = heap st_file !! 32.
Proof.
  destruct (Rename_same_parent 0 st_file 48 (Node "img.jpg" 1 [] 32 [] [] false) "IMG.JPG")
    as (s' & H & _ & Hn & Ho & _).
  - vm_compute. reflexivity.
  - exists s'. split; [exact H|]. split; [exact Hn|]. apply Ho. discriminate.
Defined.

(** ** The children list *)

Lemma erase_first_Some x l : ∀ l',
  erase_first x l = Some l' →
  x ∈ l ∧ length l = S (length l') ∧ (∀ y, y ∈ l' → y ∈ l) ∧
  (∀ y, y ∈ l → y ≠ x → y ∈ l') ∧
  (NoDup l → NoDup l' ∧ x ∉ l').
Proof.
  induction l as [|y l IH]; intros l' H; simpl in H; [discriminate|].
  case_bool_decide as E.
  - injection H as <-. subst y. split; [apply list_elem_of_here|].
    split; [reflexivity|]. split; [intros z Hz; apply list_elem_of_further; exact Hz|].
    split.
    + intros z Hz Hne. apply elem_of_cons in Hz as [Hz|Hz]; [congruence | exact Hz].
    + intros Hnd. apply NoDup_cons in Hnd as [H1 H2]. split; assumption.
  - destruct (erase_first x l) as [r|] eqn:Er; [|discriminate].
    injection H as <-. destruct (IH r eq_refl) as (I1 & I2 & I3 & I4 & I5).
    split; [apply list_elem_of_further; exact I1|].
    split; [simpl; rewrite I2; reflexivity|].
    split.
    { intros z Hz. apply elem_of_cons in Hz as [->|Hz].
      - apply list_elem_of_here.
      - apply list_elem_of_further, I3, Hz. }
    split.
    { intros z Hz Hne. apply elem_of_cons in Hz as [->|Hz].
      - apply list_elem_of_here.
      - apply list_elem_of_further, I4; assumption. }
    intros Hnd. apply NoDup_cons in Hnd as [H1 H2].
    destruct (I5 H2) as [J1 J2]. split.
    + apply NoDup_cons. split; [|exact J1]. intros Hy. apply H1, I3, Hy.
    + intros Hx. apply elem_of_cons in Hx as [Hx|Hx]; [congruence | exact (J2 Hx)].
Qed.

Lemma erase_first_elem x l : x ∈ l → is_Some (erase_first x l).
Proof.
  induction l as [|y l IH]; intros H; [inversion H|]. simpl.
  case_bool_decide as E; [eexists; reflexivity|].
  apply elem_of_cons in H as [H|H]; [congruence|].
  destruct (IH H) as [r ->]. eexists. reflexivity.
Qed.

Lemma erase_first_None x l : erase_first x l = None → x ∉ l.
Proof.
  intros H Hin. destruct (erase_first_elem x l Hin) as [r Hr]. congruence.
Qed.

(** ** The tree and tracker invariant *)

Lemma occurrences_NoDup a l : NoDup l → a ∈ l → occurrences a l = 1%nat.
Proof.
  unfold occurrences. induction l as [|y l IH]; intros Hnd Hin; [inversion Hin|].
  apply NoDup_cons in Hnd as [H1 H2]. rewrite filter_cons.
  destruct (decide (y = a)) as [->|Hne].
  - simpl. f_equal. apply length_zero_iff_nil.
    apply elem_of_nil_inv. intros z Hz. apply list_elem_of_filter in Hz as [-> Hz].
    contradiction.
  - apply elem_of_cons in Hin as [Hin|Hin]; [congruence|]. apply IH; assumption.
Qed.

Lemma Inv_tree_inv s : Inv s → tree_inv s.
Proof.
  intros I. split.
  - intros a n c Ha Hc. destruct (inv_children _ _ I a n c Ha Hc) as [_ H]. exact H.
  - intros a n Ha Hp.
    destruct (inv_parent _ _ I a n Ha (not_elem_of_empty a) Hp) as (pn & H1 & H2).
    exists pn. split; [exact H1|]. apply occurrences_NoDup; [|exact H2].
    eapply inv_nodup; eassumption.
  - intros a. rewrite <- (inv_tracked _ _ I). apply elem_of_dom.
Qed.

Lemma Inv_empty : Inv empty_state.
Proof.
  split; simpl; try (intros a n; rewrite lookup_empty; discriminate).
  apply dom_empty_L.
Qed.

(** *** How the invariant moves with the store *)

Lemma same_dom_lookup (s s' : state) a n :
  dom (heap s') = dom (heap s) → heap s !! a = Some n → is_Some (heap s' !! a).
Proof.
  intros Hd Ha. apply elem_of_dom. rewrite Hd. apply elem_of_dom. eexists. exact Ha.
Qed.

Lemma dom_upd a n n' s :
  heap s !! a = Some n → dom (heap (upd a n' s)) = dom (heap s).
Proof. intros H. simpl. apply dom_insert_lookup_L. eexists. exact H. Qed.

(** Writes that leave every parent pointer and children list alone. *)
Lemma Inv_x_same_links X s s' :
  Inv_x X s →
  dom (heap s') = dom (heap s) → active_nodes_ s' = active_nodes_ s →
  (∀ a n', heap s' !! a = Some n' →
     ∃ n, heap s !! a = Some n ∧ parent_ n' = parent_ n ∧
          children_ n' = children_ n ∧ is_uint32 (refcount_ n') ∧
          (refcount_ n' = 0 ∨ Z.of_nat (length (children_ n')) <= refcount_ n') ∧
          (refcount_ n' = 0 → a ∈ X)) →
  Inv_x X s'.
Proof.
  intros I Hd Hact Hp. split.
  - intros a n' Ha. destruct (Hp a n' Ha) as (n & Hn & _). eapply inv_ptr; eassumption.
  - rewrite Hd, Hact. eapply inv_tracked; eassumption.
  - intros a n' c Ha Hc. destruct (Hp a n' Ha) as (n & Hn & _ & Hch & _).
    rewrite Hch in Hc. destruct (inv_children _ _ I a n c Hn Hc) as (HX & cn & Hcn & Hpar).
    split; [exact HX|]. destruct (same_dom_lookup s s' c cn Hd Hcn) as [cn' Hcn'].
    exists cn'. split; [exact Hcn'|].
    destruct (Hp c cn' Hcn') as (cn0 & Hcn0 & Hpar0 & _). congruence.
  - intros a n' Ha HX Hpar. destruct (Hp a n' Ha) as (n & Hn & Hpe & _).
    rewrite Hpe in *. destruct (inv_parent _ _ I a n Hn HX Hpar) as (pn & Hpn & Hin).
    destruct (same_dom_lookup s s' _ pn Hd Hpn) as [pn' Hpn'].
    exists pn'. split; [exact Hpn'|].
    destruct (Hp _ pn' Hpn') as (pn0 & Hpn0 & _ & Hch & _). congruence.
  - intros a n' Ha. destruct (Hp a n' Ha) as (n & Hn & _ & Hch & _).
    rewrite Hch. eapply inv_nodup; eassumption.
  - intros a n' Ha. destruct (Hp a n' Ha) as (n & Hn & _ & _ & H1 & H2 & _).
    split; assumption.
  - intros a n' Ha Hz. destruct (Hp a n' Ha) as (n & Hn & _ & _ & _ & _ & H). auto.
Qed.

(** [RemoveFromParent] up to the call of [Release]: [q] is erased from
    its parent's list and joins the exempt nodes; its refcount is as it
    was, or 0 when the node is being destroyed. *)
Lemma Inv_x_detach X s s2 q qn :
  Inv_x X s → q ∉ X → heap s !! q = Some qn → parent_ qn ≠ nullptr →
  dom (heap s2) = dom (heap s) → active_nodes_ s2 = active_nodes_ s →
  (∀ a n2, heap s2 !! a = Some n2 →
     ∃ n, heap s !! a = Some n ∧ parent_ n2 = parent_ n ∧
          (a = parent_ qn → erase_first q (children_ n) = Some (children_ n2)) ∧
          (a ≠ parent_ qn → children_ n2 = children_ n) ∧
          (a ≠ q → refcount_ n2 = refcount_ n) ∧
          (a = q → refcount_ n2 = 0 ∨ refcount_ n2 = refcount_ n)) →
  Inv_x (X ∪ {[q]}) s2.
Proof.
  intros I HqX Hq Hqp Hd Hact Hp.
  assert (Hsub : ∀ a n2 n c, heap s2 !! a = Some n2 → heap s !! a = Some n →
                   c ∈ children_ n2 → c ∈ children_ n).
  { intros a n2 n c Ha Hn Hc. destruct (Hp a n2 Ha) as (n0 & Hn0 & _ & E1 & E2 & _).
    assert (n0 = n) by congruence. subst n0.
    destruct (decide (a = parent_ qn)) as [E|E].
    - apply (erase_first_Some _ _ _ (E1 E)). exact Hc.
    - rewrite (E2 E) in Hc. exact Hc. }
  split.
  - intros a n2 Ha. destruct (Hp a n2 Ha) as (n & Hn & _). eapply inv_ptr; eassumption.
  - rewrite Hd, Hact. eapply inv_tracked; eassumption.
  - intros a n2 c Ha Hc. destruct (Hp a n2 Ha) as (n & Hn & _ & E1 & _).
    pose proof (Hsub a n2 n c Ha Hn Hc) as Hc'.
    destruct (inv_children _ _ I a n c Hn Hc') as (HX & cn & Hcn & Hpar).
    split.
    + intros Hin. apply elem_of_union in Hin as [Hin|Hin]; [contradiction|].
      apply elem_of_singleton in Hin. subst c.
      assert (cn = qn) by congruence. subst cn.
      destruct (erase_first_Some _ _ _ (E1 (eq_sym Hpar))) as (_ & _ & _ & _ & H5).
      destruct (H5 (inv_nodup _ _ I a n Hn)) as [_ H6]. contradiction.
    + destruct (same_dom_lookup s s2 c cn Hd Hcn) as [cn' Hcn'].
      exists cn'. split; [exact Hcn'|].
      destruct (Hp c cn' Hcn') as (cn0 & Hcn0 & Hpar0 & _). congruence.
  - intros a n2 Ha HX Hpar. apply not_elem_of_union in HX as [HX Haq].
    apply not_elem_of_singleton in Haq.
    destruct (Hp a n2 Ha) as (n & Hn & Hpe & _). rewrite Hpe in *.
    destruct (inv_parent _ _ I a n Hn HX Hpar) as (pn & Hpn & Hin).
    destruct (same_dom_lookup s s2 _ pn Hd Hpn) as [pn' Hpn'].
    exists pn'. split; [exact Hpn'|].
    destruct (Hp _ pn' Hpn') as (pn0 & Hpn0 & _ & E1 & E2 & _).
    assert (pn0 = pn) by congruence. subst pn0.
    destruct (decide (parent_ n = parent_ qn)) as [E|E].
    + apply (erase_first_Some _ _ _ (E1 E)); assumption.
    + rewrite (E2 E). exact Hin.
  - intros a n2 Ha. destruct (Hp a n2 Ha) as (n & Hn & _ & E1 & E2 & _).
    pose proof (inv_nodup _ _ I a n Hn) as Hnd.
    destruct (decide (a = parent_ qn)) as [E|E].
    + apply (erase_first_Some _ _ _ (E1 E)). exact Hnd.
    + rewrite (E2 E). exact Hnd.
  - intros a n2 Ha. destruct (Hp a n2 Ha) as (n & Hn & _ & E1 & E2 & R1 & R2).
    destruct (inv_count _ _ I a n Hn) as [U C].
    assert (Hlen : (length (children_ n2) <= length (children_ n))%nat).
    { destruct (decide (a = parent_ qn)) as [E|E].
      - destruct (erase_first_Some _ _ _ (E1 E)) as (_ & L & _). lia.
      - rewrite (E2 E). lia. }
    destruct (decide (a = q)) as [E|E].
    + destruct (R2 E) as [R|R]; rewrite R; [|split; [exact U|lia]].
      split; [unfold is_uint32; lia | left; reflexivity].
    + rewrite (R1 E). split; [exact U|lia].
  - intros a n2 Ha Hz. destruct (Hp a n2 Ha) as (n & Hn & _ & _ & _ & R1 & _).
    destruct (decide (a = q)) as [E|E].
    + apply elem_of_union_r, elem_of_singleton, E.
    + apply elem_of_union_l. eapply inv_zero; [eassumption..|]. rewrite <- (R1 E). exact Hz.
Qed.

(** The end of the destructor: a node without children that no list
    holds leaves the store and the tracker. *)
Lemma Inv_x_delete X s q qn :
  Inv_x (X ∪ {[q]}) s → heap s !! q = Some qn → children_ qn = [] →
  Inv_x X (State (delete q (heap s)) (active_nodes_ s ∖ {[q]})).
Proof.
  intros I Hq Hch. split; simpl.
  - intros a n Ha. apply lookup_delete_Some in Ha as [_ Ha]. eapply inv_ptr; eassumption.
  - rewrite dom_delete_L. f_equal. eapply inv_tracked; eassumption.
  - intros a n c Ha Hc. apply lookup_delete_Some in Ha as [Haq Ha].
    destruct (inv_children _ _ I a n c Ha Hc) as (HX & cn & Hcn & Hpar).
    apply not_elem_of_union in HX as [HX Hcq]. apply not_elem_of_singleton in Hcq.
    split; [exact HX|]. exists cn. split; [|exact Hpar].
    rewrite lookup_delete_ne by congruence. exact Hcn.
  - intros a n Ha HX Hpar. apply lookup_delete_Some in Ha as [Haq Ha].
    assert (HX' : a ∉ X ∪ {[q]}).
    { intros Hin. apply elem_of_union in Hin as [Hin|Hin]; [contradiction|].
      apply elem_of_singleton in Hin. congruence. }
    destruct (inv_parent _ _ I a n Ha HX' Hpar) as (pn & Hpn & Hin).
    exists pn. split; [|exact Hin].
    rewrite lookup_delete_ne; [exact Hpn|].
    intros E. rewrite <- E, Hq in Hpn. injection Hpn as <-.
    rewrite Hch in Hin. inversion Hin.
  - intros a n Ha. apply lookup_delete_Some in Ha as [_ Ha]. eapply inv_nodup; eassumption.
  - intros a n Ha. apply lookup_delete_Some in Ha as [_ Ha]. eapply inv_count; eassumption.
  - intros a n Ha Hz. apply lookup_delete_Some in Ha as [Haq Ha].
    pose proof (inv_zero _ _ I a n Ha Hz) as Hin.
    apply elem_of_union in Hin as [Hin|Hin]; [exact Hin|].
    apply elem_of_singleton in Hin. congruence.
Qed.

(** A node without parent is in no list, so it may be exempted. *)
Lemma Inv_x_exempt_root X s q qn :
  Inv_x X s → heap s !! q = Some qn → parent_ qn = nullptr → Inv_x (X ∪ {[q]}) s.
Proof.
  intros I Hq Hp. split.
  - eapply inv_ptr; eassumption.
  - eapply inv_tracked; eassumption.
  - intros a n c Ha Hc. destruct (inv_children _ _ I a n c Ha Hc) as (HX & cn & Hcn & Hpar).
    split; [|exists cn; split; assumption].
    intros Hin. apply elem_of_union in Hin as [Hin|Hin]; [contradiction|].
    apply elem_of_singleton in Hin. subst c.
    assert (cn = qn) by congruence. subst cn.
    pose proof (inv_ptr _ _ I a n Ha) as Hv. unfold valid_ptr, nullptr in *. lia.
  - intros a n Ha HX Hpar. apply (inv_parent _ _ I a n Ha); [|exact Hpar].
    intros Hin. apply HX, elem_of_union_l, Hin.
  - eapply inv_nodup; eassumption.
  - eapply inv_count; eassumption.
  - intros a n Ha Hz. apply elem_of_union_l. eapply inv_zero; eassumption.
Qed.

(** ** Release and the cascade of destructors *)

Lemma bind_failed {A B} (m : M A) (k : A → M B) s :
  failed (m s) → failed ((m ≫= k) s).
Proof. unfold mbind, M_bind, bind. destruct (m s); simpl; tauto. Qed.

Lemma RemoveFromParent_with_root release q qn s :
  heap s !! q = Some qn → parent_ qn = nullptr →
  RemoveFromParent_with release q s = Done tt s.
Proof.
  intros Hq Hp. unfold RemoveFromParent_with. step (deref_Done _ _ _ Hq).
  rewrite bool_decide_eq_false_2 by (intros H; apply H; exact Hp). reflexivity.
Qed.

Lemma RemoveFromParent_with_step release q qn pn l s :
  heap s !! q = Some qn → parent_ qn ≠ nullptr →
  heap s !! parent_ qn = Some pn → erase_first q (children_ pn) = Some l →
  RemoveFromParent_with release q s =
    (release (parent_ qn) 1 ≫= λ _, modify q (with_parent nullptr))
      (upd (parent_ qn) (with_children l pn) s).
Proof.
  intros Hq Hp Hpn Hl. unfold RemoveFromParent_with. step (deref_Done _ _ _ Hq).
  rewrite bool_decide_eq_true_2 by exact Hp.
  step (deref_Done _ _ _ Hpn). rewrite Hl.
  step (store_Done (parent_ qn) (with_children l pn) s). reflexivity.
Qed.

Lemma RemoveFromParent_with_unlisted release q qn s :
  heap s !! q = Some qn → parent_ qn ≠ nullptr →
  (∀ pn, heap s !! parent_ qn = Some pn → q ∉ children_ pn) →
  failed (RemoveFromParent_with release q s).
Proof.
  intros Hq Hp Hun. unfold RemoveFromParent_with. step (deref_Done _ _ _ Hq).
  rewrite bool_decide_eq_true_2 by exact Hp.
  destruct (heap s !! parent_ qn) as [pn|] eqn:Hpn.
  - step (deref_Done _ _ _ Hpn).
    destruct (erase_first q (children_ pn)) as [l|] eqn:Hl; [|exact I].
    apply erase_first_Some in Hl as [Hl _]. destruct (Hun pn eq_refl Hl).
  - apply bind_failed. unfold deref. rewrite Hpn. exact I.
Qed.

Lemma delete_node_after release q qn4 s1 s4 :
  RemoveFromParent_with release q s1 = Done tt s4 →
  heap s4 !! q = Some qn4 → q ∈ active_nodes_ s4 →
  delete_node release q s1 =
    Done tt (State (delete q (heap s4)) (active_nodes_ s4 ∖ {[q]})).
Proof.
  intros HR Hq Hact.
  assert (HD : node_dtor release q s1 =
                 Done tt (State (heap (upd q (with_dirhandles [] (with_handles [] qn4))
                                         (upd q (with_handles [] qn4) s4)))
                            (active_nodes_ s4 ∖ {[q]}))).
  { unfold node_dtor. step HR. step (modify_upd _ (with_handles []) _ _ Hq).
    step_by (apply modify_upd; apply heap_upd_eq).
    rewrite NodeDeleted_Done by exact Hact. reflexivity. }
  unfold delete_node. step HD.
  unfold free, upd. simpl. rewrite !delete_insert_eq. reflexivity.
Qed.

Lemma delete_node_failed release q s1 :
  failed (RemoveFromParent_with release q s1) → failed (delete_node release q s1).
Proof.
  intros H. unfold delete_node, node_dtor. apply bind_failed, bind_failed. exact H.
Qed.

Section delete_node.
Variable release : Z → Z → M bool.
Variable f : nat.
Hypothesis release_ok : ∀ X s q qn,
  Inv_x X s → heap s !! q = Some qn →
  (size (dom (heap s) ∖ X) < f)%nat →
  release_spec X s q qn 1 (release q 1 s).

(** The destructor and [delete] of a node whose refcount has just been
    set to 0, given that the [Release] it calls meets its
    specification on smaller stores. *)
Lemma delete_node_spec X s0 q qn :
  Inv_x X s0 → heap s0 !! q = Some qn → refcount_ qn ≠ 0 →
  (size (dom (heap s0) ∖ X) <= f)%nat →
  delete_spec X s0 q qn
    (delete_node release q (upd q (with_refcount 0 qn) s0)).
Proof.
  intros I Hq Hrc Hsz.
  set (qn1 := with_refcount 0 qn). set (s1 := upd q qn1 s0).
  assert (Hq1 : heap s1 !! q = Some qn1) by apply heap_upd_eq.
  assert (Hqact : q ∈ active_nodes_ s0).
  { rewrite <- (inv_tracked _ _ I). apply elem_of_dom. eexists. exact Hq. }
  destruct (decide (parent_ qn = nullptr)) as [Hp0|Hp0].
  - (* no parent: nothing to release *)
    left. eexists. split.
    { apply (delete_node_after release q qn1 s1 s1); [|exact Hq1|exact Hqact].
      apply (RemoveFromParent_with_root release q qn1); [exact Hq1|exact Hp0]. }
    simpl. rewrite delete_insert_eq.
    split; [apply lookup_delete_eq|].
    split; [rewrite elem_of_difference, elem_of_singleton; tauto|].
    split.
    { intros a n' Ha. simpl in Ha. apply lookup_delete_Some in Ha as [_ Ha].
      exists n'. split; [exact Ha|]. split; [tauto|]. split; [reflexivity|]. lia. }
    split.
    { intros x xn Hx Hxn Hxp. simpl. exists xn.
      rewrite lookup_delete_ne; [exact Hxn|]. intros ->. congruence. }
    split.
    { intros a an gn Ha Hdead _ Hg _. simpl in Hdead.
      apply lookup_delete_None in Hdead as [->|Hdead]; [|congruence].
      assert (an = qn) by congruence. subst an.
      rewrite Hp0 in Hg. apply (inv_ptr _ _ I) in Hg.
      unfold valid_ptr, nullptr in Hg. lia. }
    split.
    { intros Hch.
      assert (I1 : Inv_x (X ∪ {[q]}) s1).
      { apply (Inv_x_same_links _ s0).
        - eapply Inv_x_exempt_root; eassumption.
        - eapply dom_upd; exact Hq.
        - reflexivity.
        - intros a n' Ha. destruct (decide (a = q)) as [->|Hne].
          + rewrite Hq1 in Ha. injection Ha as <-. exists qn.
            split; [exact Hq|]. split; [reflexivity|]. split; [reflexivity|].
            split; [split; [reflexivity | reflexivity]|].
            split; [left; reflexivity|].
            intros _. apply elem_of_union_r, elem_of_singleton. reflexivity.
          + unfold s1 in Ha. rewrite heap_upd_ne in Ha by congruence.
            exists n'. split; [exact Ha|].
            destruct (inv_count _ _ I a n' Ha) as [U C].
            split; [reflexivity|]. split; [reflexivity|].
            split; [exact U|]. split; [exact C|].
            intros Hz. apply elem_of_union_l. eapply inv_zero; eassumption. }
      pose proof (Inv_x_delete X s1 q qn1 I1 Hq1 Hch) as I2.
      simpl in I2. rewrite delete_insert_eq in I2. exact I2. }
    { intros pn l Hpn. rewrite Hp0 in Hpn. apply (inv_ptr _ _ I) in Hpn.
      unfold valid_ptr, nullptr in Hpn. lia. }
  - destruct (decide (q ∈ X)) as [HqX|HqX].
    + (* exempt, with references: the parent does not list it *)
      right. split; [|exists q, qn; auto].
      apply delete_node_failed.
      apply (RemoveFromParent_with_unlisted release q qn1); [exact Hq1|exact Hp0|].
      intros pn1 Hpn1 Hin. change (parent_ qn1) with (parent_ qn) in Hpn1.
      destruct (decide (parent_ qn = q)) as [E|E].
      * rewrite E, Hq1 in Hpn1. injection Hpn1 as <-. simpl in Hin.
        destruct (inv_children _ _ I q qn q Hq Hin) as [H _]. contradiction.
      * unfold s1 in Hpn1. rewrite heap_upd_ne in Hpn1 by congruence.
        destruct (inv_children _ _ I _ pn1 q Hpn1 Hin) as [H _]. contradiction.
    + (* listed by a live parent: erase, release the parent, finish *)
      destruct (inv_parent _ _ I q qn Hq HqX Hp0) as (pn & Hpn & Hin).
      set (p := parent_ qn) in *.
      assert (Hpn1 : ∃ pn1, heap s1 !! p = Some pn1 ∧
                children_ pn1 = children_ pn ∧ parent_ pn1 = parent_ pn ∧
                (p ≠ q → pn1 = pn) ∧ (p = q → refcount_ pn1 = 0)).
      { destruct (decide (p = q)) as [E|E].
        - exists qn1. rewrite E. split; [exact Hq1|].
          assert (pn = qn) by congruence. subst pn. simpl.
          repeat split; auto; congruence.
        - exists pn. unfold s1. rewrite heap_upd_ne by congruence.
          repeat split; auto; congruence. }
      destruct Hpn1 as (pn1 & Hpn1 & Hch1 & Hpar1 & Hne1 & Heq1).
      destruct (erase_first_elem q (children_ pn1)) as [l Hl].
      { rewrite Hch1. exact Hin. }
      set (pn2 := with_children l pn1). set (s2 := upd p pn2 s1).
      assert (HR : RemoveFromParent_with release q s1 =
                (release p 1 ≫= λ _, modify q (with_parent nullptr)) s2).
      { apply (RemoveFromParent_with_step release q qn1 pn1 l s1); assumption. }
      assert (F : ∀ a n2, heap s2 !! a = Some n2 →
                ∃ n, heap s0 !! a = Some n ∧ parent_ n2 = parent_ n ∧
                     (a = p → erase_first q (children_ n) = Some (children_ n2)) ∧
                     (a ≠ p → children_ n2 = children_ n) ∧
                     (a ≠ q → refcount_ n2 = refcount_ n) ∧
                     (a = q → refcount_ n2 = 0)).
      { intros a n2 Ha. destruct (decide (a = p)) as [->|Hap].
        - unfold s2 in Ha. rewrite heap_upd_eq in Ha. injection Ha as <-.
          exists pn. split; [exact Hpn|]. simpl. split; [exact Hpar1|].
          split; [intros _; rewrite <- Hch1; exact Hl|].
          split; [congruence|].
          split; [intros Hne; rewrite (Hne1 Hne); reflexivity | exact Heq1].
        - unfold s2 in Ha. rewrite heap_upd_ne in Ha by congruence.
          destruct (decide (a = q)) as [->|Haq].
          + rewrite Hq1 in Ha. injection Ha as <-. exists qn.
            split; [exact Hq|]. simpl. repeat split; congruence.
          + unfold s1 in Ha. rewrite heap_upd_ne in Ha by congruence.
            exists n2. repeat split; auto; congruence. }
      assert (Hd2 : dom (heap s2) = dom (heap s0)).
      { unfold s2. rewrite (dom_upd _ _ _ _ Hpn1). unfold s1.
        apply (dom_upd _ _ _ _ Hq). }
      assert (I2 : Inv_x (X ∪ {[q]}) s2).
      { apply (Inv_x_detach X s0 s2 q qn I HqX Hq Hp0 Hd2 eq_refl).
        intros a n2 Ha. destruct (F a n2 Ha) as (n & Hn & P1 & P2 & P3 & P4 & P5).
        exists n. repeat split; auto. }
      assert (Hsz2 : (size (dom (heap s2) ∖ (X ∪ {[q]})) < f)%nat).
      { rewrite Hd2. eapply Nat.lt_le_trans; [|exact Hsz]. apply subset_size.
        assert (Hqd : q ∈ dom (heap s0)) by (apply elem_of_dom; eexists; exact Hq).
        split.
        - intros z Hz. apply elem_of_difference in Hz as [Z1 Z2].
          apply elem_of_difference. split; [exact Z1|].
          intros Z3. apply Z2, elem_of_union_l, Z3.
        - intros Hsub.
          assert (Hq' : q ∈ dom (heap s0) ∖ (X ∪ {[q]})).
          { apply Hsub, elem_of_difference. split; assumption. }
          apply elem_of_difference in Hq' as [_ Hq'].
          apply Hq', elem_of_union_r, elem_of_singleton. reflexivity. }
      assert (Hp2 : heap s2 !! p = Some pn2) by apply heap_upd_eq.
      destruct (same_dom_lookup s0 s2 q qn Hd2 Hq) as [qn2 Hq2].
      destruct (F q qn2 Hq2) as (n & Hn & Q1 & Q2 & Q3 & _ & Q5).
      assert (n = qn) by congruence. subst n.
      assert (Hqsub : ∀ c, c ∈ children_ qn2 → c ∈ children_ qn).
      { intros c Hc. destruct (decide (q = p)) as [E|E].
        - apply (erase_first_Some _ _ _ (Q2 E)). exact Hc.
        - rewrite (Q3 E) in Hc. exact Hc. }
      destruct (release_ok (X ∪ {[q]}) s2 p pn2 I2 Hp2 Hsz2)
        as [(b & s3 & Ho & Hsh & Hsv & Hup & C1 & C2 & C3 & CI)|[Hf Hb]].
      * assert (Hdisc : disciplined pn2 1).
        { unfold disciplined. simpl.
          destruct (inv_count _ _ I p pn Hpn) as [U C].
          destruct (erase_first_Some _ _ _ Hl) as (_ & L & _). rewrite Hch1 in L.
          destruct (decide (p = q)) as [E|E].
          - left. rewrite (Heq1 E). lia.
          - rewrite (Hne1 E). destruct C as [C|C]; [left; lia | right; lia]. }
        pose proof (CI Hdisc) as I3.
        destruct (Hsv q qn2) as [qn3 Hq3].
        { apply elem_of_union_r, elem_of_singleton. reflexivity. }
        { exact Hq2. }
        { rewrite Q1. exact Hp0. }
        assert (HR4 : RemoveFromParent_with release q s1 =
                  Done tt (upd q (with_parent nullptr qn3) s3)).
        { rewrite HR. step Ho. apply modify_upd. exact Hq3. }
        assert (Hact3 : q ∈ active_nodes_ s3).
        { rewrite <- (inv_tracked _ _ I3). apply elem_of_dom. eexists. exact Hq3. }
        left. eexists. split.
        { apply (delete_node_after release q (with_parent nullptr qn3) s1 _ HR4);
            [apply heap_upd_eq | exact Hact3]. }
        simpl. rewrite delete_insert_eq.
        split; [apply lookup_delete_eq|].
        split; [rewrite elem_of_difference, elem_of_singleton; tauto|].
        split.
        { intros a n' Ha. simpl in Ha. apply lookup_delete_Some in Ha as [Haq Ha].
          destruct (Hsh a n' Ha) as (n2 & Hn2 & S1 & S2 & S3 & S4).
          destruct (F a n2 Hn2) as (n & Hn0 & P1 & P2 & P3 & P4 & P5).
          exists n. split; [exact Hn0|]. split.
          { intros c Hc. apply S1 in Hc. destruct (decide (a = p)) as [E|E].
            - apply (erase_first_Some _ _ _ (P2 E)). exact Hc.
            - rewrite (P3 E) in Hc. exact Hc. }
          assert (Haq' : a ≠ q) by congruence.
          split; [congruence|]. rewrite <- (P4 Haq'). split; assumption. }
        split.
        { intros x xn Hx Hxn Hxp. assert (x ≠ q) by (intros ->; contradiction).
          destruct (same_dom_lookup s0 s2 x xn Hd2 Hxn) as [xn2 Hxn2].
          destruct (F x xn2 Hxn2) as (n & Hn0 & P1 & _).
          assert (n = xn) by congruence. subst n.
          destruct (Hsv x xn2) as [xn3 Hxn3];
            [apply elem_of_union_l; exact Hx | exact Hxn2 | congruence |].
          exists xn3. simpl. rewrite lookup_delete_ne by congruence. exact Hxn3. }
        split.
        { intros a an gn Ha Hdead HaX Hg Hg1. simpl in Hdead |- *.
          assert (Hmono : ∀ g, heap s3 !! g = None ∧ (g ∉ active_nodes_ s3) →
                    delete q (heap s3) !! g = None ∧
                    (g ∉ active_nodes_ s3 ∖ {[q]})).
          { intros g [G1 G2]. split.
            - apply lookup_delete_None. right. exact G1.
            - rewrite elem_of_difference. tauto. }
          assert (Hself : delete q (heap s3) !! q = None ∧
                    (q ∉ active_nodes_ s3 ∖ {[q]})).
          { split; [apply lookup_delete_eq|].
            rewrite elem_of_difference, elem_of_singleton. tauto. }
          destruct (decide (parent_ an = q)) as [Eg|Eg]; [rewrite Eg; exact Hself|].
          apply Hmono.
          destruct (decide (a = q)) as [->|Haq].
          - assert (an = qn) by congruence. subst an. fold p in Hg, Eg |- *.
            assert (gn = pn) by congruence. subst gn.
            destruct C3 as (_ & Hnone & Hnact); [|split; assumption].
            unfold pn2. simpl. rewrite (Hne1 Eg). exact Hg1.
          - apply lookup_delete_None in Hdead as [Hdead|Hdead]; [congruence|].
            destruct (same_dom_lookup s0 s2 a an Hd2 Ha) as [an2 Han2].
            destruct (F a an2 Han2) as (n & Hn0 & P1 & _).
            assert (n = an) by congruence. subst n.
            destruct (same_dom_lookup s0 s2 _ gn Hd2 Hg) as [gn2 Hgn2].
            destruct (F _ gn2 Hgn2) as (n & Hn0' & _ & _ & _ & P4 & _).
            assert (n = gn) by congruence. subst n.
            rewrite <- P1. apply (Hup a an2 gn2 Han2 Hdead).
            + intros Hm. apply elem_of_union in Hm as [Hm|Hm]; [contradiction|].
              apply elem_of_singleton in Hm. contradiction.
            + rewrite P1. exact Hgn2.
            + rewrite (P4 Eg). exact Hg1. }
        split.
        { intros Hch. apply (Inv_x_delete X s3 q qn3 I3 Hq3).
          destruct (Hsh q qn3 Hq3) as (n2 & Hn2 & S1 & _).
          assert (n2 = qn2) by congruence. subst n2.
          destruct (children_ qn3) as [|c r] eqn:E; [reflexivity|]. exfalso.
          assert (Hc : c ∈ children_ qn) by (apply Hqsub, S1, list_elem_of_here).
          rewrite Hch in Hc. inversion Hc. }
        { intros pn' l' Hpn' Hgt Hpq Hl'. fold p in Hpn', Hpq |- *.
          assert (pn' = pn) by congruence. subst pn'.
          assert (Epn : pn1 = pn) by exact (Hne1 Hpq).
          assert (l' = l) by congruence. subst l'.
          destruct C2 as [_ ->]; [unfold pn2; simpl; rewrite Epn; exact Hgt|].
          simpl. rewrite lookup_delete_ne by congruence.
          rewrite lookup_insert_eq. unfold pn2. rewrite Epn. reflexivity. }
      * right. split.
        { apply delete_node_failed. rewrite HR. apply bind_failed. exact Hf. }
        destruct Hb as (x & xn2 & Hx & Hxn2 & Hxrc).
        destruct (F x xn2 Hxn2) as (n & Hn0 & P1 & P2 & P3 & P4 & P5).
        assert (Hxq : x ≠ q) by (intros E; apply Hxrc, P5, E).
        exists x, n. split.
        { apply elem_of_union in Hx as [Hx|Hx]; [exact Hx|].
          apply elem_of_singleton in Hx. contradiction. }
        split; [exact Hn0|]. rewrite <- (P4 Hxq). exact Hxrc.
Qed.
End delete_node.

Lemma shrinks_refl s : shrinks s s.
Proof.
  intros a n Ha. exists n. split; [exact Ha|]. split; [tauto|].
  split; [reflexivity|]. split; [lia | tauto].
Qed.

Lemma survive_refl X s : survive X s s.
Proof. intros x xn _ Hx _. eexists. exact Hx. Qed.

(** [Release] on any store that satisfies the invariant, with fuel above
    the number of live nodes that are not exempt: it completes, unless an
    exempt node still has references. *)
Lemma Release_cascade fuel : ∀ X s q qn c,
  Inv_x X s → heap s !! q = Some qn →
  0 <= c → (c = 0 → refcount_ qn ≠ 0) →
  (size (dom (heap s) ∖ X) < fuel)%nat →
  release_spec X s q qn c (Release fuel q c s).
Proof.
  induction fuel as [|f IH]; intros X s q qn c I Hq Hc Hc0 Hsz; [lia|].
  destruct (inv_count _ _ I q qn Hq) as [U C].
  rewrite Release_S. step (deref_Done _ _ _ Hq).
  destruct (decide (c <= refcount_ qn)) as [Hle|Hlt].
  - rewrite bool_decide_eq_true_2 by exact Hle.
    step (store_Done q (with_refcount (wrap32 (refcount_ qn - c)) qn) s).
    step_by (apply deref_Done; apply heap_upd_eq). simpl refcount_.
    rewrite wrap32_small by (unfold is_uint32 in *; lia).
    destruct (decide (refcount_ qn - c = 0)) as [Hz|Hnz].
    + rewrite bool_decide_eq_true_2 by exact Hz. rewrite Hz.
      assert (Hrc : refcount_ qn ≠ 0) by (intros E; apply Hc0; lia).
      assert (IH1 : ∀ X s q qn, Inv_x X s → heap s !! q = Some qn →
                 (size (dom (heap s) ∖ X) < f)%nat →
                 release_spec X s q qn 1 (Release f q 1 s)).
      { intros X' s' q' qn' I' Hq' Hsz'. apply IH; auto; lia. }
      destruct (delete_node_spec (Release f) f IH1 X s q qn I Hq Hrc)
        as [(s' & Ho & Hnone & Hnact & Hsh & Hsv & Hup & HI & _)|[Hf Hb]]; [lia| |].
      * left. exists true, s'. split; [step Ho; reflexivity|].
        split; [exact Hsh|]. split; [exact Hsv|]. split; [exact Hup|].
        split; [intros; lia|]. split; [intros; lia|].
        split; [intros _; auto|].
        intros [D|D]; [lia|]. apply HI. apply length_zero_iff_nil. lia.
      * right. split; [apply bind_failed; exact Hf | exact Hb].
    + rewrite bool_decide_eq_false_2 by exact Hnz.
      left. exists false, (upd q (with_refcount (refcount_ qn - c) qn) s).
      split; [reflexivity|]. split.
      { intros a n' Ha. destruct (decide (a = q)) as [->|Hne].
        - rewrite heap_upd_eq in Ha. injection Ha as <-. exists qn.
          split; [exact Hq|]. simpl. split; [tauto|]. split; [reflexivity|].
          split; [lia|]. intros E. lia.
        - rewrite heap_upd_ne in Ha by congruence. apply shrinks_refl. exact Ha. }
      split.
      { intros x xn _ Hx _. apply (same_dom_lookup s _ x xn); [|exact Hx].
        eapply dom_upd. exact Hq. }
      split.
      { intros a an gn Ha Hdead. exfalso.
        destruct (same_dom_lookup s (upd q (with_refcount (refcount_ qn - c) qn) s)
                    a an (dom_upd _ _ _ _ Hq) Ha) as [x Hx]. congruence. }
      split; [intros; lia|]. split; [intros _; split; reflexivity|].
      split; [intros; lia|].
      intros [D|D]; [lia|]. apply (Inv_x_same_links X s); [exact I| | |].
      { eapply dom_upd. exact Hq. }
      { reflexivity. }
      intros a n' Ha. destruct (decide (a = q)) as [->|Hne].
      * rewrite heap_upd_eq in Ha. injection Ha as <-. exists qn.
        split; [exact Hq|]. simpl. split; [reflexivity|]. split; [reflexivity|].
        split; [unfold is_uint32 in *; lia|]. split; [right; lia|]. intros E. lia.
      * rewrite heap_upd_ne in Ha by congruence. exists n'.
        split; [exact Ha|]. split; [reflexivity|]. split; [reflexivity|].
        destruct (inv_count _ _ I a n' Ha) as [U' C'].
        split; [exact U'|]. split; [exact C'|]. eapply inv_zero; eassumption.
  - rewrite bool_decide_eq_false_2 by exact Hlt.
    left. exists false, s. split; [reflexivity|].
    split; [apply shrinks_refl|]. split; [apply survive_refl|].
    split; [intros a an gn Ha Hdead; congruence|].
    split; [intros _; split; reflexivity|].
    split; [intros; lia|]. split; [intros; lia|]. intros _. exact I.
Qed.

(** *** The invariant under the public operations *)

Lemma Inv_x_upd_fields X s a n n' :
  Inv_x X s → heap s !! a = Some n →
  parent_ n' = parent_ n → children_ n' = children_ n →
  refcount_ n' = refcount_ n →
  Inv_x X (upd a n' s).
Proof.
  intros I Ha Hp Hc Hr. apply (Inv_x_same_links X s); [exact I| | |].
  - eapply dom_upd. exact Ha.
  - reflexivity.
  - intros b m' Hb. destruct (decide (b = a)) as [->|Hne].
    + rewrite heap_upd_eq in Hb. injection Hb as <-. exists n.
      split; [exact Ha|]. split; [exact Hp|]. split; [exact Hc|].
      rewrite Hc, Hr. destruct (inv_count _ _ I a n Ha) as [U C].
      split; [exact U|]. split; [exact C|]. eapply inv_zero; eassumption.
    + rewrite heap_upd_ne in Hb by congruence. exists m'.
      split; [exact Hb|]. split; [reflexivity|]. split; [reflexivity|].
      destruct (inv_count _ _ I b m' Hb) as [U C].
      split; [exact U|]. split; [exact C|]. eapply inv_zero; eassumption.
Qed.

Lemma Inv_x_acquire X s a n :
  Inv_x X s → heap s !! a = Some n → a ∉ X → refcount_ n < 2 ^ 32 - 1 →
  Inv_x X (upd a (with_refcount (wrap32 (refcount_ n + 1)) n) s).
Proof.
  intros I Ha HX Hr. destruct (inv_count _ _ I a n Ha) as [U C].
  assert (Hnz : refcount_ n ≠ 0).
  { intros E. apply HX. eapply inv_zero; eassumption. }
  rewrite wrap32_small by (unfold is_uint32 in *; lia).
  apply (Inv_x_same_links X s); [exact I| | |].
  - eapply dom_upd. exact Ha.
  - reflexivity.
  - intros b m' Hb. destruct (decide (b = a)) as [->|Hne].
    + rewrite heap_upd_eq in Hb. injection Hb as <-. exists n.
      split; [exact Ha|]. split; [reflexivity|]. split; [reflexivity|]. simpl.
      split; [unfold is_uint32 in *; lia|]. split; [right; lia|].
      intros E. unfold is_uint32 in U. lia.
    + rewrite heap_upd_ne in Hb by congruence. exists m'.
      split; [exact Hb|]. split; [reflexivity|]. split; [reflexivity|].
      destruct (inv_count _ _ I b m' Hb) as [U' C'].
      split; [exact U'|]. split; [exact C'|]. eapply inv_zero; eassumption.
Qed.

(** The constructor's first half: a new object, registered, refcount
    [r], no parent yet. *)
Lemma Inv_x_alloc X s a name r :
  Inv_x X s → valid_ptr a → heap s !! a = None → 1 <= r < 2 ^ 32 →
  Inv_x X (State (<[a := Node name r [] nullptr [] [] false]> (heap s))
             ({[a]} ∪ active_nodes_ s)).
Proof.
  intros I Hv Hf Hr. split; simpl.
  - intros b n Hb. apply lookup_insert_Some in Hb as [[<- _]|[_ Hb]]; [exact Hv|].
    eapply inv_ptr; eassumption.
  - rewrite dom_insert_L. f_equal. eapply inv_tracked; eassumption.
  - intros b n c Hb Hc. apply lookup_insert_Some in Hb as [[<- <-]|[Hne Hb]].
    + simpl in Hc. inversion Hc.
    + destruct (inv_children _ _ I b n c Hb Hc) as (HX & cn & Hcn & Hpar).
      split; [exact HX|]. exists cn. split; [|exact Hpar].
      rewrite lookup_insert_ne; [exact Hcn|]. congruence.
  - intros b n Hb HX Hpar. apply lookup_insert_Some in Hb as [[<- <-]|[Hne Hb]].
    + simpl in Hpar. contradiction.
    + destruct (inv_parent _ _ I b n Hb HX Hpar) as (pn & Hpn & Hin).
      exists pn. split; [|exact Hin]. rewrite lookup_insert_ne; [exact Hpn|]. congruence.
  - intros b n Hb. apply lookup_insert_Some in Hb as [[<- <-]|[Hne Hb]].
    + simpl. apply NoDup_nil_2.
    + eapply inv_nodup; eassumption.
  - intros b n Hb. apply lookup_insert_Some in Hb as [[<- <-]|[Hne Hb]].
    + simpl. split; [unfold is_uint32; lia | right; lia].
    + eapply inv_count; eassumption.
  - intros b n Hb Hz. apply lookup_insert_Some in Hb as [[<- <-]|[Hne Hb]].
    + simpl in Hz. lia.
    + eapply inv_zero; eassumption.
Qed.

(** [AddToParent]: [t], parentless, is appended to [p]'s list and takes a
    reference on [p]. *)
Lemma Inv_x_attach X s s' t tn p pn :
  Inv_x X s → t ∉ X → heap s !! t = Some tn → parent_ tn = nullptr →
  heap s !! p = Some pn → refcount_ pn ≠ 0 → refcount_ pn < 2 ^ 32 - 1 →
  dom (heap s') = dom (heap s) → active_nodes_ s' = active_nodes_ s →
  (∀ a n', heap s' !! a = Some n' →
     ∃ n, heap s !! a = Some n ∧
          (a = t → parent_ n' = p) ∧ (a ≠ t → parent_ n' = parent_ n) ∧
          (a = p → children_ n' = children_ n ++ [t] ∧
                   refcount_ n' = wrap32 (refcount_ n + 1)) ∧
          (a ≠ p → children_ n' = children_ n ∧ refcount_ n' = refcount_ n)) →
  Inv_x X s'.
Proof.
  intros I HtX Ht Htp Hpn Hpz Hpr Hd Hact Hp.
  assert (Hpv : p ≠ nullptr).
  { pose proof (inv_ptr _ _ I p pn Hpn) as V. unfold valid_ptr, nullptr in *. lia. }
  assert (Hnew : ∀ a n, heap s !! a = Some n → t ∉ children_ n).
  { intros a n Ha Hin. destruct (inv_children _ _ I a n t Ha Hin) as (_ & cn & Hcn & E).
    assert (cn = tn) by congruence. subst cn.
    pose proof (inv_ptr _ _ I a n Ha) as V. unfold valid_ptr, nullptr in *. lia. }
  split.
  - intros a n' Ha. destruct (Hp a n' Ha) as (n & Hn & _). eapply inv_ptr; eassumption.
  - rewrite Hd, Hact. eapply inv_tracked; eassumption.
  - intros a n' c Ha Hc. destruct (Hp a n' Ha) as (n & Hn & _ & _ & E1 & E2).
    destruct (decide (a = p)) as [->|Hap].
    + destruct (E1 eq_refl) as [Ech _]. rewrite Ech in Hc.
      apply elem_of_app in Hc as [Hc|Hc].
      * destruct (inv_children _ _ I p n c Hn Hc) as (HX & cn & Hcn & Hpar).
        split; [exact HX|].
        destruct (same_dom_lookup s s' c cn Hd Hcn) as [cn' Hcn'].
        exists cn'. split; [exact Hcn'|].
        destruct (Hp c cn' Hcn') as (cn0 & Hcn0 & F1 & F2 & _).
        assert (cn0 = cn) by congruence. subst cn0.
        destruct (decide (c = t)) as [->|Hct]; [apply F1; reflexivity|].
        rewrite (F2 Hct). exact Hpar.
      * apply list_elem_of_singleton in Hc. subst c. split; [exact HtX|].
        destruct (same_dom_lookup s s' t tn Hd Ht) as [tn' Htn'].
        exists tn'. split; [exact Htn'|].
        destruct (Hp t tn' Htn') as (tn0 & _ & F1 & _). apply F1. reflexivity.
    + destruct (E2 Hap) as [Ech _]. rewrite Ech in Hc.
      destruct (inv_children _ _ I a n c Hn Hc) as (HX & cn & Hcn & Hpar).
      split; [exact HX|].
      destruct (same_dom_lookup s s' c cn Hd Hcn) as [cn' Hcn'].
      exists cn'. split; [exact Hcn'|].
      destruct (Hp c cn' Hcn') as (cn0 & Hcn0 & F1 & F2 & _).
      assert (cn0 = cn) by congruence. subst cn0.
      destruct (decide (c = t)) as [->|Hct].
      * exfalso. exact (Hnew a n Hn Hc).
      * rewrite (F2 Hct). exact Hpar.
  - intros a n' Ha HX Hpar. destruct (Hp a n' Ha) as (n & Hn & F1 & F2 & _).
    assert (Hlist : ∀ b bn c, heap s !! b = Some bn → c ∈ children_ bn →
              ∃ bn', heap s' !! b = Some bn' ∧ c ∈ children_ bn').
    { intros b bn c Hb Hc. destruct (same_dom_lookup s s' b bn Hd Hb) as [bn' Hbn'].
      exists bn'. split; [exact Hbn'|].
      destruct (Hp b bn' Hbn') as (bn0 & Hbn0 & _ & _ & E1 & E2).
      assert (bn0 = bn) by congruence. subst bn0.
      destruct (decide (b = p)) as [E|E].
      - destruct (E1 E) as [-> _]. apply elem_of_app. left. exact Hc.
      - destruct (E2 E) as [-> _]. exact Hc. }
    destruct (decide (a = t)) as [->|Hat].
    + rewrite (F1 eq_refl).
      destruct (same_dom_lookup s s' p pn Hd Hpn) as [pn' Hpn'].
      exists pn'. split; [exact Hpn'|].
      destruct (Hp p pn' Hpn') as (pn0 & Hpn0 & _ & _ & E1 & _).
      destruct (E1 eq_refl) as [-> _]. apply elem_of_app. right.
      apply list_elem_of_singleton. reflexivity.
    + rewrite (F2 Hat) in *.
      destruct (inv_parent _ _ I a n Hn HX Hpar) as (qn & Hqn & Hin).
      apply (Hlist _ qn a Hqn Hin).
  - intros a n' Ha. destruct (Hp a n' Ha) as (n & Hn & _ & _ & E1 & E2).
    pose proof (inv_nodup _ _ I a n Hn) as Hnd.
    destruct (decide (a = p)) as [E|E].
    + destruct (E1 E) as [-> _]. apply NoDup_app. split; [exact Hnd|]. split.
      * intros c Hc Hc'. apply list_elem_of_singleton in Hc'. subst c.
        exact (Hnew a n Hn Hc).
      * apply NoDup_singleton.
    + destruct (E2 E) as [-> _]. exact Hnd.
  - intros a n' Ha. destruct (Hp a n' Ha) as (n & Hn & _ & _ & E1 & E2).
    destruct (inv_count _ _ I a n Hn) as [U C].
    destruct (decide (a = p)) as [E|E].
    + destruct (E1 E) as [-> ->]. subst a. assert (n = pn) by congruence. subst n.
      rewrite wrap32_small by (unfold is_uint32 in *; lia).
      rewrite length_app. simpl. unfold is_uint32 in *. split; [lia|]. right. lia.
    + destruct (E2 E) as [-> ->]. split; assumption.
  - intros a n' Ha Hz. destruct (Hp a n' Ha) as (n & Hn & _ & _ & E1 & E2).
    destruct (decide (a = p)) as [E|E].
    + destruct (E1 E) as [_ Er]. destruct (inv_count _ _ I a n Hn) as [U _].
      subst a. assert (n = pn) by congruence. subst n.
      rewrite wrap32_small in Er by (unfold is_uint32 in *; lia).
      unfold is_uint32 in U. lia.
    + destruct (E2 E) as [_ Er]. rewrite Er in Hz. eapply inv_zero; eassumption.
Qed.

(** The end of [RemoveFromParent] for a node that stays: its stale
    parent pointer is reset. *)
Lemma Inv_x_reset_parent X s q qn :
  Inv_x (X ∪ {[q]}) s → heap s !! q = Some qn → refcount_ qn ≠ 0 →
  Inv_x X (upd q (with_parent nullptr qn) s).
Proof.
  intros I Hq Hrc.
  assert (F : ∀ a n', heap (upd q (with_parent nullptr qn) s) !! a = Some n' →
            ∃ n, heap s !! a = Some n ∧ children_ n' = children_ n ∧
                 refcount_ n' = refcount_ n ∧ (a ≠ q → n' = n) ∧
                 (a = q → parent_ n' = nullptr)).
  { intros a n' Ha. destruct (decide (a = q)) as [->|Hne].
    - rewrite heap_upd_eq in Ha. injection Ha as <-. exists qn.
      split; [exact Hq|]. repeat split; try reflexivity. congruence.
    - rewrite heap_upd_ne in Ha by congruence. exists n'.
      split; [exact Ha|]. repeat split; try reflexivity. congruence. }
  assert (G : ∀ a n, heap s !! a = Some n →
            ∃ n', heap (upd q (with_parent nullptr qn) s) !! a = Some n' ∧
                  children_ n' = children_ n ∧ (a ≠ q → n' = n)).
  { intros a n Ha. destruct (decide (a = q)) as [->|Hne].
    - exists (with_parent nullptr qn). rewrite heap_upd_eq.
      assert (n = qn) by congruence. subst n. repeat split. congruence.
    - exists n. rewrite heap_upd_ne by congruence. repeat split. exact Ha. }
  split.
  - intros a n' Ha. destruct (F a n' Ha) as (n & Hn & _). eapply inv_ptr; eassumption.
  - rewrite (dom_upd q qn _ s Hq). simpl. eapply inv_tracked; eassumption.
  - intros a n' c Ha Hc. destruct (F a n' Ha) as (n & Hn & Ech & _).
    rewrite Ech in Hc. destruct (inv_children _ _ I a n c Hn Hc) as (HX & cn & Hcn & Hpar).
    apply not_elem_of_union in HX as [HX Hcq]. apply not_elem_of_singleton in Hcq.
    split; [exact HX|]. exists cn. split; [|exact Hpar].
    rewrite heap_upd_ne by congruence. exact Hcn.
  - intros a n' Ha HX Hpar. destruct (F a n' Ha) as (n & Hn & _ & _ & E1 & E2).
    destruct (decide (a = q)) as [E|E]; [destruct (Hpar (E2 E))|].
    rewrite (E1 E) in *.
    assert (HX' : a ∉ X ∪ {[q]}).
    { intros Hin. apply elem_of_union in Hin as [Hin|Hin]; [contradiction|].
      apply elem_of_singleton in Hin. contradiction. }
    destruct (inv_parent _ _ I a n Hn HX' Hpar) as (pn & Hpn & Hin).
    destruct (G _ pn Hpn) as (pn' & Hpn' & Ech & _).
    exists pn'. split; [exact Hpn'|]. rewrite Ech. exact Hin.
  - intros a n' Ha. destruct (F a n' Ha) as (n & Hn & Ech & _). rewrite Ech.
    eapply inv_nodup; eassumption.
  - intros a n' Ha. destruct (F a n' Ha) as (n & Hn & Ech & Er & _). rewrite Ech, Er.
    eapply inv_count; eassumption.
  - intros a n' Ha Hz. destruct (F a n' Ha) as (n & Hn & _ & Er & _).
    rewrite Er in Hz. pose proof (inv_zero _ _ I a n Hn Hz) as Hin.
    apply elem_of_union in Hin as [Hin|Hin]; [exact Hin|].
    apply elem_of_singleton in Hin. subst a.
    assert (n = qn) by congruence. subst n. contradiction.
Qed.

(** *** Reading a completed run backwards *)

Lemma check_Done_inv (P : Prop) `{Decision P} c s s' :
  check (bool_decide P) c s = Done tt s' → P ∧ s' = s.
Proof.
  unfold check. case_bool_decide as E; [|discriminate].
  unfold ret. intros [= <-]. split; [exact E | reflexivity].
Qed.

Lemma AddToParent_pointwise t p s s' :
  AddToParent t p s = Done tt s' →
  ∃ tn pn, heap s !! t = Some tn ∧ parent_ tn = nullptr ∧ p ≠ nullptr ∧
    heap s !! p = Some pn ∧
    dom (heap s') = dom (heap s) ∧ active_nodes_ s' = active_nodes_ s ∧
    (∀ a n', heap s' !! a = Some n' →
       ∃ n, heap s !! a = Some n ∧
            (a = t → parent_ n' = p) ∧ (a ≠ t → parent_ n' = parent_ n) ∧
            (a = p → children_ n' = children_ n ++ [t] ∧
                     refcount_ n' = wrap32 (refcount_ n + 1)) ∧
            (a ≠ p → children_ n' = children_ n ∧ refcount_ n' = refcount_ n) ∧
            name_ n' = name_ n ∧ deleted_ n' = deleted_ n ∧
            handles_ n' = handles_ n ∧ dirhandles_ n' = dirhandles_ n).
Proof.
  intros H. unfold AddToParent in H.
  apply bind_Done_inv in H as (tn & s1 & H1 & H).
  apply deref_Done_inv in H1 as [-> Ht].
  apply bind_Done_inv in H as ([] & s1 & H1 & H).
  apply check_Done_inv in H1 as [Hpar ->].
  apply bind_Done_inv in H as ([] & s1 & H1 & H).
  apply check_Done_inv in H1 as [Hp ->].
  apply bind_Done_inv in H as ([] & s5 & H1 & H).
  apply modify_Done_inv in H1 as (tn0 & Ht0 & ->).
  assert (tn0 = tn) by congruence. subst tn0.
  apply bind_Done_inv in H as ([] & s6 & H1 & H).
  apply modify_Done_inv in H1 as (pn5 & Hp5 & ->).
  unfold Acquire in H. apply modify_Done_inv in H as (pn6 & Hp6 & ->).
  simpl in Hp5, Hp6. rewrite lookup_insert_eq in Hp6. injection Hp6 as <-.
  assert (Hpn : ∃ pn, heap s !! p = Some pn ∧ children_ pn5 = children_ pn ∧
                      refcount_ pn5 = refcount_ pn ∧ name_ pn5 = name_ pn ∧
                      deleted_ pn5 = deleted_ pn ∧ handles_ pn5 = handles_ pn ∧
                      dirhandles_ pn5 = dirhandles_ pn ∧
                      (p = t → parent_ pn5 = p) ∧ (p ≠ t → pn5 = pn)).
  { destruct (decide (p = t)) as [->|Hne].
    - rewrite lookup_insert_eq in Hp5. injection Hp5 as <-. exists tn.
      split; [exact Ht|]. simpl. repeat split; try reflexivity. congruence.
    - rewrite lookup_insert_ne in Hp5 by congruence. exists pn5.
      split; [exact Hp5|]. repeat split; try reflexivity. congruence. }
  destruct Hpn as (pn & Hpn & Ech & Erc & Enm & Edl & Ehd & Edh & Ept & Epn).
  exists tn, pn. split; [exact Ht|]. split; [exact Hpar|]. split; [exact Hp|].
  split; [exact Hpn|]. split.
  { simpl. rewrite !dom_insert_L.
    assert (t ∈ dom (heap s)) by (apply elem_of_dom; eexists; exact Ht).
    assert (p ∈ dom (heap s)) by (apply elem_of_dom; eexists; exact Hpn).
    apply set_eq. intros x. rewrite !elem_of_union, !elem_of_singleton.
    split; [intros [->|[->|[->|Hx]]]; assumption | tauto]. }
  split; [reflexivity|].
  intros a n' Ha. simpl in Ha. rewrite insert_insert_eq in Ha.
  destruct (decide (a = p)) as [->|Hap].
  - rewrite lookup_insert_eq in Ha. injection Ha as <-. exists pn.
    split; [exact Hpn|]. simpl.
    split; [exact Ept|]. split; [intros Hne; rewrite (Epn Hne); reflexivity|].
    split; [intros _; rewrite Ech, Erc; split; reflexivity|].
    split; [congruence|]. repeat split; assumption.
  - rewrite lookup_insert_ne in Ha by congruence.
    destruct (decide (a = t)) as [->|Hat].
    + rewrite lookup_insert_eq in Ha. injection Ha as <-. exists tn.
      split; [exact Ht|]. simpl. repeat split; try reflexivity; congruence.
    + rewrite lookup_insert_ne in Ha by congruence. exists n'.
      split; [exact Ha|]. repeat split; try reflexivity; congruence.
Qed.

Lemma alloc_Done_inv a n s s' :
  alloc a n s = Done tt s' →
  valid_ptr a ∧ heap s !! a = None ∧
  s' = State (<[a := n]> (heap s)) (active_nodes_ s).
Proof.
  unfold alloc. case_bool_decide as E; [|discriminate].
  destruct E as [Hv Hf]. intros [= <-].
  split; [exact Hv|]. split; [exact Hf | reflexivity].
Qed.

Lemma NodeCreated_Done_inv a s s' :
  NodeCreated a s = Done tt s' →
  (a ∉ active_nodes_ s) ∧ s' = State (heap s) ({[a]} ∪ active_nodes_ s).
Proof.
  unfold NodeCreated, kEnableInodeTracking. case_bool_decide as E; [|discriminate].
  intros [= <-]. split; [exact E | reflexivity].
Qed.

Lemma node_ctor_Done_inv a p name s s1 :
  node_ctor a p name s = Done tt s1 →
  valid_ptr a ∧ heap s !! a = None ∧ (a ∉ active_nodes_ s) ∧
  ((p = nullptr ∧
    s1 = State (<[a := fresh_node name]> (heap s)) ({[a]} ∪ active_nodes_ s)) ∨
   (p ≠ nullptr ∧
    AddToParent a p (State (<[a := fresh_node name]> (heap s))
                       ({[a]} ∪ active_nodes_ s)) = Done tt s1)).
Proof.
  intros H. unfold node_ctor in H.
  apply bind_Done_inv in H as ([] & s2 & H1 & H).
  apply alloc_Done_inv in H1 as (Hv & Hf & ->).
  apply bind_Done_inv in H as ([] & s3 & H1 & H).
  apply NodeCreated_Done_inv in H1 as [Ht ->]. simpl in Ht.
  apply bind_Done_inv in H as ([] & s4 & H1 & H).
  unfold Acquire in H1. apply modify_Done_inv in H1 as (n0 & Hn0 & ->).
  simpl in Hn0. rewrite lookup_insert_eq in Hn0. injection Hn0 as <-.
  simpl in H. rewrite insert_insert_eq in H.
  change (with_refcount (wrap32 (0 + 1)) (Node name 0 [] nullptr [] [] false))
    with (fresh_node name) in H.
  split; [exact Hv|]. split; [exact Hf|]. split; [exact Ht|].
  case_bool_decide as Hp.
  - right. split; [exact Hp | exact H].
  - left. split; [destruct (decide (p = nullptr)); [assumption|contradiction]|].
    unfold ret in H. congruence.
Qed.

Lemma Inv_refcount_pos s a n :
  Inv s → heap s !! a = Some n → 1 <= refcount_ n < 2 ^ 32.
Proof.
  intros I Ha. destruct (inv_count _ _ I a n Ha) as [U _].
  assert (refcount_ n ≠ 0).
  { intros E. pose proof (inv_zero _ _ I a n Ha E) as Hin.
    exact (not_elem_of_empty a Hin). }
  unfold is_uint32 in U. lia.
Qed.

Lemma Inv_Create s a p name r s' :
  Inv s → (∀ pn, heap s !! p = Some pn → refcount_ pn < 2 ^ 32 - 1) →
  Create a p name s = Done r s' → Inv s'.
Proof.
  intros I Hov H. unfold Create in H.
  apply bind_Done_inv in H as ([] & s1 & H1 & H). unfold ret in H. injection H as _ <-.
  apply node_ctor_Done_inv in H1 as (Hv & Hf & Ht & [[Hp ->]|[Hp HA]]).
  - apply Inv_x_alloc; [exact I|exact Hv|exact Hf|lia].
  - set (s3 := State (<[a := fresh_node name]> (heap s)) ({[a]} ∪ active_nodes_ s)) in *.
    assert (I3 : Inv s3) by (apply Inv_x_alloc; [exact I|exact Hv|exact Hf|lia]).
    apply AddToParent_pointwise in HA
      as (tn & pn & Htn & Hpar & _ & Hpn & Hd & Hact & Hpw).
    apply (Inv_x_attach ∅ s3 s1 a tn p pn I3 (not_elem_of_empty a) Htn Hpar Hpn);
      [| |exact Hd|exact Hact|].
    + pose proof (Inv_refcount_pos s3 p pn I3 Hpn). lia.
    + destruct (decide (p = a)) as [->|Hne].
      * assert (pn = tn) by congruence. subst pn. unfold s3 in Htn. simpl in Htn.
        rewrite lookup_insert_eq in Htn. injection Htn as <-. simpl. lia.
      * unfold s3 in Hpn. simpl in Hpn. rewrite lookup_insert_ne in Hpn by congruence.
        apply (Hov pn Hpn).
    + intros b n' Hb. destruct (Hpw b n' Hb) as (n & Hn & P1 & P2 & P3 & P4 & _).
      exists n. repeat split; auto; try (apply P3; assumption); apply P4; assumption.
Qed.

Lemma Inv_CreateRoot s a path r s' :
  Inv s → CreateRoot a path s = Done r s' → Inv s'.
Proof.
  intros I H. unfold CreateRoot in H.
  apply bind_Done_inv in H as ([] & s1 & H1 & H).
  apply node_ctor_Done_inv in H1 as (Hv & Hf & Ht & [[_ ->]|[Hp _]]);
    [|exfalso; apply Hp; reflexivity].
  apply bind_Done_inv in H as ([] & s2 & H1 & H). unfold ret in H. injection H as _ <-.
  unfold Acquire in H1. apply modify_Done_inv in H1 as (n0 & Hn0 & ->).
  simpl in Hn0. rewrite lookup_insert_eq in Hn0. injection Hn0 as <-.
  simpl. rewrite insert_insert_eq.
  apply (Inv_x_alloc ∅ s a path 2 I Hv Hf). lia.
Qed.

Lemma Done_not_failed {A} (o : outcome A) a s : o = Done a s → failed o → False.
Proof. intros ->. simpl. tauto. Qed.

(** [RemoveFromParent] as [Rename] calls it, on a node that stays. *)
Lemma RemoveFromParent_Inv fuel s n m s4 :
  Inv s → heap s !! n = Some m → (size (dom (heap s)) < fuel)%nat →
  RemoveFromParent fuel n s = Done tt s4 →
  Inv s4 ∧
  (∃ m4, heap s4 !! n = Some m4 ∧ parent_ m4 = nullptr) ∧
  (∀ a r4, heap s4 !! a = Some r4 →
           ∃ r, heap s !! a = Some r ∧ refcount_ r4 <= refcount_ r).
Proof.
  intros I Hn Hsz H. unfold RemoveFromParent in H.
  destruct (decide (parent_ m = nullptr)) as [Hp0|Hp0].
  - rewrite (RemoveFromParent_with_root _ n m s Hn Hp0) in H. injection H as <-.
    split; [exact I|]. split; [exists m; split; assumption|].
    intros a r4 Ha. exists r4. split; [exact Ha | lia].
  - destruct (inv_parent _ _ I n m Hn (not_elem_of_empty n) Hp0) as (pn & Hpn & Hin).
    destruct (erase_first_elem n (children_ pn) Hin) as [l Hl].
    rewrite (RemoveFromParent_with_step _ n m pn l s Hn Hp0 Hpn Hl) in H.
    set (p := parent_ m) in *. set (pn2 := with_children l pn) in *.
    set (s2 := upd p pn2 s) in *.
    assert (F : ∀ a n2, heap s2 !! a = Some n2 →
              ∃ n0, heap s !! a = Some n0 ∧ parent_ n2 = parent_ n0 ∧
                    refcount_ n2 = refcount_ n0 ∧
                    (a = p → erase_first n (children_ n0) = Some (children_ n2)) ∧
                    (a ≠ p → children_ n2 = children_ n0)).
    { intros a n2 Ha. destruct (decide (a = p)) as [->|Hap].
      - unfold s2 in Ha. rewrite heap_upd_eq in Ha. injection Ha as <-.
        exists pn. split; [exact Hpn|]. simpl. repeat split; try reflexivity.
        + intros _. exact Hl.
        + congruence.
      - unfold s2 in Ha. rewrite heap_upd_ne in Ha by congruence. exists n2.
        split; [exact Ha|]. repeat split; try reflexivity. congruence. }
    assert (Hd2 : dom (heap s2) = dom (heap s)) by (apply (dom_upd _ _ _ _ Hpn)).
    assert (I2 : Inv_x (∅ ∪ {[n]}) s2).
    { apply (Inv_x_detach ∅ s s2 n m I (not_elem_of_empty n) Hn Hp0 Hd2 eq_refl).
      intros a n2 Ha. destruct (F a n2 Ha) as (n0 & Hn0 & P1 & P2 & P3 & P4).
      exists n0. repeat split; auto. }
    assert (Hsz2 : (size (dom (heap s2) ∖ (∅ ∪ {[n]})) < fuel)%nat).
    { eapply Nat.le_lt_trans; [|exact Hsz]. rewrite Hd2. apply subseteq_size.
      intros x Hx. apply elem_of_difference in Hx as [Hx _]. exact Hx. }
    assert (Hp2 : heap s2 !! p = Some pn2) by apply heap_upd_eq.
    apply bind_Done_inv in H as (b & s3 & Ho & Hm).
    destruct (Release_cascade fuel (∅ ∪ {[n]}) s2 p pn2 1 I2 Hp2) as
      [(b' & s3' & Ho' & Hsh & Hsv & Hup & C1 & C2 & C3 & CI)|[Hf _]];
      [lia | intros; lia | exact Hsz2 | | destruct (Done_not_failed _ _ _ Ho Hf)].
    rewrite Ho in Ho'. injection Ho' as <- <-.
    pose proof (Inv_refcount_pos s p pn I Hpn) as Hpos.
    destruct (inv_count _ _ I p pn Hpn) as [_ [C|C]]; [lia|].
    destruct (erase_first_Some _ _ _ Hl) as (_ & L & _).
    assert (I3 : Inv_x (∅ ∪ {[n]}) s3).
    { apply CI. right. unfold pn2. simpl. lia. }
    apply modify_Done_inv in Hm as (m3 & Hm3 & ->).
    destruct (Hsh n m3 Hm3) as (n2 & Hn2 & _ & _ & S3 & S4).
    destruct (F n n2 Hn2) as (n0 & Hn0 & _ & R & _).
    assert (n0 = m) by congruence. subst n0.
    pose proof (Inv_refcount_pos s n m I Hn) as Hmpos.
    split; [apply (Inv_x_reset_parent ∅ s3 n m3 I3 Hm3); lia|].
    split; [exists (with_parent nullptr m3); split; [apply lookup_insert_eq | reflexivity]|].
    intros a r4 Ha. simpl in Ha.
    destruct (decide (a = n)) as [->|Hne].
    + rewrite lookup_insert_eq in Ha. injection Ha as <-. exists m.
      split; [exact Hn|]. simpl. lia.
    + rewrite lookup_insert_ne in Ha by congruence.
      destruct (Hsh a r4 Ha) as (r2 & Hr2 & _ & _ & T3 & _).
      destruct (F a r2 Hr2) as (r0 & Hr0 & _ & R' & _).
      exists r0. split; [exact Hr0 | lia].
Qed.

Lemma Inv_Rename fuel s n name q s' :
  Inv s → (size (dom (heap s)) < fuel)%nat →
  (∀ qn, heap s !! q = Some qn → refcount_ qn < 2 ^ 32 - 1) →
  Rename fuel n name q s = Done tt s' → Inv s'.
Proof.
  intros I Hsz Hov H. unfold Rename in H.
  apply bind_Done_inv in H as ([] & sa & H1 & H).
  apply modify_Done_inv in H1 as (nn & Hn & ->).
  fold (upd n (with_name name nn) s) in H.
  assert (Ia : Inv (upd n (with_name name nn) s)).
  { apply (Inv_x_upd_fields ∅ s n nn); [exact I|exact Hn|reflexivity..]. }
  apply bind_Done_inv in H as (na & sa & H1 & H).
  apply deref_Done_inv in H1 as [-> Hna]. rewrite heap_upd_eq in Hna.
  injection Hna as <-. case_bool_decide as Hq.
  - apply bind_Done_inv in H as ([] & s4 & H1 & H).
    apply (RemoveFromParent_Inv fuel _ n (with_name name nn)) in H1
      as (I4 & (m4 & Hm4 & Hm4p) & Hbound);
      [|exact Ia|apply heap_upd_eq|rewrite (dom_upd _ _ _ _ Hn); exact Hsz].
    apply AddToParent_pointwise in H
      as (tn & pn & Htn & Hpar & _ & Hpn & Hd & Hact & Hpw).
    apply (Inv_x_attach ∅ s4 s' n tn q pn I4 (not_elem_of_empty n) Htn Hpar Hpn);
      [| |exact Hd|exact Hact|].
    + pose proof (Inv_refcount_pos s4 q pn I4 Hpn). lia.
    + destruct (Hbound q pn Hpn) as (r & Hr & Hle).
      destruct (decide (q = n)) as [->|Hne].
      * rewrite heap_upd_eq in Hr. injection Hr as <-. simpl in Hle.
        pose proof (Hov nn Hn). lia.
      * rewrite heap_upd_ne in Hr by congruence. pose proof (Hov r Hr). lia.
    + intros b n' Hb. destruct (Hpw b n' Hb) as (n0 & Hn0 & P1 & P2 & P3 & P4 & _).
      exists n0. repeat split; auto; try (apply P3; assumption); apply P4; assumption.
  - unfold ret in H. injection H as <-. exact Ia.
Qed.

Lemma Inv_Release fuel s n c b s' :
  Inv s → (size (dom (heap s)) < fuel)%nat → 0 <= c →
  (∀ nn, heap s !! n = Some nn → disciplined nn c) →
  Release fuel n c s = Done b s' → Inv s'.
Proof.
  intros I Hsz Hc Hdisc H.
  assert (Hnn : ∃ nn, heap s !! n = Some nn).
  { destruct fuel as [|f]; [discriminate|]. rewrite Release_S in H.
    apply bind_Done_inv in H as (nn & s1 & H1 & _).
    apply deref_Done_inv in H1 as [_ H1]. exists nn. exact H1. }
  destruct Hnn as [nn Hn].
  pose proof (Inv_refcount_pos s n nn I Hn) as Hpos.
  destruct (Release_cascade fuel ∅ s n nn c I Hn Hc) as
    [(b' & s'' & Ho & _ & _ & _ & _ & _ & _ & CI)|[Hf _]];
    [intros; lia | | | destruct (Done_not_failed _ _ _ H Hf)].
  - rewrite difference_empty_L. exact Hsz.
  - rewrite H in Ho. injection Ho as <- <-. apply CI, Hdisc, Hn.
Qed.

Lemma lookup_scan_state name acquire l : ∀ s r s',
  lookup_scan name acquire l s = Done r s' →
  s' = s ∨ ∃ cn, heap s !! r = Some cn ∧ s' = acquired r cn s.
Proof.
  induction l as [|c l IH]; intros s r s' H; simpl in H.
  - left. unfold ret in H. congruence.
  - apply bind_Done_inv in H as (cn & s1 & H1 & H).
    apply deref_Done_inv in H1 as [-> Hc].
    destruct ((strcasecmp name (name_ cn) =? 0) && negb (deleted_ cn)).
    + apply bind_Done_inv in H as ([] & s2 & H1 & H). unfold ret in H.
      injection H as <- <-. destruct acquire.
      * right. exists cn. split; [exact Hc|].
        rewrite (Acquire_Done _ _ _ Hc) in H1. injection H1 as <-. reflexivity.
      * left. unfold ret in H1. congruence.
    + apply IH. exact H.
Qed.

Lemma Inv_LookupChildByName s p name acquire r s' :
  Inv s → (∀ cn, heap s !! r = Some cn → refcount_ cn < 2 ^ 32 - 1) →
  LookupChildByName p name acquire s = Done r s' → Inv s'.
Proof.
  intros I Hov H. unfold LookupChildByName in H.
  apply bind_Done_inv in H as (pn & s1 & H1 & H).
  apply deref_Done_inv in H1 as [-> _].
  apply lookup_scan_state in H as [->|(cn & Hc & ->)]; [exact I|].
  apply Inv_x_acquire; [exact I|exact Hc|apply not_elem_of_empty|apply Hov, Hc].
Qed.

Lemma Inv_modify s a f s' :
  Inv s →
  (∀ n, parent_ (f n) = parent_ n ∧ children_ (f n) = children_ n ∧
        refcount_ (f n) = refcount_ n) →
  modify a f s = Done tt s' → Inv s'.
Proof.
  intros I Hf H. apply modify_Done_inv in H as (n & Hn & ->).
  destruct (Hf n) as (F1 & F2 & F3).
  apply (Inv_x_upd_fields ∅ s a n); assumption.
Qed.

Lemma Inv_DestroyHandle s a h s' :
  Inv s → DestroyHandle a h s = Done tt s' → Inv s'.
Proof.
  intros I H. unfold DestroyHandle in H.
  apply bind_Done_inv in H as (n & s1 & H1 & H).
  apply deref_Done_inv in H1 as [-> Hn].
  destruct (erase_owned h (handles_ n)) as [l|]; [|discriminate].
  injection H as <-. apply (Inv_x_upd_fields ∅ s a n); [exact I|exact Hn|reflexivity..].
Qed.

Lemma Inv_DestroyDirHandle s a h s' :
  Inv s → DestroyDirHandle a h s = Done tt s' → Inv s'.
Proof.
  intros I H. unfold DestroyDirHandle in H.
  apply bind_Done_inv in H as (n & s1 & H1 & H).
  apply deref_Done_inv in H1 as [-> Hn].
  destruct (erase_owned h (dirhandles_ n)) as [l|]; [|discriminate].
  injection H as <-. apply (Inv_x_upd_fields ∅ s a n); [exact I|exact Hn|reflexivity..].
Qed.

Lemma Inv_step s s' : Inv s → step s s' → Inv s'.
Proof.
  intros I H. destruct H.
  - eapply Inv_Create; eassumption.
  - eapply Inv_CreateRoot; eassumption.
  - eapply Inv_Rename; eassumption.
  - eapply Inv_modify; [exact I| |eassumption]. intros m. repeat split.
  - eapply Inv_Release; eassumption.
  - eapply Inv_LookupChildByName; eassumption.
  - eapply Inv_modify; [exact I| |eassumption]. intros m. repeat split.
  - eapply Inv_DestroyHandle; eassumption.
  - unfold HasCachedHandle in H. apply bind_Done_inv in H as (m & s1 & H1 & H).
    apply deref_Done_inv in H1 as [-> _]. unfold ret in H. congruence.
  - eapply Inv_modify; [exact I| |eassumption]. intros m. repeat split.
  - eapply Inv_DestroyDirHandle; eassumption.
  - unfold FromInode in H. apply bind_Done_inv in H as ([] & s1 & H1 & H).
    unfold CheckTracked, kEnableInodeTracking in H1.
    case_bool_decide; [|discriminate]. unfold ret in H. congruence.
  - unfold GetName in H. apply bind_Done_inv in H as (m & s1 & H1 & H).
    apply deref_Done_inv in H1 as [-> _]. unfold ret in H. congruence.
  - unfold GetParent in H. apply bind_Done_inv in H as (m & s1 & H1 & H).
    apply deref_Done_inv in H1 as [-> _]. unfold ret in H. congruence.
Qed.

Lemma Inv_reachable s : reachable s → Inv s.
Proof.
  induction 1 as [|s s' _ IH Hs]; [apply Inv_empty|].
  eapply Inv_step; eassumption.
Qed.

(** ** The states of the examples are reachable *)

Lemma below_max (z : Z) : z < 100 → z < 2 ^ 32 - 1.
Proof. intros H. eapply Z.lt_trans; [exact H | reflexivity]. Qed.

Lemma reachable_st_root : reachable st_root.
Proof.
  apply (reachable_step empty_state); [apply reachable_init|].
  apply (step_CreateRoot _ 16 "/storage" 16). vm_compute. reflexivity.
Qed.

Lemma reachable_st_dir : reachable st_dir.
Proof.
  apply (reachable_step st_root); [apply reachable_st_root|].
  apply (step_Create _ 32 16 "Pictures" 32); [|vm_compute; reflexivity].
  intros pn H. vm_compute in H. injection H as <-. apply below_max. reflexivity.
Qed.

Lemma reachable_st_file : reachable st_file.
Proof.
  apply (reachable_step st_dir); [apply reachable_st_dir|].
  apply (step_Create _ 48 32 "img.jpg" 48); [|vm_compute; reflexivity].
  intros pn H. vm_compute in H. injection H as <-. apply below_max. reflexivity.
Qed.

Lemma reachable_st_kept : reachable st_kept.
Proof.
  apply (reachable_step st_file); [apply reachable_st_file|].
  apply (step_Release _ 4%nat 32 1 false).
  - vm_compute. lia.
  - lia.
  - intros nn H. vm_compute in H. injection H as <-. right. vm_compute. discriminate.
  - vm_compute. reflexivity.
Qed.

(** ** Release *)

Lemma Release_last fuel n nn s :
  heap s !! n = Some nn → refcount_ nn ≠ 0 → is_uint32 (refcount_ nn) →
  Release (S fuel) n (refcount_ nn) s =
    (delete_node (Release fuel) n ≫= λ _, ret true) (upd n (with_refcount 0 nn) s).
Proof.
  intros Hn Hrc U. rewrite Release_S. step (deref_Done _ _ _ Hn).
  rewrite bool_decide_eq_true_2 by lia.
  step (store_Done n (with_refcount (wrap32 (refcount_ nn - refcount_ nn)) nn) s).
  step_by (apply deref_Done; apply heap_upd_eq). simpl refcount_.
  rewrite Z.sub_diag. change (wrap32 0) with 0.
  rewrite bool_decide_eq_true_2 by reflexivity. reflexivity.
Qed.

(** C2. On a live node with refcount [r]: if [r < c], [Release(c)]
    returns false and the whole state (refcount, deleted flag, parent
    link, children, tracker) is as before; if [c <= r] and [r - c] is not
    0 it stores [r - c] and returns false; if [r - c] is 0, then in a
    state that satisfies the invariant it returns true and the node has
    left the store and the tracker. *)
Theorem Release_by_count (s : state) (n : Z) (nn : node) (c : Z) :
  heap s !! n = Some nn → is_uint32 (refcount_ nn) → is_uint32 c →
  (refcount_ nn < c → ∀ fuel, Release (S fuel) n c s = Done false s) ∧
  (c <= refcount_ nn → refcount_ nn - c ≠ 0 →
     ∀ fuel, Release (S fuel) n c s =
             Done false (upd n (with_refcount (refcount_ nn - c) nn) s)) ∧
  (c <= refcount_ nn → refcount_ nn - c = 0 → Inv s →
     ∀ fuel, (size (dom (heap s)) < fuel)%nat →
     ∃ s', Release fuel n c s = Done true s' ∧
           heap s' !! n = None ∧ (n ∉ active_nodes_ s')).
Proof.
  intros Hn U Uc. split; [|split].
  - intros Hlt fuel. rewrite Release_S. step (deref_Done _ _ _ Hn).
    rewrite bool_decide_eq_false_2 by lia. reflexivity.
  - intros Hle Hnz fuel. rewrite Release_S. step (deref_Done _ _ _ Hn).
    rewrite bool_decide_eq_true_2 by exact Hle.
    step (store_Done n (with_refcount (wrap32 (refcount_ nn - c)) nn) s).
    step_by (apply deref_Done; apply heap_upd_eq). simpl refcount_.
    rewrite wrap32_small by (unfold is_uint32 in *; lia).
    rewrite bool_decide_eq_false_2 by exact Hnz. reflexivity.
  - intros Hle Hz I fuel Hsz.
    pose proof (Inv_refcount_pos s n nn I Hn) as Hpos.
    destruct (Release_cascade fuel ∅ s n nn c I Hn) as
      [(b & s' & Ho & _ & _ & _ & _ & _ & C3 & _)|[_ (x & _ & Hx & _)]].
    + unfold is_uint32 in Uc. lia.
    + intros; lia.
    + rewrite difference_empty_L. exact Hsz.
    + destruct C3 as (-> & H1 & H2); [lia|]. exists s'. repeat split; assumption.
    + destruct (not_elem_of_empty x Hx).
Qed.

Lemma Release_by_count_witness :
  (∀ fuel, Release (S fuel) 32 5 st_file = Done false st_file) ∧
  (∀ fuel, Release (S fuel) 32 1 st_file =
           Done false (upd 32 (Node "Pictures" 1 [48] 16 [] [] false) st_file)) ∧
  (∃ s', Release 4 48 1 st_file = Done true s' ∧ heap s' !! 48 = None).
Proof.
  assert (U : ∀ z, 0 <= z < 100 → is_uint32 z).
  { intros z Hz. split; [lia | apply Z.lt_trans with 100; [lia | reflexivity]]. }
  destruct (Release_by_count st_file 32 (Node "Pictures" 2 [48] 16 [] [] false) 5)
    as (H1 & _); [vm_compute; reflexivity | apply U; simpl; lia | apply U; lia |].
  destruct (Release_by_count st_file 32 (Node "Pictures" 2 [48] 16 [] [] false) 1)
    as (_ & H2 & _); [vm_compute; reflexivity | apply U; simpl; lia | apply U; lia |].
  destruct (Release_by_count st_file 48 (Node "img.jpg" 1 [] 32 [] [] false) 1)
    as (_ & _ & H3); [vm_compute; reflexivity | apply U; simpl; lia | apply U; lia |].
  split; [apply H1; simpl; lia|]. split; [apply H2; simpl; lia|].
  destruct (H3 ltac:(simpl; lia) ltac:(reflexivity)
              (Inv_reachable _ reachable_st_file) 4%nat) as (s' & Hr & Hg & _).
  - vm_compute. lia.
  - exists s'. split; assumption.
Defined.

(** C9. When [Release] takes the last reference of a node that has a
    parent, the destructor releases one reference of the parent in the
    same call: a parent whose refcount was above 1 loses the child from
    its list and exactly one reference, a parent whose refcount was 1 is
    destroyed too, and so on upwards: whenever a listed node is destroyed
    in the call and its parent had refcount 1, that parent is destroyed
    in the call as well. *)
Theorem Release_cascades (fuel : nat) (s : state) (n : Z) (nn pn : node) :
  Inv s → heap s !! n = Some nn → heap s !! parent_ nn = Some pn →
  (size (dom (heap s)) < fuel)%nat →
  ∃ s', Release fuel n (refcount_ nn) s = Done true s' ∧
        heap s' !! n = None ∧ (n ∉ active_nodes_ s') ∧
        (refcount_ pn = 1 →
           heap s' !! parent_ nn = None ∧ (parent_ nn ∉ active_nodes_ s')) ∧
        (1 < refcount_ pn → parent_ nn ≠ n →
           ∃ l, erase_first n (children_ pn) = Some l ∧
                heap s' !! parent_ nn =
                  Some (with_refcount (refcount_ pn - 1) (with_children l pn))) ∧
        upward ∅ s s'.
Proof.
  intros I Hn Hp Hsz. destruct fuel as [|f]; [lia|].
  pose proof (Inv_refcount_pos s n nn I Hn) as Hpos.
  assert (Hp0 : parent_ nn ≠ nullptr).
  { pose proof (inv_ptr _ _ I _ pn Hp) as V. unfold valid_ptr, nullptr in *. lia. }
  destruct (inv_parent _ _ I n nn Hn (not_elem_of_empty n) Hp0) as (pn' & Hpn' & Hin).
  assert (pn' = pn) by congruence. subst pn'.
  rewrite (Release_last f n nn s Hn) by (unfold is_uint32; lia).
  assert (IH1 : ∀ X s q qn, Inv_x X s → heap s !! q = Some qn →
             (size (dom (heap s) ∖ X) < f)%nat →
             release_spec X s q qn 1 (Release f q 1 s)).
  { intros X' s' q' qn' I' Hq' Hsz'. apply Release_cascade; auto; lia. }
  destruct (delete_node_spec (Release f) f IH1 ∅ s n nn I Hn)
    as [(s' & Ho & Hnone & Hnact & _ & _ & Hup & _ & Hpar)|[_ (x & _ & Hx & _)]];
    [lia | rewrite difference_empty_L; lia | | destruct (not_elem_of_empty x Hx)].
  exists s'. split; [step Ho; reflexivity|].
  split; [exact Hnone|]. split; [exact Hnact|]. split.
  { intros H1. apply (Hup n nn pn Hn Hnone (not_elem_of_empty n) Hp H1). }
  split; [|exact Hup].
  intros Hgt Hne. destruct (erase_first_elem n (children_ pn) Hin) as [l Hl].
  exists l. split; [exact Hl|]. apply (Hpar pn l Hp Hgt Hne Hl).
Qed.

Lemma Release_cascades_witness :
  ∃ s', Release 4 48 1 st_kept = Done true s' ∧
        heap s' !! 48 = None ∧ heap s' !! 32 = None ∧
        refcount_ <$> heap s' !! 16 = Some 2.
Proof.
  destruct (Release_cascades 4 st_kept 48 (Node "img.jpg" 1 [] 32 [] [] false)
              (Node "Pictures" 1 [48] 16 [] [] false))
    as (s' & Hr & Hn & _ & Hp & _).
  - apply Inv_reachable, reachable_st_kept.
  - vm_compute. reflexivity.
  - vm_compute. reflexivity.
  - vm_compute. lia.
  - exists s'. split; [exact Hr|]. split; [exact Hn|].
    split; [apply Hp; reflexivity|].
    vm_compute in Hr. injection Hr as <-. vm_compute. reflexivity.
Defined.

(** Three levels: the file [64] is the only reason its two ancestor
    directories are alive; releasing it destroys all three and gives the
    root one reference back. *)
Example cascade_three_levels :
  match Release 5 64 1 st_deep with
  | Done b s' =>
      b = true ∧ heap s' !! 64 = None ∧ heap s' !! 48 = None ∧
      heap s' !! 32 = None ∧ refcount_ <$> heap s' !! 16 = Some 2 ∧
      elements (active_nodes_ s') = [16]
  | _ => False
  end.
Proof. vm_compute. repeat split; reflexivity. Qed.

(** ** Rename to another parent *)

Lemma occurrences_one_erase x l :
  occurrences x l = 1%nat → ∃ l', erase_first x l = Some l' ∧ x ∉ l'.
Proof.
  unfold occurrences. induction l as [|y l IH]; intros H; [discriminate|].
  rewrite filter_cons in H. simpl. destruct (decide (y = x)) as [E|E].
  - rewrite bool_decide_eq_true_2 by exact E. exists l. split; [reflexivity|].
    simpl in H. injection H as H. intros Hin.
    assert (Hf : x ∈ filter (λ c, c = x) l) by (apply list_elem_of_filter; auto).
    apply length_zero_iff_nil in H. rewrite H in Hf. inversion Hf.
  - rewrite bool_decide_eq_false_2 by exact E.
    destruct (IH H) as (l' & -> & Hl'). exists (y :: l'). split; [reflexivity|].
    intros Hin. apply elem_of_cons in Hin as [Hin|Hin]; [congruence | contradiction].
Qed.

(** Moving the only child of a directory that nobody else references
    destroys the directory, and the reference it held on the new parent
    is released as the new one is taken. *)
Lemma Rename_claim_fails_on_last_child : ¬ Rename_claim 4 st_kept 48 "m" 16.
Proof.
  intros H.
  destruct (H (Node "img.jpg" 1 [] 32 [] [] false) 32
              (Node "Pictures" 1 [48] 16 [] [] false)
              (Node "/storage" 3 [32] 0 [] [] false))
    as (s' & nn' & po' & pq' & HR & _ & Hpo & _).
  - vm_compute. reflexivity.
  - reflexivity.
  - vm_compute. reflexivity.
  - vm_compute. reflexivity.
  - discriminate.
  - vm_compute in HR. injection HR as <-. vm_compute in Hpo. discriminate.
Qed.

Example Rename_last_child_refcount :
  refcount_ <$> heap st_kept !! 16 = Some 3 ∧
  match Rename 4 48 "m" 16 st_kept with
  | Done _ s' => refcount_ <$> heap s' !! 16 = Some 3 ∧ heap s' !! 32 = None
  | _ => False
  end.
Proof. split; [vm_compute; reflexivity|]. vm_compute. split; reflexivity. Qed.

(** C5, amended. Let [n] be listed exactly once by its parent
    [oldParent], whose refcount is above 1, and let [newParent] be a live
    node other than [oldParent] and [n] whose refcount is below
    [UINT32_MAX] ([oldParent] is not [n] either). After
    [Rename(newName, newParent)], [n] has the new name and the new parent
    pointer, is in [newParent]'s children and not in [oldParent]'s,
    [oldParent]'s refcount is one lower, [newParent]'s one higher and
    [n]'s own is unchanged. *)
Theorem Rename_moves_reference (fuel : nat) (s : state) (n : Z) (newName : string)
    (newParent : Z) (nn pn : node) :
  heap s !! n = Some nn → heap s !! parent_ nn = Some pn →
  parent_ nn ≠ nullptr → parent_ nn ≠ n →
  occurrences n (children_ pn) = 1%nat →
  1 < refcount_ pn < 2 ^ 32 →
  newParent ≠ nullptr → newParent ≠ n →
  (∀ pq, heap s !! newParent = Some pq → 0 <= refcount_ pq < 2 ^ 32 - 1) →
  Rename_claim (S fuel) s n newName newParent.
Proof.
  intros Hn Hp Hp0 Hpn Hocc Hrc Hq0 Hqn Hqrc nn' p po qn Hn' <- Hpo Hq Hqp.
  assert (nn' = nn) by congruence. subst nn'.
  assert (po = pn) by congruence. subst po.
  set (p := parent_ nn) in *.
  destruct (occurrences_one_erase n (children_ pn) Hocc) as (l & Hl & Hnl).
  pose proof (Hqrc qn Hq) as Hqr.
  set (nn1 := with_name newName nn).
  set (pn3 := with_refcount (refcount_ pn - 1) (with_children l pn)).
  set (nn4 := with_parent nullptr nn1).
  set (s3 := upd p pn3 (upd p (with_children l pn) (upd n nn1 s))).
  set (s4 := upd n nn4 s3).
  assert (Hrel : Release (S fuel) p 1 (upd p (with_children l pn) (upd n nn1 s))
                 = Done false s3).
  { rewrite Release_S. step_by (apply deref_Done; apply heap_upd_eq).
    change (refcount_ (with_children l pn)) with (refcount_ pn).
    rewrite bool_decide_eq_true_2 by lia.
    step_by (apply store_Done).
    step_by (apply deref_Done; apply heap_upd_eq).
    change (refcount_ (with_refcount (wrap32 (refcount_ pn - 1)) (with_children l pn)))
      with (wrap32 (refcount_ pn - 1)).
    rewrite wrap32_small by (unfold is_uint32; lia).
    rewrite bool_decide_eq_false_2 by lia. reflexivity. }
  assert (Hrm : RemoveFromParent (S fuel) n (upd n nn1 s) = Done tt s4).
  { unfold RemoveFromParent.
    rewrite (RemoveFromParent_with_step _ n nn1 pn l);
      [|apply heap_upd_eq|exact Hp0| |exact Hl].
    - change (parent_ nn1) with p. step Hrel. apply modify_upd.
      unfold s3. rewrite !heap_upd_ne by congruence. apply heap_upd_eq.
    - change (parent_ nn1) with p. rewrite heap_upd_ne by congruence. exact Hp. }
  assert (Hadd : AddToParent n newParent s4 =
            Done tt (upd newParent (linked_parent n qn)
                       (upd n (with_parent newParent nn4) s4))).
  { apply AddToParent_Done; [apply heap_upd_eq|reflexivity|exact Hq0|exact Hqn|].
    unfold s4, s3. rewrite !heap_upd_ne by congruence. exact Hq. }
  eexists _, (with_parent newParent nn4), pn3, (linked_parent n qn).
  split.
  { unfold Rename. step (modify_upd n (with_name newName) nn s Hn).
    step_by (apply deref_Done; apply heap_upd_eq).
    change (parent_ (with_name newName nn)) with p.
    rewrite bool_decide_eq_true_2 by exact Hqp.
    step Hrm. exact Hadd. }
  split; [rewrite heap_upd_ne by congruence; apply heap_upd_eq|].
  split.
  { rewrite !heap_upd_ne by congruence. unfold s4. rewrite heap_upd_ne by congruence.
    apply heap_upd_eq. }
  split; [apply heap_upd_eq|].
  split; [reflexivity|]. split.
  { simpl. apply elem_of_app. right. apply list_elem_of_singleton. reflexivity. }
  split; [exact Hnl|]. split; [reflexivity|]. split; [reflexivity|].
  split; [|reflexivity].
  simpl. apply wrap32_small. unfold is_uint32. lia.
Qed.

Lemma Rename_moves_reference_witness : Rename_claim 1 st_file 48 "cover.jpg" 16.
Proof.
  apply (Rename_moves_reference 0 st_file 48 "cover.jpg" 16
           (Node "img.jpg" 1 [] 32 [] [] false)
           (Node "Pictures" 2 [48] 16 [] [] false)).
  - vm_compute. reflexivity.
  - vm_compute. reflexivity.
  - discriminate.
  - discriminate.
  - reflexivity.
  - split; reflexivity.
  - discriminate.
  - discriminate.
  - intros pq H. vm_compute in H. injection H as <-. simpl.
    split; [lia | reflexivity].
Defined.

(** ** The invariant over the reachable states *)

(** [Release] accepts any count up to the refcount, the references of
    the children included: the call on the root of [st_dir] returns and
    leaves a live node whose parent is gone. *)
Lemma Release_breaks_tree_inv :
  ¬ (∀ fuel s n c b s',
       reachable s → tree_inv s → Release fuel n c s = Done b s' → tree_inv s').
Proof.
  intros H.
  assert (T : tree_inv st_orphan).
  { apply (H 3%nat st_dir 16 3 true st_orphan reachable_st_dir).
    - apply Inv_tree_inv, Inv_reachable, reachable_st_dir.
    - vm_compute. reflexivity. }
  destruct (ti_parent _ T 32 (Node "Pictures" 1 [] 16 [] [] false)) as (pn & Hpn & _).
  - vm_compute. reflexivity.
  - discriminate.
  - vm_compute in Hpn. discriminate.
Qed.

(** C6, amended. Every state reached from the empty tree by calls of
    Create, CreateRoot, Rename, SetDeleted, Release, LookupChildByName,
    the handle operations and the accessors that return, where no
    refcount wraps around and every [Release(count)] either exceeds the
    refcount or leaves the references held by the node's children,
    satisfies the invariant: children point back to their parent, a node
    with a parent is listed exactly once by it, and the tracker holds
    exactly the live nodes. *)
Theorem reachable_tree_inv (s : state) : reachable s → tree_inv s.
Proof.
  intros H. apply Inv_tree_inv.
  induction H as [|s s' _ IH Hs].
  - apply Inv_empty.
  - exact (Inv_step s s' IH Hs).
Qed.

Lemma reachable_tree_inv_witness : tree_inv st_kept.
Proof.
  apply reachable_tree_inv.
  apply (reachable_step st_file).
  - apply (reachable_step st_dir).
    + apply (reachable_step st_root).
      * apply (reachable_step empty_state); [apply reachable_init|].
        apply (step_CreateRoot _ 16 "/storage" 16). vm_compute. reflexivity.
      * apply (step_Create _ 32 16 "Pictures" 32); [|vm_compute; reflexivity].
        intros pn H. vm_compute in H. injection H as <-. apply below_max. reflexivity.
    + apply (step_Create _ 48 32 "img.jpg" 48); [|vm_compute; reflexivity].
      intros pn H. vm_compute in H. injection H as <-. apply below_max. reflexivity.
  - apply (step_Release _ 4%nat 32 1 false).
    + vm_compute. lia.
    + lia.
    + intros nn H. vm_compute in H. injection H as <-. right. vm_compute. discriminate.
    + vm_compute. reflexivity.
Defined.

(** * Further properties of the operations *)

(** ** Handles and directory handles *)

Lemma upd_same a n s : heap s !! a = Some n → upd a n s = s.
Proof.
  intros H. destruct s as [h act]. unfold upd. simpl in *.
  rewrite insert_id by exact H. reflexivity.
Qed.

Lemma erase_owned_absent {A} x (l : list (Z * A)) :
  Forall (λ e, e.1 ≠ x) l → erase_owned x l = None.
Proof.
  induction 1 as [|e l He _ IH]; [reflexivity|]. simpl.
  rewrite bool_decide_eq_false_2 by exact He. rewrite IH. reflexivity.
Qed.

Lemma erase_owned_first {A} x (l1 l2 : list (Z * A)) e :
  Forall (λ e, e.1 ≠ x) l1 → e.1 = x →
  erase_owned x (l1 ++ e :: l2) = Some (l1 ++ l2).
Proof.
  intros H He. induction H as [|e' l He' _ IH]; simpl.
  - rewrite bool_decide_eq_true_2 by exact He. reflexivity.
  - rewrite bool_decide_eq_false_2 by exact He'. rewrite IH. reflexivity.
Qed.

(** X1. [DestroyHandle(h)] on a node that does not own [h] stops at the
    fatal [CHECK]; otherwise it drops the first owned handle at address
    [h], keeps the other handles in their order, and changes nothing
    else in the node or in the store. *)
Theorem DestroyHandle_erases_first (s : state) (n : Z) (nn : node) (h : Z) :
  heap s !! n = Some nn →
  (Forall (λ e, e.1 ≠ h) (handles_ nn) →
     DestroyHandle n h s = Abort CHECK_handle_found) ∧
  (∀ l1 obj l2,
     handles_ nn = l1 ++ (h, obj) :: l2 → Forall (λ e, e.1 ≠ h) l1 →
     DestroyHandle n h s = Done tt (upd n (with_handles (l1 ++ l2) nn) s)).
Proof.
  intros Hn. split.
  - intros Habs. unfold DestroyHandle. step (deref_Done _ _ _ Hn).
    rewrite (erase_owned_absent _ _ Habs). reflexivity.
  - intros l1 obj l2 Hl Hl1. unfold DestroyHandle. step (deref_Done _ _ _ Hn).
    rewrite Hl, (erase_owned_first h l1 l2 (h, obj) Hl1 eq_refl). reflexivity.
Qed.

Lemma DestroyHandle_erases_first_witness :
  DestroyHandle 48 7 st_file = Abort CHECK_handle_found ∧
  DestroyHandle 48 7
    (upd 48 (Node "img.jpg" 1 [] 32
               [(5, Handle 3 1 false); (7, Handle 4 1 true); (7, Handle 9 1 false)]
               [] false) st_file)
  = Done tt (upd 48 (Node "img.jpg" 1 [] 32
                       [(5, Handle 3 1 false); (7, Handle 9 1 false)] [] false)
               st_file).
Proof.
  split.
  - apply (DestroyHandle_erases_first st_file 48 (Node "img.jpg" 1 [] 32 [] [] false) 7).
    + vm_compute. reflexivity.
    + constructor.
  - destruct (DestroyHandle_erases_first
                (upd 48 (Node "img.jpg" 1 [] 32
                           [(5, Handle 3 1 false); (7, Handle 4 1 true);
                            (7, Handle 9 1 false)] [] false) st_file)
                48 _ 7 (heap_upd_eq _ _ _)) as [_ H].
    rewrite (H [(5, Handle 3 1 false)] (Handle 4 1 true) [(7, Handle 9 1 false)]).
    + unfold upd. simpl. rewrite insert_insert_eq. reflexivity.
    + reflexivity.
    + repeat constructor. simpl. discriminate.
Defined.

(** X2. Attaching a handle the node does not own yet and destroying it
    again gives back the state as it was. *)
Theorem AddHandle_DestroyHandle (s : state) (n : Z) (nn : node) (h : Z) (obj : handle) :
  heap s !! n = Some nn → Forall (λ e, e.1 ≠ h) (handles_ nn) →
  (AddHandle n h obj ≫= λ _, DestroyHandle n h) s = Done tt s.
Proof.
  intros Hn Habs. unfold AddHandle.
  step (modify_upd n (λ m, with_handles (handles_ m ++ [(h, obj)]) m) nn s Hn).
  unfold DestroyHandle. step_by (apply deref_Done; apply heap_upd_eq).
  cbn [handles_ with_handles].
  rewrite (erase_owned_first h (handles_ nn) [] (h, obj) Habs eq_refl).
  rewrite app_nil_r. rewrite store_Done, upd_upd.
  f_equal. destruct nn. apply upd_same. exact Hn.
Qed.

Lemma AddHandle_DestroyHandle_witness :
  (AddHandle 48 7 (Handle 4 1 true) ≫= λ _, DestroyHandle 48 7) st_file
  = Done tt st_file.
Proof.
  apply (AddHandle_DestroyHandle st_file 48 (Node "img.jpg" 1 [] 32 [] [] false)).
  - vm_compute. reflexivity.
  - constructor.
Defined.

(** X3. [HasCachedHandle] reads only: it answers true exactly when some
    owned handle has the cached flag, and after [AddHandle] it answers
    the earlier answer or the flag of the new handle. *)
Theorem HasCachedHandle_any (s : state) (n : Z) (nn : node) :
  heap s !! n = Some nn →
  ∃ b, HasCachedHandle n s = Done b s ∧
       (b = true ↔ ∃ h obj, (h, obj) ∈ handles_ nn ∧ cached obj = true) ∧
       ∀ h obj, ∃ s1, AddHandle n h obj s = Done tt s1 ∧
                      HasCachedHandle n s1 = Done (b || cached obj) s1.
Proof.
  intros Hn. exists (existsb (λ x, cached x.2) (handles_ nn)). split; [|split].
  - unfold HasCachedHandle. step (deref_Done _ _ _ Hn). reflexivity.
  - rewrite existsb_exists. split.
    + intros ([h obj] & Hin & Hc). exists h, obj.
      split; [apply list_elem_of_In; exact Hin | exact Hc].
    + intros (h & obj & Hin & Hc). exists (h, obj).
      split; [apply list_elem_of_In; exact Hin | exact Hc].
  - intros h obj. eexists. split.
    + unfold AddHandle. apply modify_upd. exact Hn.
    + unfold HasCachedHandle. step_by (apply deref_Done; apply heap_upd_eq).
      cbn [handles_ with_handles]. rewrite existsb_app. simpl.
      rewrite orb_false_r. reflexivity.
Qed.

Lemma HasCachedHandle_any_witness :
  HasCachedHandle 48 st_file = Done false st_file ∧
  ∃ s1, AddHandle 48 7 (Handle 4 1 true) st_file = Done tt s1 ∧
        HasCachedHandle 48 s1 = Done true s1.
Proof.
  destruct (HasCachedHandle_any st_file 48 (Node "img.jpg" 1 [] 32 [] [] false))
    as (b & Hb & _ & Hadd).
  - vm_compute. reflexivity.
  - assert (b = false) by (vm_compute in Hb; congruence). subst b.
    split; [exact Hb|]. apply (Hadd 7 (Handle 4 1 true)).
Defined.

(** X4. Directory handles follow the same discipline: [DestroyDirHandle]
    of a stream the node does not own is fatal, it drops the first owned
    one at that address otherwise and leaves the file handles alone, and
    it undoes an [AddDirHandle] of a new stream. *)
Theorem DestroyDirHandle_erases_first (s : state) (n : Z) (nn : node) (dh : Z) :
  heap s !! n = Some nn →
  (Forall (λ e, e.1 ≠ dh) (dirhandles_ nn) →
     DestroyDirHandle n dh s = Abort CHECK_dirhandle_found ∧
     ∀ obj, (AddDirHandle n dh obj ≫= λ _, DestroyDirHandle n dh) s = Done tt s) ∧
  (∀ l1 obj l2,
     dirhandles_ nn = l1 ++ (dh, obj) :: l2 → Forall (λ e, e.1 ≠ dh) l1 →
     DestroyDirHandle n dh s = Done tt (upd n (with_dirhandles (l1 ++ l2) nn) s)).
Proof.
  intros Hn. split.
  - intros Habs. split.
    + unfold DestroyDirHandle. step (deref_Done _ _ _ Hn).
      rewrite (erase_owned_absent _ _ Habs). reflexivity.
    + intros obj. unfold AddDirHandle.
      step (modify_upd n (λ m, with_dirhandles (dirhandles_ m ++ [(dh, obj)]) m) nn s Hn).
      unfold DestroyDirHandle. step_by (apply deref_Done; apply heap_upd_eq).
      cbn [dirhandles_ with_dirhandles].
      rewrite (erase_owned_first dh (dirhandles_ nn) [] (dh, obj) Habs eq_refl).
      rewrite app_nil_r. rewrite store_Done, upd_upd.
      f_equal. destruct nn. apply upd_same. exact Hn.
  - intros l1 obj l2 Hl Hl1. unfold DestroyDirHandle. step (deref_Done _ _ _ Hn).
    rewrite Hl, (erase_owned_first dh l1 l2 (dh, obj) Hl1 eq_refl). reflexivity.
Qed.

Lemma DestroyDirHandle_erases_first_witness :
  DestroyDirHandle 32 9 st_file = Abort CHECK_dirhandle_found ∧
  (AddDirHandle 32 9 (DirHandle 11 0 []) ≫= λ _, DestroyDirHandle 32 9) st_file
  = Done tt st_file.
Proof.
  destruct (DestroyDirHandle_erases_first st_file 32
              (Node "Pictures" 2 [48] 16 [] [] false) 9) as [H _].
  - vm_compute. reflexivity.
  - destruct H as [H1 H2]; [constructor|]. split; [exact H1 | apply H2].
Defined.

(** ** NodeTracker *)

(** X5. The tracker refuses a second registration and the removal of an
    unregistered node with its fatal [CHECK]s; registering a new node and
    deleting it gives back the tracker as it was; and [CheckTracked]
    passes between the two and is fatal after them. *)
Theorem NodeTracker_protocol (s : state) (a : Z) :
  valid_ptr a →
  (a ∈ active_nodes_ s → NodeCreated a s = Abort CHECK_created_fresh) ∧
  (a ∉ active_nodes_ s →
     NodeDeleted a s = Abort CHECK_deleted_tracked ∧
     (NodeCreated a ≫= λ _, CheckTracked (ToInode a)) s
       = Done tt (State (heap s) ({[a]} ∪ active_nodes_ s)) ∧
     (NodeCreated a ≫= λ _, NodeDeleted a) s = Done tt s ∧
     (NodeCreated a ≫= λ _, NodeDeleted a ≫= λ _, CheckTracked (ToInode a)) s
       = Abort CHECK_tracked).
Proof.
  intros Hv. split.
  - intros Hin. unfold NodeCreated, kEnableInodeTracking.
    rewrite bool_decide_eq_false_2 by (intros H; exact (H Hin)). reflexivity.
  - intros Hout.
    assert (Hback : State (heap s) (({[a]} ∪ active_nodes_ s) ∖ {[a]}) = s).
    { destruct s as [h act]. simpl in *. f_equal. apply set_eq. intros x.
      rewrite elem_of_difference, elem_of_union, elem_of_singleton.
      split; [intros [[->|Hx] Hne]; [destruct (Hne eq_refl) | exact Hx]|].
      intros Hx. split; [right; exact Hx | intros ->; contradiction]. }
    assert (Hin : a ∈ {[a]} ∪ active_nodes_ s)
      by (apply elem_of_union_l, elem_of_singleton; reflexivity).
    split; [|split; [|split]].
    + unfold NodeDeleted, kEnableInodeTracking.
      rewrite bool_decide_eq_false_2 by exact Hout. reflexivity.
    + step (NodeCreated_Done a s Hout). unfold CheckTracked, kEnableInodeTracking.
      rewrite (to_uintptr_ToInode a Hv). simpl.
      rewrite bool_decide_eq_true_2 by exact Hin. reflexivity.
    + step (NodeCreated_Done a s Hout). rewrite NodeDeleted_Done by exact Hin.
      simpl. rewrite Hback. reflexivity.
    + step (NodeCreated_Done a s Hout).
      erewrite bind_Done by (apply NodeDeleted_Done; exact Hin). cbv beta.
      simpl. rewrite Hback. unfold CheckTracked, kEnableInodeTracking.
      rewrite (to_uintptr_ToInode a Hv).
      rewrite bool_decide_eq_false_2 by exact Hout. reflexivity.
Qed.

Lemma NodeTracker_protocol_witness :
  NodeCreated 48 st_file = Abort CHECK_created_fresh ∧
  NodeDeleted 64 st_file = Abort CHECK_deleted_tracked ∧
  (NodeCreated 64 ≫= λ _, NodeDeleted 64) st_file = Done tt st_file.
Proof.
  assert (V : ∀ z, 0 < z < 100 → valid_ptr z).
  { intros z Hz. split; [lia | apply Z.lt_trans with 100; [lia | reflexivity]]. }
  destruct (NodeTracker_protocol st_file 48 (V 48 ltac:(lia))) as [H1 _].
  destruct (NodeTracker_protocol st_file 64 (V 64 ltac:(lia))) as [_ H2].
  split.
  - apply H1. refine (bool_decide_unpack _ _). vm_compute. exact I.
  - destruct H2 as (H2 & _ & H3 & _).
    + refine (bool_decide_unpack _ _). vm_compute. exact I.
    + split; assumption.
Defined.

(** ** The CHECKs of the tree links *)

Lemma bind_Abort {A B} (m : M A) (k : A → M B) s c :
  m s = Abort c → (m ≫= k) s = Abort c.
Proof. unfold mbind, M_bind, bind. intros ->. reflexivity. Qed.

(** X6. [Rename] cannot turn a node into a root: with a null new parent
    on a node that has a parent (listed by it, and not its last
    reference), the node is taken out of its parent and the run stops at
    [CHECK(parent != nullptr)] of [AddToParent]. *)
Theorem Rename_to_null_is_fatal (fuel : nat) (s : state) (n : Z) (nn pn : node)
    (name : string) :
  heap s !! n = Some nn → parent_ nn ≠ nullptr → parent_ nn ≠ n →
  heap s !! parent_ nn = Some pn → n ∈ children_ pn →
  1 < refcount_ pn < 2 ^ 32 →
  Rename (S fuel) n name nullptr s = Abort CHECK_parent_nonnull.
Proof.
  intros Hn Hp0 Hpn Hp Hin Hrc.
  destruct (erase_first_elem n (children_ pn) Hin) as [l Hl].
  set (p := parent_ nn) in *.
  set (nn1 := with_name name nn).
  set (s2 := upd p (with_children l pn) (upd n nn1 s)).
  set (s3 := upd p (with_refcount (refcount_ pn - 1) (with_children l pn)) s2).
  assert (Hrel : Release (S fuel) p 1 s2 = Done false s3).
  { rewrite Release_S. step_by (apply deref_Done; apply heap_upd_eq).
    change (refcount_ (with_children l pn)) with (refcount_ pn).
    rewrite bool_decide_eq_true_2 by lia.
    step_by (apply store_Done).
    step_by (apply deref_Done; apply heap_upd_eq).
    change (refcount_ (with_refcount (wrap32 (refcount_ pn - 1)) (with_children l pn)))
      with (wrap32 (refcount_ pn - 1)).
    rewrite wrap32_small by (unfold is_uint32; lia).
    rewrite bool_decide_eq_false_2 by lia. reflexivity. }
  assert (Hrm : RemoveFromParent (S fuel) n (upd n nn1 s)
                = Done tt (upd n (with_parent nullptr nn1) s3)).
  { unfold RemoveFromParent.
    rewrite (RemoveFromParent_with_step _ n nn1 pn l);
      [|apply heap_upd_eq|exact Hp0| |exact Hl].
    - change (parent_ nn1) with p. fold s2. step Hrel. apply modify_upd.
      unfold s3, s2. rewrite !heap_upd_ne by congruence. apply heap_upd_eq.
    - change (parent_ nn1) with p. rewrite heap_upd_ne by congruence. exact Hp. }
  unfold Rename. step (modify_upd n (with_name name) nn s Hn).
  step_by (apply deref_Done; apply heap_upd_eq).
  change (parent_ (with_name name nn)) with p.
  rewrite bool_decide_eq_true_2 by (intros E; apply Hp0; symmetry; exact E).
  step Hrm. unfold AddToParent.
  step_by (apply deref_Done; apply heap_upd_eq).
  cbn [parent_ with_parent].
  rewrite (bool_decide_eq_true_2 (nullptr = nullptr)) by reflexivity.
  rewrite (bool_decide_eq_false_2 (nullptr ≠ nullptr)) by (intros E; apply E; reflexivity).
  reflexivity.
Qed.

Lemma Rename_to_null_is_fatal_witness :
  Rename 1 48 "x" nullptr st_file = Abort CHECK_parent_nonnull.
Proof.
  apply (Rename_to_null_is_fatal 0 st_file 48 (Node "img.jpg" 1 [] 32 [] [] false)
           (Node "Pictures" 2 [48] 16 [] [] false)).
  - vm_compute. reflexivity.
  - discriminate.
  - discriminate.
  - vm_compute. reflexivity.
  - simpl. apply list_elem_of_here.
  - split; reflexivity.
Defined.

(** X7. A parent pointer to a live node that does not list the child is
    caught as corruption: releasing the last reference of such a child,
    and renaming it to another parent, stop at [CHECK(it != end)] of
    [RemoveFromParent]. *)
Theorem unlisted_child_is_fatal (fuel : nat) (s : state) (n : Z) (nn pn : node) :
  heap s !! n = Some nn → parent_ nn ≠ nullptr →
  heap s !! parent_ nn = Some pn → n ∉ children_ pn →
  Release (S fuel) n (refcount_ nn) s = Abort CHECK_child_found ∧
  ∀ name q, q ≠ parent_ nn → Rename fuel n name q s = Abort CHECK_child_found.
Proof.
  intros Hn Hp0 Hp Hnin.
  assert (Hrfp : ∀ rel m t, heap t !! n = Some m → parent_ m = parent_ nn →
            (∃ pm, heap t !! parent_ nn = Some pm ∧ children_ pm = children_ pn) →
            RemoveFromParent_with rel n t = Abort CHECK_child_found).
  { intros rel m t Hm Hpm (pm & Hpm' & Hch). unfold RemoveFromParent_with.
    step (deref_Done _ _ _ Hm). rewrite Hpm.
    rewrite bool_decide_eq_true_2 by exact Hp0.
    step (deref_Done _ _ _ Hpm'). rewrite Hch.
    destruct (erase_first n (children_ pn)) as [l|] eqn:El; [|reflexivity].
    apply erase_first_Some in El as [El _]. contradiction. }
  assert (Hpar : ∀ m, parent_ m = parent_ nn → children_ m = children_ nn →
            ∃ pm, heap (upd n m s) !! parent_ nn = Some pm ∧
                  children_ pm = children_ pn).
  { intros m Hm Hc. destruct (decide (parent_ nn = n)) as [E|E].
    - exists m. rewrite E. split; [apply heap_upd_eq|].
      rewrite E, Hn in Hp. injection Hp as <-. exact Hc.
    - exists pn. split; [|reflexivity]. rewrite heap_upd_ne by congruence. exact Hp. }
  split.
  - rewrite Release_S. step (deref_Done _ _ _ Hn).
    rewrite bool_decide_eq_true_2 by lia.
    step (store_Done n (with_refcount (wrap32 (refcount_ nn - refcount_ nn)) nn) s).
    step_by (apply deref_Done; apply heap_upd_eq). simpl refcount_.
    rewrite Z.sub_diag. change (wrap32 0) with 0.
    rewrite bool_decide_eq_true_2 by reflexivity.
    apply bind_Abort. unfold delete_node. apply bind_Abort.
    unfold node_dtor. apply bind_Abort.
    apply (Hrfp _ (with_refcount 0 nn)); [apply heap_upd_eq|reflexivity|].
    apply Hpar; reflexivity.
  - intros name q Hq. unfold Rename.
    step (modify_upd n (with_name name) nn s Hn).
    step_by (apply deref_Done; apply heap_upd_eq).
    change (parent_ (with_name name nn)) with (parent_ nn).
    rewrite bool_decide_eq_true_2 by exact Hq. unfold RemoveFromParent.
    apply bind_Abort.
    apply (Hrfp _ (with_name name nn)); [apply heap_upd_eq|reflexivity|].
    apply Hpar; reflexivity.
Qed.

Lemma unlisted_child_is_fatal_witness :
  Release 1 48 1 (upd 32 (Node "Pictures" 2 [] 16 [] [] false) st_file)
  = Abort CHECK_child_found.
Proof.
  destruct (unlisted_child_is_fatal 0
              (upd 32 (Node "Pictures" 2 [] 16 [] [] false) st_file)
              48 (Node "img.jpg" 1 [] 32 [] [] false)
              (Node "Pictures" 2 [] 16 [] [] false)) as [H _].
  - vm_compute. reflexivity.
  - discriminate.
  - vm_compute. reflexivity.
  - simpl. intros H. inversion H.
  - exact H.
Defined.

(** ** Releasing what was acquired *)

Lemma erase_first_last x l : x ∉ l → erase_first x (l ++ [x]) = Some l.
Proof.
  induction l as [|y l IH]; intros H; simpl.
  - rewrite bool_decide_eq_true_2 by reflexivity. reflexivity.
  - apply not_elem_of_cons in H as [H1 H2].
    rewrite bool_decide_eq_false_2 by congruence. rewrite (IH H2). reflexivity.
Qed.

(** Releasing exactly the references a node has runs its destructor. *)
Lemma Release_all_runs_dtor fuel s n nn :
  heap s !! n = Some nn →
  Release (S fuel) n (refcount_ nn) s =
    (delete_node (Release fuel) n ≫= λ _, ret true) (upd n (with_refcount 0 nn) s).
Proof.
  intros Hn. rewrite Release_S. step (deref_Done _ _ _ Hn).
  rewrite bool_decide_eq_true_2 by lia.
  step (store_Done n (with_refcount (wrap32 (refcount_ nn - refcount_ nn)) nn) s).
  step_by (apply deref_Done; apply heap_upd_eq). simpl refcount_.
  rewrite Z.sub_diag. change (wrap32 0) with 0.
  rewrite bool_decide_eq_true_2 by reflexivity. reflexivity.
Qed.

Lemma Release_parentless_tracked fuel s n nn :
  heap s !! n = Some nn → parent_ nn = nullptr → n ∈ active_nodes_ s →
  Release (S fuel) n (refcount_ nn) s =
    Done true (State (delete n (heap s)) (active_nodes_ s ∖ {[n]})).
Proof.
  intros Hn Hp Hact. rewrite (Release_all_runs_dtor _ _ _ _ Hn).
  erewrite bind_Done.
  2:{ apply (delete_node_after _ n (with_refcount 0 nn)
               (upd n (with_refcount 0 nn) s) (upd n (with_refcount 0 nn) s));
        [|apply heap_upd_eq | exact Hact].
      apply (RemoveFromParent_with_root _ n (with_refcount 0 nn));
        [apply heap_upd_eq | exact Hp]. }
  cbv beta. simpl. rewrite delete_insert_eq. reflexivity.
Qed.

(** X8. Releasing the last reference of a node without parent removes
    that node from the store and from the tracker and touches nothing
    else: its children stay, with their parent pointers as they were.
    If the tracker does not know the node, the destructor stops at the
    [CHECK] of [NodeDeleted]. *)
Theorem Release_last_of_parentless (fuel : nat) (s : state) (n : Z) (nn : node) :
  heap s !! n = Some nn → parent_ nn = nullptr →
  (n ∈ active_nodes_ s →
     Release (S fuel) n (refcount_ nn) s =
       Done true (State (delete n (heap s)) (active_nodes_ s ∖ {[n]}))) ∧
  (n ∉ active_nodes_ s →
     Release (S fuel) n (refcount_ nn) s = Abort CHECK_deleted_tracked).
Proof.
  intros Hn Hp. split.
  - apply Release_parentless_tracked; assumption.
  - intros Hact. rewrite (Release_all_runs_dtor _ _ _ _ Hn). apply bind_Abort.
    unfold delete_node. apply bind_Abort. unfold node_dtor.
    step_by (apply (RemoveFromParent_with_root _ n (with_refcount 0 nn));
             [apply heap_upd_eq | exact Hp]).
    step_by (apply modify_upd; apply heap_upd_eq).
    step_by (apply modify_upd; apply heap_upd_eq).
    unfold NodeDeleted, kEnableInodeTracking. simpl.
    rewrite bool_decide_eq_false_2 by exact Hact. reflexivity.
Qed.

Lemma Release_last_of_parentless_witness :
  Release 1 16 3 st_dir =
    Done true (State (delete 16 (heap st_dir)) (active_nodes_ st_dir ∖ {[16]})).
Proof.
  destruct (Release_last_of_parentless 0 st_dir 16
              (Node "/storage" 3 [32] nullptr [] [] false)) as [H _].
  - vm_compute. reflexivity.
  - reflexivity.
  - apply H. refine (bool_decide_unpack _ _). vm_compute. exact I.
Defined.

(** X9. [Create] followed by [Release(1)] of the new node gives back the
    state as it was: the node is gone from store and tracker, and the
    parent has its children list and its refcount again. With a null
    parent, [Create] makes a parentless node with refcount 1, not 2 as
    [CreateRoot] does, and the same [Release(1)] destroys it. *)
Theorem Create_Release_round_trip (fuel : nat) (s : state) (a p : Z) (name : string) :
  valid_ptr a → heap s !! a = None → a ∉ active_nodes_ s →
  (p = nullptr ∨
   ∃ pn, heap s !! p = Some pn ∧ (a ∉ children_ pn) ∧
         1 <= refcount_ pn < 2 ^ 32 - 1) →
  ∃ s', Create a p name s = Done a s' ∧
        (p = nullptr → heap s' !! a = Some (Node name 1 [] nullptr [] [] false)) ∧
        Release (S (S fuel)) a 1 s' = Done true s.
Proof.
  intros Hv Hf Ht Hp.
  assert (Hact : ({[a]} ∪ active_nodes_ s) ∖ {[a]} = active_nodes_ s).
  { apply set_eq. intros x.
    rewrite elem_of_difference, elem_of_union, elem_of_singleton.
    split; [intros [[->|Hx] Hne]; [destruct (Hne eq_refl) | exact Hx]|].
    intros Hx. split; [right; exact Hx | intros ->; contradiction]. }
  destruct (decide (p = nullptr)) as [->|Hp0].
  - eexists. split; [|split].
    + unfold Create. step (node_ctor_root a name s Hv Hf Ht). reflexivity.
    + intros _. simpl. apply lookup_insert_eq.
    + pose proof (Release_parentless_tracked (S fuel)
                  (State (<[a := fresh_node name]> (heap s)) ({[a]} ∪ active_nodes_ s))
                  a (fresh_node name)) as H.
      change (refcount_ (fresh_node name)) with 1 in H. rewrite H.
      * cbn [heap active_nodes_].
        rewrite delete_insert_eq, (delete_id _ _ Hf), Hact. destruct s. reflexivity.
      * apply lookup_insert_eq.
      * reflexivity.
      * apply elem_of_union_l, elem_of_singleton. reflexivity.
  - destruct Hp as [Hp|(pn & Hpn & Hnin & Hrc)]; [contradiction|].
    assert (Hpa : p ≠ a) by congruence.
    set (A1 := Node name 1 [] p [] [] false).
    set (s' := State (<[p := linked_parent a pn]> (<[a := A1]> (heap s)))
                 ({[a]} ∪ active_nodes_ s)).
    set (s1 := upd a (with_refcount 0 A1) s').
    set (s2 := upd p (with_children (children_ pn) (linked_parent a pn)) s1).
    set (s3 := upd p (with_refcount (refcount_ pn)
                        (with_children (children_ pn) (linked_parent a pn))) s2).
    set (s4 := upd a (with_parent nullptr (with_refcount 0 A1)) s3).
    assert (Hrel : Release (S fuel) p 1 s2 = Done false s3).
    { rewrite Release_S. step_by (apply deref_Done; apply heap_upd_eq).
      cbn [refcount_ with_children linked_parent with_refcount].
      rewrite (wrap32_small (refcount_ pn + 1)) by (unfold is_uint32; lia).
      rewrite bool_decide_eq_true_2 by lia.
      step_by (apply store_Done).
      step_by (apply deref_Done; apply heap_upd_eq).
      cbn [refcount_ with_refcount].
      replace (refcount_ pn + 1 - 1) with (refcount_ pn) by lia.
      rewrite wrap32_small by (unfold is_uint32; lia).
      rewrite bool_decide_eq_false_2 by lia. reflexivity. }
    assert (Hrfp : RemoveFromParent_with (Release (S fuel)) a s1 = Done tt s4).
    { rewrite (RemoveFromParent_with_step _ a (with_refcount 0 A1)
                 (linked_parent a pn) (children_ pn));
        [|apply heap_upd_eq|exact Hp0| |].
      - change (parent_ (with_refcount 0 A1)) with p. fold s2. step Hrel.
        apply modify_upd. unfold s3, s2. rewrite !heap_upd_ne by congruence.
        apply heap_upd_eq.
      - change (parent_ (with_refcount 0 A1)) with p. unfold s1.
        rewrite heap_upd_ne by congruence. apply lookup_insert_eq.
      - apply erase_first_last. exact Hnin. }
    exists s'. split; [|split; [intros E; contradiction|]].
    + unfold Create.
      step (node_ctor_child a p name pn s Hv Hf Ht Hp0 Hpn). reflexivity.
    + rewrite Release_S.
      assert (Ha' : heap s' !! a = Some A1).
      { unfold s'. simpl. rewrite lookup_insert_ne by exact Hpa. apply lookup_insert_eq. }
      step (deref_Done _ _ _ Ha'). rewrite bool_decide_eq_true_2 by (simpl; lia).
      step_by (apply store_Done).
      step_by (apply deref_Done; apply heap_upd_eq).
      change (refcount_ (with_refcount (wrap32 (refcount_ A1 - 1)) A1)) with 0.
      rewrite bool_decide_eq_true_2 by reflexivity.
      change (with_refcount (wrap32 (refcount_ A1 - 1)) A1) with (with_refcount 0 A1).
      fold s1.
      erewrite bind_Done.
      2:{ apply (delete_node_after _ a (with_parent nullptr (with_refcount 0 A1)) _ _ Hrfp);
            [apply heap_upd_eq|].
          apply elem_of_union_l, elem_of_singleton. reflexivity. }
      cbv beta. unfold ret. f_equal.
      destruct s as [h act]. cbn [heap active_nodes_ s4 s3 s2 s1 s' upd] in *.
      f_equal; [|exact Hact].
      apply map_eq. intros i.
      destruct (decide (i = a)) as [->|Hia].
      * rewrite lookup_delete_eq. symmetry. exact Hf.
      * rewrite lookup_delete_ne by congruence.
        rewrite lookup_insert_ne by congruence.
        destruct (decide (i = p)) as [->|Hip].
        -- rewrite lookup_insert_eq, Hpn. destruct pn. reflexivity.
        -- rewrite !lookup_insert_ne by congruence. reflexivity.
Qed.

Lemma Create_Release_round_trip_witness :
  (∃ s', Create 64 48 "a.jpg" st_file = Done 64 s' ∧
         Release 2 64 1 s' = Done true st_file) ∧
  (∃ s', Create 64 nullptr "/mnt" st_file = Done 64 s' ∧
         Release 2 64 1 s' = Done true st_file).
Proof.
  assert (V : valid_ptr 64) by (split; reflexivity).
  assert (F : heap st_file !! 64 = None) by (vm_compute; reflexivity).
  assert (T : 64 ∉ active_nodes_ st_file)
    by (refine (bool_decide_unpack _ _); vm_compute; exact I).
  split.
  - destruct (Create_Release_round_trip 0 st_file 64 48 "a.jpg" V F T)
      as (s' & H1 & _ & H2).
    + right. exists (Node "img.jpg" 1 [] 32 [] [] false).
      split; [vm_compute; reflexivity|]. split; [simpl; intros H; inversion H|].
      simpl. split; [lia | reflexivity].
    + exists s'. split; assumption.
  - destruct (Create_Release_round_trip 0 st_file 64 nullptr "/mnt" V F T)
      as (s' & H1 & _ & H2).
    + left. reflexivity.
    + exists s'. split; assumption.
Defined.

(** ** Giving back a reference *)

Lemma Release_keeps fuel s n nn c :
  heap s !! n = Some nn → 0 <= c < refcount_ nn → refcount_ nn < 2 ^ 32 →
  Release (S fuel) n c s =
    Done false (upd n (with_refcount (refcount_ nn - c) nn) s).
Proof.
  intros Hn Hc U. rewrite Release_S. step (deref_Done _ _ _ Hn).
  rewrite bool_decide_eq_true_2 by lia.
  step (store_Done n (with_refcount (wrap32 (refcount_ nn - c)) nn) s).
  step_by (apply deref_Done; apply heap_upd_eq).
  assert (W : is_uint32 (refcount_ nn - c)) by (unfold is_uint32; lia).
  rewrite (wrap32_small _ W).
  rewrite bool_decide_eq_false_2 by (simpl; lia). reflexivity.
Qed.

Lemma with_refcount_same n : with_refcount (refcount_ n) n = n.
Proof. destruct n. reflexivity. Qed.

Lemma with_refcount_twice x y n :
  with_refcount x (with_refcount y n) = with_refcount x n.
Proof. destruct n. reflexivity. Qed.

(** X10. A lookup that acquires, followed by [Release(1)] on the child
    it returned, gives back the state as it was before the lookup, and
    the child is the one the lookup without [acquire] returns. When no
    child matches, the lookup itself has changed nothing. *)
Theorem Lookup_acquire_Release (fuel : nat) (s : state) (p : Z) (pn : node)
    (name : string) :
  Inv s → heap s !! p = Some pn →
  (∀ c cn, c ∈ children_ pn → heap s !! c = Some cn →
           refcount_ cn < 2 ^ 32 - 1) →
  ∃ r s', LookupChildByName p name true s = Done r s' ∧
          LookupChildByName p name false s = Done r s ∧
          (r = nullptr → s' = s) ∧
          (r ≠ nullptr → Release (S fuel) r 1 s' = Done false s).
Proof.
  intros I Hp Hmax.
  assert (Hl : Forall (λ c, is_Some (heap s !! c)) (children_ pn)).
  { apply Forall_forall. intros c Hc.
    destruct (inv_children _ _ I p pn c Hp Hc) as (_ & cn & Hcn & _).
    eexists. exact Hcn. }
  unfold LookupChildByName. rewrite !(bind_Done _ _ _ _ _ (deref_Done _ _ _ Hp)).
  rewrite !(lookup_scan_find _ _ _ _ Hl).
  destruct (List.find (child_matches s name) (children_ pn)) as [c|] eqn:F.
  - apply find_some in F as [Hin _]. apply list_elem_of_In in Hin.
    destruct (inv_children _ _ I p pn c Hp Hin) as (_ & cn & Hcn & _).
    rewrite Hcn. exists c, (acquired c cn s).
    split; [reflexivity|]. split; [reflexivity|].
    pose proof (inv_ptr _ _ I c cn Hcn) as Hv.
    pose proof (Inv_refcount_pos s c cn I Hcn) as Hpos.
    pose proof (Hmax c cn Hin Hcn) as Hlt.
    split; [intros ->; destruct Hv as [Hv _]; discriminate Hv|]. intros _.
    unfold acquired. rewrite wrap32_small by (unfold is_uint32; lia).
    rewrite (Release_keeps fuel _ c (with_refcount (refcount_ cn + 1) cn));
      [|apply heap_upd_eq|simpl; lia|simpl; lia].
    f_equal. rewrite upd_upd, with_refcount_twice. simpl refcount_.
    replace (refcount_ cn + 1 - 1) with (refcount_ cn) by lia.
    rewrite with_refcount_same. apply upd_same. exact Hcn.
  - exists nullptr, s. repeat split; try reflexivity. intros H. contradiction.
Qed.

Lemma Lookup_acquire_Release_witness :
  ∃ r s', LookupChildByName 16 "PICTURES" true st_file = Done r s' ∧
          (r ≠ nullptr → Release 1 r 1 s' = Done false st_file).
Proof.
  destruct (Lookup_acquire_Release 0 st_file 16
              (Node "/storage" 3 [32] nullptr [] [] false) "PICTURES")
    as (r & s' & H1 & _ & _ & H2).
  - apply Inv_reachable, reachable_st_file.
  - vm_compute. reflexivity.
  - intros c cn Hc Hcn. apply list_elem_of_singleton in Hc. subst c.
    vm_compute in Hcn. injection Hcn as <-. reflexivity.
  - exists r, s'. split; assumption.
Defined.

(** X11. References can be given back in parts: as long as the first
    count leaves the node some reference, [Release(c1)] followed by
    [Release(c2)] is [Release(c1 + c2)], with the same result, the same
    final state and the same failures. *)
Theorem Release_additive (fuel : nat) (s : state) (n : Z) (nn : node) (c1 c2 : Z) :
  heap s !! n = Some nn → refcount_ nn < 2 ^ 32 →
  0 <= c1 < refcount_ nn → 0 <= c2 → c1 + c2 <= refcount_ nn →
  (Release (S fuel) n c1 ≫= λ _, Release (S fuel) n c2) s =
    Release (S fuel) n (c1 + c2) s.
Proof.
  intros Hn U H1 H2 H12.
  step (Release_keeps fuel s n nn c1 Hn H1 U).
  rewrite !Release_S. step_by (apply deref_Done; apply heap_upd_eq).
  step (deref_Done _ _ _ Hn). cbn [refcount_ with_refcount].
  rewrite !bool_decide_eq_true_2 by lia.
  step_by (apply store_Done). symmetry. step_by (apply store_Done). symmetry.
  rewrite upd_upd, with_refcount_twice.
  replace (refcount_ nn - c1 - c2) with (refcount_ nn - (c1 + c2)) by lia.
  reflexivity.
Qed.

Lemma Release_additive_witness :
  (Release 3 16 1 ≫= λ _, Release 3 16 1) st_file = Release 3 16 2 st_file.
Proof.
  apply (Release_additive 2 st_file 16 (Node "/storage" 3 [32] nullptr [] [] false) 1 1).
  - vm_compute. reflexivity.
  - reflexivity.
  - simpl. lia.
  - lia.
  - simpl. lia.
Defined.

(** ** The order of the scan *)

Lemma name_test_spec name cn :
  (strcasecmp name (name_ cn) =? 0) && negb (deleted_ cn) = true ↔
  ci_equal name (name_ cn) ∧ deleted_ cn = false.
Proof.
  rewrite andb_true_iff, Z.eqb_eq, negb_true_iff, strcasecmp_ci_equal. tauto.
Qed.

Lemma lookup_scan_first name acquire l1 : ∀ s c cn l2,
  Forall (λ x, ∃ xn, heap s !! x = Some xn ∧
                     (ci_equal name (name_ xn) → deleted_ xn = true)) l1 →
  heap s !! c = Some cn → ci_equal name (name_ cn) → deleted_ cn = false →
  lookup_scan name acquire (l1 ++ c :: l2) s =
    Done c (if acquire then acquired c cn s else s).
Proof.
  induction l1 as [|x l1 IH]; intros s c cn l2 Hl Hc Hci Hd; simpl.
  - step (deref_Done _ _ _ Hc).
    rewrite (proj2 (name_test_spec name cn) (conj Hci Hd)).
    destruct acquire.
    + step (Acquire_Done _ _ _ Hc). reflexivity.
    + reflexivity.
  - apply Forall_cons in Hl as [(xn & Hx & Hno) Hl].
    step (deref_Done _ _ _ Hx).
    destruct ((strcasecmp name (name_ xn) =? 0) && negb (deleted_ xn)) eqn:E.
    + apply name_test_spec in E as [E1 E2]. rewrite (Hno E1) in E2. discriminate.
    + apply IH; assumption.
Qed.

(** X12. [LookupChildByName] returns the first child, in the order of
    the children list, whose name matches and that is not deleted. The
    children behind it are not looked at: they need not even be live.
    With [acquire] the refcount of that child and nothing else changes. *)
Theorem Lookup_first_match (s : state) (p : Z) (pn : node) (name : string)
    (acquire : bool) (l1 l2 : list Z) (c : Z) (cn : node) :
  heap s !! p = Some pn → children_ pn = l1 ++ c :: l2 →
  Forall (λ x, ∃ xn, heap s !! x = Some xn ∧
                     (ci_equal name (name_ xn) → deleted_ xn = true)) l1 →
  heap s !! c = Some cn → ci_equal name (name_ cn) → deleted_ cn = false →
  LookupChildByName p name acquire s =
    Done c (if acquire then acquired c cn s else s).
Proof.
  intros Hp Hch Hl Hc Hci Hd. unfold LookupChildByName.
  step (deref_Done _ _ _ Hp). rewrite Hch.
  apply lookup_scan_first; assumption.
Qed.

Lemma Lookup_first_match_witness :
  LookupChildByName 16 "b" false
    (upd 16 (Node "/storage" 4 [32; 48; 64] nullptr [] [] false)
       (upd 32 (Node "a" 1 [] 16 [] [] false)
          (upd 48 (Node "B" 1 [] 16 [] [] false) st_file))) =
  Done 48 (upd 16 (Node "/storage" 4 [32; 48; 64] nullptr [] [] false)
             (upd 32 (Node "a" 1 [] 16 [] [] false)
                (upd 48 (Node "B" 1 [] 16 [] [] false) st_file))).
Proof.
  apply (Lookup_first_match _ 16 (Node "/storage" 4 [32; 48; 64] nullptr [] [] false)
           "b" false [32] [64] 48 (Node "B" 1 [] 16 [] [] false)).
  - vm_compute. reflexivity.
  - reflexivity.
  - constructor; [|constructor]. exists (Node "a" 1 [] 16 [] [] false).
    split; [vm_compute; reflexivity|]. intros H. vm_compute in H. discriminate H.
  - vm_compute. reflexivity.
  - vm_compute. reflexivity.
  - reflexivity.
Defined.

Lemma ci_equal_test n1 n2 x :
  ci_equal n1 n2 → (strcasecmp n1 x =? 0) = (strcasecmp n2 x =? 0).
Proof.
  intros H. unfold ci_equal in H.
  destruct (Z.eqb_spec (strcasecmp n1 x) 0) as [E|E];
    destruct (Z.eqb_spec (strcasecmp n2 x) 0) as [F|F]; try reflexivity.
  - exfalso. apply F, strcasecmp_ci_equal. apply strcasecmp_ci_equal in E.
    unfold ci_equal in *. congruence.
  - exfalso. apply E, strcasecmp_ci_equal. apply strcasecmp_ci_equal in F.
    unfold ci_equal in *. congruence.
Qed.

Lemma lookup_scan_ci n1 n2 acquire l s :
  ci_equal n1 n2 → lookup_scan n1 acquire l s = lookup_scan n2 acquire l s.
Proof.
  intros H. induction l as [|c l IH]; [reflexivity|]. simpl.
  unfold mbind, M_bind, bind. destruct (deref c s) as [cn s1| | |] eqn:D;
    try reflexivity.
  apply deref_Done_inv in D as [-> _].
  rewrite (ci_equal_test n1 n2 (name_ cn) H).
  destruct ((strcasecmp n2 (name_ cn) =? 0) && negb (deleted_ cn));
    [reflexivity | exact IH].
Qed.

(** X13. The lookup does not see the case of ASCII letters, nor what
    follows a NUL byte: two names with the same lower-cased C string give
    the same result, the same final state and the same failure, on every
    state and for both values of [acquire]. *)
Theorem Lookup_case_insensitive (s : state) (p : Z) (n1 n2 : string)
    (acquire : bool) :
  ci_equal n1 n2 →
  LookupChildByName p n1 acquire s = LookupChildByName p n2 acquire s.
Proof.
  intros H. unfold LookupChildByName, mbind, M_bind, bind.
  destruct (deref p s) as [pn s1| | |]; try reflexivity.
  apply lookup_scan_ci. exact H.
Qed.

Lemma Lookup_case_insensitive_witness :
  LookupChildByName 16 "PICTURES" true st_file =
  LookupChildByName 16 "pictures" true st_file.
Proof.
  apply (Lookup_case_insensitive st_file 16 "PICTURES" "pictures" true).
  reflexivity.
Defined.

Lemma find_snoc {A} (f : A → bool) l a :
  List.find f (l ++ [a]) =
    match List.find f l with
    | Some c => Some c
    | None => if f a then Some a else None
    end.
Proof.
  induction l as [|x l IH]; simpl; [reflexivity|].
  destruct (f x); [reflexivity | exact IH].
Qed.

Lemma find_agree {A} (f g : A → bool) l :
  Forall (λ x, f x = g x) l → List.find f l = List.find g l.
Proof.
  induction 1 as [|x l Hx _ IH]; simpl; [reflexivity|].
  rewrite Hx, IH. reflexivity.
Qed.

(** X14. A node made by [Create] is found under its parent by every
    name equal to its own up to case, unless an older child of that name
    is in the way: [Create] does not look for a child of the same name,
    it appends, and the lookup returns the first match. *)
Theorem Create_then_Lookup (s : state) (a p : Z) (pn : node) (name name' : string) :
  Inv s → valid_ptr a → heap s !! a = None → heap s !! p = Some pn →
  ci_equal name' name →
  ∃ r s', LookupChildByName p name' false s = Done r s ∧
          Create a p name s = Done a s' ∧
          LookupChildByName p name' false s' =
            Done (if bool_decide (r = nullptr) then a else r) s'.
Proof.
  intros I Hv Hf Hp Hci.
  assert (Hp0 : p ≠ nullptr).
  { intros ->. destruct (inv_ptr _ _ I _ _ Hp) as [H _]. discriminate H. }
  assert (Ht : a ∉ active_nodes_ s).
  { rewrite <- (inv_tracked _ _ I). apply not_elem_of_dom. exact Hf. }
  assert (Hpa : p ≠ a) by congruence.
  set (s' := State (<[p := linked_parent a pn]>
                      (<[a := Node name 1 [] p [] [] false]> (heap s)))
               ({[a]} ∪ active_nodes_ s)).
  assert (Hl : Forall (λ c, is_Some (heap s !! c)) (children_ pn)).
  { apply Forall_forall. intros c Hc.
    destruct (inv_children _ _ I p pn c Hp Hc) as (_ & cn & Hcn & _).
    eexists. exact Hcn. }
  assert (Hsame : ∀ c cn, heap s !! c = Some cn →
            ∃ cn', heap s' !! c = Some cn' ∧ name_ cn' = name_ cn ∧
                   deleted_ cn' = deleted_ cn).
  { intros c cn Hc. unfold s'. simpl.
    destruct (decide (c = p)) as [->|Hcp].
    - rewrite lookup_insert_eq. eexists. split; [reflexivity|].
      rewrite Hp in Hc. injection Hc as <-. split; reflexivity.
    - rewrite lookup_insert_ne by congruence.
      rewrite lookup_insert_ne by congruence. exists cn. repeat split. exact Hc. }
  assert (Ha' : heap s' !! a = Some (Node name 1 [] p [] [] false)).
  { unfold s'. simpl. rewrite lookup_insert_ne by exact Hpa. apply lookup_insert_eq. }
  assert (Hl' : Forall (λ c, is_Some (heap s' !! c)) (children_ pn ++ [a])).
  { apply Forall_app. split.
    - eapply Forall_impl; [exact Hl|]. intros c [cn Hc]. simpl in Hc.
      destruct (Hsame c cn Hc) as (cn' & Hc' & _). eexists. exact Hc'.
    - constructor; [|constructor]. eexists. exact Ha'. }
  assert (Hfind : List.find (child_matches s' name') (children_ pn) =
                  List.find (child_matches s name') (children_ pn)).
  { apply find_agree. eapply Forall_impl; [exact Hl|]. intros c [cn Hc]. simpl in Hc.
    destruct (Hsame c cn Hc) as (cn' & Hc' & E1 & E2).
    unfold child_matches. rewrite Hc, Hc', E1, E2. reflexivity. }
  assert (Hma : child_matches s' name' a = true).
  { unfold child_matches. rewrite Ha'. apply name_test_spec. split; [exact Hci | reflexivity]. }
  assert (HL' : LookupChildByName p name' false s' =
                lookup_scan name' false (children_ pn ++ [a]) s').
  { unfold LookupChildByName. step_by (apply deref_Done; apply lookup_insert_eq).
    reflexivity. }
  assert (HC : Create a p name s = Done a s').
  { unfold Create. step (node_ctor_child a p name pn s Hv Hf Ht Hp0 Hp). reflexivity. }
  rewrite (lookup_scan_find _ _ _ _ Hl'), find_snoc, Hfind, Hma in HL'.
  assert (HL : LookupChildByName p name' false s =
               lookup_scan name' false (children_ pn) s).
  { unfold LookupChildByName. step (deref_Done _ _ _ Hp). reflexivity. }
  rewrite (lookup_scan_find _ _ _ _ Hl) in HL.
  destruct (List.find (child_matches s name') (children_ pn)) as [c|] eqn:F.
  - apply find_some in F as [Hin _]. apply list_elem_of_In in Hin.
    destruct (inv_children _ _ I p pn c Hp Hin) as (_ & cn & Hcn & _).
    destruct (Hsame c cn Hcn) as (cn' & Hc' & _). rewrite Hcn in HL.
    rewrite Hc' in HL'.
    exists c, s'. split; [exact HL|]. split; [exact HC|].
    rewrite bool_decide_eq_false_2; [exact HL'|].
    intros ->. destruct (inv_ptr _ _ I _ _ Hcn) as [H _]. discriminate H.
  - rewrite Ha' in HL'. exists nullptr, s'. split; [exact HL|]. split; [exact HC|].
    rewrite bool_decide_eq_true_2 by reflexivity. exact HL'.
Qed.

Lemma Create_then_Lookup_witness :
  ∃ r s', LookupChildByName 32 "A.JPG" false st_file = Done r st_file ∧
          Create 64 32 "a.jpg" st_file = Done 64 s' ∧
          LookupChildByName 32 "A.JPG" false s' =
            Done (if bool_decide (r = nullptr) then 64 else r) s'.
Proof.
  apply (Create_then_Lookup st_file 64 32 (Node "Pictures" 2 [48] 16 [] [] false)
           "a.jpg" "A.JPG").
  - apply Inv_reachable, reachable_st_file.
  - split; reflexivity.
  - vm_compute. reflexivity.
  - vm_compute. reflexivity.
  - reflexivity.
Defined.

(** ** What a Release leaves alone *)

Lemma kept_refl n : kept n n.
Proof. repeat split; reflexivity. Qed.

Lemma kept_trans n1 n2 n3 : kept n1 n2 → kept n2 n3 → kept n1 n3.
Proof.
  intros (A1 & A2 & A3 & A4 & A5) (B1 & B2 & B3 & B4 & B5).
  repeat split; try congruence. etransitivity; eassumption.
Qed.

Lemma erase_first_sublist x l : ∀ l', erase_first x l = Some l' → sublist l' l.
Proof.
  induction l as [|y l IH]; intros l' H; simpl in H; [discriminate|].
  case_bool_decide.
  - injection H as <-. apply sublist_cons. reflexivity.
  - destruct (erase_first x l) as [r|]; [|discriminate].
    injection H as <-. apply sublist_skip. apply IH. reflexivity.
Qed.

Lemma frame_x_dom X s s' : frame_x X s s' → dom (heap s') ⊆ dom (heap s).
Proof.
  intros [H _] a Ha. apply elem_of_dom in Ha as [n' Ha].
  destruct (H a n' Ha) as (n & Hn & _). apply elem_of_dom. eexists. exact Hn.
Qed.

Lemma frame_x_refl X s : frame_x X s s.
Proof.
  split.
  - intros a n' Ha. exists n'. split; [exact Ha|]. split; [apply kept_refl | reflexivity].
  - apply set_eq. intros x. rewrite !elem_of_difference. tauto.
Qed.

Lemma frame_x_trans X Y s s1 s2 :
  frame_x X s s1 → frame_x Y s1 s2 → frame_x (X ∪ Y) s s2.
Proof.
  intros F1 F2. pose proof (frame_x_dom _ _ _ F1) as D1.
  pose proof (frame_x_dom _ _ _ F2) as D2.
  destruct F1 as [F1 A1], F2 as [F2 A2]. split.
  - intros a n2 Ha. destruct (F2 a n2 Ha) as (n1 & Hn1 & K2 & P2).
    destruct (F1 a n1 Hn1) as (n & Hn & K1 & P1).
    exists n. split; [exact Hn|]. split; [eapply kept_trans; eassumption|].
    intros Hx. apply not_elem_of_union in Hx as [Hx Hy].
    rewrite (P2 Hy). apply P1. exact Hx.
  - rewrite A2, A1. apply set_eq. intros x. rewrite !elem_of_difference.
    pose proof (D1 x) as E1. pose proof (D2 x) as E2.
    destruct (decide (x ∈ dom (heap s1))); tauto.
Qed.

Lemma frame_x_upd X s a n n' :
  heap s !! a = Some n → kept n n' → (a ∉ X → parent_ n' = parent_ n) →
  frame_x X s (upd a n' s).
Proof.
  intros Ha K P. split.
  - intros b m Hb. simpl in Hb. destruct (decide (b = a)) as [->|Hne].
    + rewrite lookup_insert_eq in Hb. injection Hb as <-. exists n.
      split; [exact Ha|]. split; assumption.
    + rewrite lookup_insert_ne in Hb by congruence. exists m.
      split; [exact Hb|]. split; [apply kept_refl | reflexivity].
  - simpl. rewrite dom_insert_lookup_L by (eexists; exact Ha).
    apply set_eq. intros x. rewrite !elem_of_difference. tauto.
Qed.

Lemma frame_x_free X s a :
  is_Some (heap s !! a) →
  frame_x X s (State (delete a (heap s)) (active_nodes_ s ∖ {[a]})).
Proof.
  intros Ha. split.
  - intros b m Hb. simpl in Hb. destruct (decide (b = a)) as [->|Hne].
    + rewrite lookup_delete_eq in Hb. discriminate.
    + rewrite lookup_delete_ne in Hb by congruence. exists m.
      split; [exact Hb|]. split; [apply kept_refl | reflexivity].
  - simpl. rewrite dom_delete_L. apply elem_of_dom in Ha.
    apply set_eq. intros x. rewrite !elem_of_difference, elem_of_singleton.
    destruct (decide (x = a)) as [->|Hne]; tauto.
Qed.

Lemma frame_x_gone t s s' :
  frame_x {[t]} s s' → heap s' !! t = None → frame s s'.
Proof.
  intros [F A] Ht. split; [|exact A].
  intros a n' Ha. destruct (F a n' Ha) as (n & Hn & K & P).
  exists n. split; [exact Hn|]. split; [exact K|]. intros _. apply P.
  intros E. apply elem_of_singleton in E. subst a. congruence.
Qed.

Section frame_of_dtor.

Variable release : Z → Z → M bool.

Hypothesis release_frame :
  ∀ q c s b s', release q c s = Done b s' → frame s s'.

Lemma RemoveFromParent_with_frame t s s' :
  RemoveFromParent_with release t s = Done tt s' →
  frame_x {[t]} s s' ∧ is_Some (heap s' !! t).
Proof.
  intros H. unfold RemoveFromParent_with in H.
  apply bind_Done_inv in H as (tn & s0 & H0 & H).
  apply deref_Done_inv in H0 as [-> Ht].
  case_bool_decide as Hp.
  - apply bind_Done_inv in H as (pn & s0 & H0 & H).
    apply deref_Done_inv in H0 as [-> Hpn].
    destruct (erase_first t (children_ pn)) as [l|] eqn:El; [|discriminate].
    apply bind_Done_inv in H as ([] & s1 & H1 & H).
    unfold store in H1. injection H1 as <-.
    apply bind_Done_inv in H as (b & s2 & H2 & H).
    apply modify_Done_inv in H as (tn2 & Ht2 & ->).
    apply release_frame in H2.
    assert (F1 : frame_x ∅ s (upd (parent_ tn) (with_children l pn) s)).
    { apply (frame_x_upd _ _ _ pn); [exact Hpn| |reflexivity].
      repeat split. simpl. apply erase_first_sublist with t. exact El. }
    assert (F3 : frame_x {[t]} s2 (upd t (with_parent nullptr tn2) s2)).
    { apply (frame_x_upd _ _ _ tn2); [exact Ht2|repeat split; reflexivity|].
      intros E. exfalso. apply E, elem_of_singleton. reflexivity. }
    split; [|eexists; apply lookup_insert_eq].
    pose proof (frame_x_trans _ _ _ _ _ (frame_x_trans _ _ _ _ _ F1 H2) F3) as F.
    replace (∅ ∪ ∅ ∪ {[t]} : gset Z) with ({[t]} : gset Z) in F; [exact F|].
    apply set_eq. intros x. rewrite !elem_of_union.
    pose proof (not_elem_of_empty (C:=gset Z) x). tauto.
  - unfold ret in H. injection H as <-.
    split; [apply frame_x_refl | eexists; exact Ht].
Qed.

Lemma delete_node_frame t s s' :
  delete_node release t s = Done tt s' → frame s s' ∧ heap s' !! t = None.
Proof.
  intros H. unfold delete_node, node_dtor in H.
  apply bind_Done_inv in H as ([] & s4 & H & Hfree).
  apply bind_Done_inv in H as ([] & s1 & H1 & H).
  apply RemoveFromParent_with_frame in H1 as [F1 [tn Ht]].
  apply bind_Done_inv in H as ([] & s2 & H2 & H).
  apply modify_Done_inv in H2 as (x2 & _ & ->).
  apply bind_Done_inv in H as ([] & s3 & H3 & H).
  apply modify_Done_inv in H3 as (x3 & _ & ->).
  apply NodeDeleted_Done_inv in H as [_ ->].
  unfold free in Hfree. injection Hfree as <-. simpl.
  rewrite !delete_insert_eq.
  assert (Hgone : delete t (heap s1) !! t = None) by apply lookup_delete_eq.
  split; [|exact Hgone].
  apply (frame_x_gone t); [|exact Hgone].
  pose proof (frame_x_trans _ _ _ _ _ F1
                (frame_x_free ∅ s1 t (ex_intro _ tn Ht))) as F.
  replace ({[t]} ∪ ∅ : gset Z) with ({[t]} : gset Z) in F; [exact F|].
  apply set_eq. intros x. rewrite !elem_of_union.
  pose proof (not_elem_of_empty (C:=gset Z) x). tauto.
Qed.

End frame_of_dtor.

Lemma Release_frame_x fuel : ∀ n c s b s',
  Release fuel n c s = Done b s' → frame s s'.
Proof.
  induction fuel as [|f IH]; intros n c s b s' H; [discriminate|].
  rewrite Release_S in H.
  apply bind_Done_inv in H as (nn & s0 & H0 & H).
  apply deref_Done_inv in H0 as [-> Hn].
  case_bool_decide.
  - apply bind_Done_inv in H as ([] & s1 & H1 & H).
    unfold store in H1. injection H1 as <-.
    apply bind_Done_inv in H as (n' & s1 & H1 & H).
    apply deref_Done_inv in H1 as [-> _].
    assert (F1 : frame s (upd n (with_refcount (wrap32 (refcount_ nn - c)) nn) s)).
    { apply (frame_x_upd _ _ _ nn); [exact Hn|repeat split; reflexivity|reflexivity]. }
    case_bool_decide.
    + apply bind_Done_inv in H as ([] & s2 & H2 & H).
      apply (delete_node_frame _ IH) in H2 as [F2 _].
      unfold ret in H. injection H as _ <-.
      pose proof (frame_x_trans _ _ _ _ _ F1 F2) as F.
      replace (∅ ∪ ∅ : gset Z) with (∅ : gset Z) in F; [exact F|].
      symmetry. apply union_empty_l_L.
    + unfold ret in H. injection H as _ <-. exact F1.
  - unfold ret in H. injection H as _ <-. apply frame_x_refl.
Qed.

Lemma Release_false_dom fuel n c s s' :
  Release fuel n c s = Done false s' →
  dom (heap s') = dom (heap s) ∧ active_nodes_ s' = active_nodes_ s.
Proof.
  destruct fuel as [|f]; [discriminate|]. rewrite Release_S. intros H.
  apply bind_Done_inv in H as (nn & s0 & H0 & H).
  apply deref_Done_inv in H0 as [-> Hn].
  case_bool_decide.
  - apply bind_Done_inv in H as ([] & s1 & H1 & H).
    unfold store in H1. injection H1 as <-.
    apply bind_Done_inv in H as (n' & s1 & H1 & H).
    apply deref_Done_inv in H1 as [-> _].
    case_bool_decide.
    + apply bind_Done_inv in H as ([] & s2 & _ & H). discriminate.
    + unfold ret in H. injection H as <-. simpl.
      split; [|reflexivity]. apply dom_insert_lookup_L. eexists. exact Hn.
  - unfold ret in H. injection H as <-. split; reflexivity.
Qed.

(** X15. Whatever the state and the count, a [Release] that returns has
    only destroyed: no node is new, each destroyed node has left the
    tracker and no other has, and a node that is still there has its
    name, its deleted flag, its handles, its directory handles and its
    parent pointer, and a children list from which entries were erased
    at most. It returns true when it has destroyed its node, and false
    when it has destroyed nothing. *)
Theorem Release_frame (fuel : nat) (s : state) (n c : Z) (b : bool) (s' : state) :
  Release fuel n c s = Done b s' →
  frame s s' ∧
  (b = true → heap s' !! n = None ∧ (n ∉ active_nodes_ s')) ∧
  (b = false → dom (heap s') = dom (heap s) ∧ active_nodes_ s' = active_nodes_ s).
Proof.
  intros H. split; [exact (Release_frame_x _ _ _ _ _ _ H)|]. split.
  - intros ->. destruct (Release_true_gone _ _ _ _ _ H) as [H1 H2].
    split; assumption.
  - intros ->. exact (Release_false_dom _ _ _ _ _ H).
Qed.

Lemma Release_frame_witness :
  match Release 4 48 1 st_kept with
  | Done b s' => frame st_kept s' ∧ heap s' !! 48 = None
  | _ => False
  end.
Proof.
  destruct (Release 4 48 1 st_kept) as [b s'| | |] eqn:E;
    try (vm_compute in E; discriminate E).
  destruct (Release_frame 4 st_kept 48 1 b s' E) as (F & T & _).
  split; [exact F|]. apply T.
  destruct b; [reflexivity | vm_compute in E; discriminate E].
Defined.

(** ** What Rename leaves alone *)

(** X16. After a [Rename] that returns, whatever the state it started
    in, [GetName] answers the new name and [GetParent] the new parent;
    no node is new, no deleted flag, handle or directory handle has
    changed, and no other node has another name. *)
Theorem Rename_then_accessors (fuel : nat) (s : state) (n : Z) (name : string)
    (q : Z) (s' : state) :
  Rename fuel n name q s = Done tt s' →
  GetName n s' = Done name s' ∧ GetParent n s' = Done q s' ∧
  ∀ a n', heap s' !! a = Some n' →
    ∃ n0, heap s !! a = Some n0 ∧ deleted_ n' = deleted_ n0 ∧
          handles_ n' = handles_ n0 ∧ dirhandles_ n' = dirhandles_ n0 ∧
          (a ≠ n → name_ n' = name_ n0).
Proof.
  intros H. unfold Rename in H.
  apply bind_Done_inv in H as ([] & s1 & H1 & H).
  apply modify_Done_inv in H1 as (nn & Hn & ->).
  fold (upd n (with_name name nn) s) in H.
  apply bind_Done_inv in H as (n1 & s1 & H1 & H).
  apply deref_Done_inv in H1 as [-> Hn1]. rewrite heap_upd_eq in Hn1.
  injection Hn1 as <-.
  assert (Hfirst : ∀ a m, heap (upd n (with_name name nn) s) !! a = Some m →
            ∃ n0, heap s !! a = Some n0 ∧ deleted_ m = deleted_ n0 ∧
                  handles_ m = handles_ n0 ∧ dirhandles_ m = dirhandles_ n0 ∧
                  (a ≠ n → name_ m = name_ n0) ∧ (a = n → name_ m = name)).
  { intros a m Ha. destruct (decide (a = n)) as [->|Hne].
    - rewrite heap_upd_eq in Ha. injection Ha as <-. exists nn.
      split; [exact Hn|]. repeat split. intros E. contradiction.
    - rewrite heap_upd_ne in Ha by congruence. exists m.
      split; [exact Ha|]. repeat split. intros E. contradiction. }
  case_bool_decide as Hq.
  - apply bind_Done_inv in H as ([] & s2 & H2 & H).
    apply (RemoveFromParent_with_frame _ (Release_frame_x fuel)) in H2 as [[F _] _].
    apply AddToParent_pointwise in H
      as (tn & pn & Ht & _ & _ & _ & Hdom & _ & Hpt).
    assert (Hlive : is_Some (heap s' !! n)).
    { apply elem_of_dom. rewrite Hdom. apply elem_of_dom. eexists. exact Ht. }
    destruct Hlive as [n' Hn'].
    assert (Hall : ∀ a m, heap s' !! a = Some m →
              ∃ n0, heap s !! a = Some n0 ∧ deleted_ m = deleted_ n0 ∧
                    handles_ m = handles_ n0 ∧ dirhandles_ m = dirhandles_ n0 ∧
                    (a ≠ n → name_ m = name_ n0) ∧ (a = n → name_ m = name)).
    { intros a m Ha.
      destruct (Hpt a m Ha) as (m2 & Hm2 & _ & _ & _ & _ & E1 & E2 & E3 & E4).
      destruct (F a m2 Hm2) as (m1 & Hm1 & (K1 & K2 & K3 & K4 & _) & _).
      destruct (Hfirst a m1 Hm1) as (n0 & Hn0 & G1 & G2 & G3 & G4 & G5).
      exists n0. split; [exact Hn0|]. repeat split; try congruence.
      - intros Hne. rewrite E1, K1. apply G4. exact Hne.
      - intros Heq. rewrite E1, K1. apply G5. exact Heq. }
    split; [|split].
    + unfold GetName. step (deref_Done _ _ _ Hn').
      destruct (Hall n n' Hn') as (_ & _ & _ & _ & _ & _ & G). rewrite (G eq_refl).
      reflexivity.
    + unfold GetParent. step (deref_Done _ _ _ Hn').
      destruct (Hpt n n' Hn') as (_ & _ & G & _). rewrite (G eq_refl). reflexivity.
    + intros a m Ha. destruct (Hall a m Ha) as (n0 & G0 & G1 & G2 & G3 & G4 & _).
      exists n0. repeat split; assumption.
  - unfold ret in H. injection H as <-.
    assert (Eq : q = parent_ nn).
    { destruct (decide (q = parent_ nn)) as [E|E]; [exact E|]. contradiction. }
    split; [|split].
    + unfold GetName. step_by (apply deref_Done; apply heap_upd_eq). reflexivity.
    + unfold GetParent. step_by (apply deref_Done; apply heap_upd_eq).
      rewrite Eq. reflexivity.
    + intros a m Ha. destruct (Hfirst a m Ha) as (n0 & G0 & G1 & G2 & G3 & G4 & _).
      exists n0. repeat split; assumption.
Qed.

Lemma Rename_then_accessors_witness :
  match Rename 4 48 "x.jpg" 16 st_file with
  | Done _ s' => GetName 48 s' = Done "x.jpg" s' ∧ GetParent 48 s' = Done 16 s'
  | _ => False
  end.
Proof.
  destruct (Rename 4 48 "x.jpg" 16 st_file) as [[] s'| | |] eqn:E;
    try (vm_compute in E; discriminate E).
  destruct (Rename_then_accessors 4 st_file 48 "x.jpg" 16 s' E) as (H1 & H2 & _).
  split; assumption.
Defined.

(** ** The counts over the reachable states *)

(** X17. In every state reached through the public interface, a live
    node has a valid address that the tracker knows, a refcount between
    1 and [UINT32_MAX] that is at least the number of its children (each
    child holds one reference), no child listed twice, and every lookup
    among its children returns: no child pointer dangles. *)
Theorem reachable_counts (s : state) (a : Z) (n : node) :
  reachable s → heap s !! a = Some n →
  valid_ptr a ∧ a ∈ active_nodes_ s ∧
  1 <= refcount_ n < 2 ^ 32 ∧
  Z.of_nat (length (children_ n)) <= refcount_ n ∧
  NoDup (children_ n) ∧
  ∀ name acquire, ∃ r s', LookupChildByName a name acquire s = Done r s'.
Proof.
  intros R Ha. pose proof (Inv_reachable s R) as I.
  pose proof (Inv_refcount_pos s a n I Ha) as Hpos.
  split; [exact (inv_ptr _ _ I a n Ha)|].
  split; [rewrite <- (inv_tracked _ _ I); apply elem_of_dom; eexists; exact Ha|].
  split; [exact Hpos|].
  split; [destruct (inv_count _ _ I a n Ha) as [_ [E|E]]; [lia | exact E]|].
  split; [exact (inv_nodup _ _ I a n Ha)|].
  intros name acquire. unfold LookupChildByName. step (deref_Done _ _ _ Ha).
  rewrite lookup_scan_find.
  - destruct (List.find (child_matches s name) (children_ n)) as [c|] eqn:F.
    + apply find_some in F as [Hin _]. apply list_elem_of_In in Hin.
      destruct (inv_children _ _ I a n c Ha Hin) as (_ & cn & Hcn & _).
      rewrite Hcn. eexists _, _. reflexivity.
    + eexists _, _. reflexivity.
  - apply Forall_forall. intros c Hc.
    destruct (inv_children _ _ I a n c Ha Hc) as (_ & cn & Hcn & _).
    eexists. exact Hcn.
Qed.

Lemma reachable_counts_witness :
  valid_ptr 32 ∧ 32 ∈ active_nodes_ st_file ∧
  ∃ r s', LookupChildByName 32 "IMG.JPG" true st_file = Done r s'.
Proof.
  destruct (reachable_counts st_file 32 (Node "Pictures" 2 [48] 16 [] [] false))
    as (H1 & H2 & _ & _ & _ & H3).
  - apply reachable_st_file.
  - vm_compute. reflexivity.
  - split; [exact H1|]. split; [exact H2|]. apply H3.
Defined.

(** ** The two references of a root *)

(** X18. A root made by [CreateRoot] is destroyed by giving back its two
    references, in one [Release(2)] or in two [Release(1)], and the
    state is then as it was before [CreateRoot]. *)
Theorem CreateRoot_Release_round_trip (fuel : nat) (s : state) (a : Z)
    (path : string) :
  valid_ptr a → heap s !! a = None → a ∉ active_nodes_ s →
  ∃ s', CreateRoot a path s = Done a s' ∧
        Release (S fuel) a 2 s' = Done true s ∧
        (Release (S fuel) a 1 ≫= λ _, Release (S fuel) a 1) s' = Done true s.
Proof.
  intros Hv Hf Ht.
  set (s0 := State (<[a := fresh_node path]> (heap s)) ({[a]} ∪ active_nodes_ s)).
  set (r2 := Node path 2 [] nullptr [] [] false).
  set (r1 := Node path 1 [] nullptr [] [] false).
  assert (HC : CreateRoot a path s = Done a (upd a r2 s0)).
  { unfold CreateRoot. step (node_ctor_root _ path _ Hv Hf Ht).
    step_by (apply Acquire_Done; apply lookup_insert_eq). reflexivity. }
  assert (Hact : ({[a]} ∪ active_nodes_ s) ∖ {[a]} = active_nodes_ s).
  { apply set_eq. intros x.
    rewrite elem_of_difference, elem_of_union, elem_of_singleton.
    split; [intros [[->|H] Hne]; [contradiction | exact H]|].
    intros H. split; [right; exact H | intros ->; contradiction]. }
  assert (Hback : ∀ r, State (delete a (heap (upd a r s0)))
                         (active_nodes_ (upd a r s0) ∖ {[a]}) = s).
  { intros r. simpl. rewrite !delete_insert_eq, (delete_id _ _ Hf), Hact.
    destruct s. reflexivity. }
  assert (Hin : ∀ r, a ∈ active_nodes_ (upd a r s0)).
  { intros r. simpl. apply elem_of_union_l, elem_of_singleton. reflexivity. }
  exists (upd a r2 s0). split; [exact HC|]. split.
  - pose proof (Release_parentless_tracked fuel (upd a r2 s0) a r2) as H.
    change (refcount_ r2) with 2 in H. rewrite H;
      [rewrite Hback; reflexivity | apply heap_upd_eq | reflexivity | apply Hin].
  - rewrite (bind_Done _ _ _ _ _
               (Release_keeps fuel (upd a r2 s0) a r2 1 (heap_upd_eq _ _ _)
                  ltac:(simpl; lia) ltac:(reflexivity))).
    change (with_refcount (refcount_ r2 - 1) r2) with r1. rewrite upd_upd.
    pose proof (Release_parentless_tracked fuel (upd a r1 s0) a r1) as H.
    change (refcount_ r1) with 1 in H. rewrite H;
      [rewrite Hback; reflexivity | apply heap_upd_eq | reflexivity | apply Hin].
Qed.

Lemma CreateRoot_Release_round_trip_witness :
  ∃ s', CreateRoot 16 "/storage" empty_state = Done 16 s' ∧
        Release 1 16 2 s' = Done true empty_state.
Proof.
  destruct (CreateRoot_Release_round_trip 0 empty_state 16 "/storage")
    as (s' & H1 & H2 & _).
  - split; reflexivity.
  - reflexivity.
  - apply not_elem_of_empty.
  - exists s'. split; assumption.
Defined.

(** ** Wrap-around of the refcount *)

(** X19. The refcount is a 32-bit counter and [Acquire] does not check
    it: on a child with [UINT32_MAX] references a lookup that acquires
    leaves refcount 0 on a node that is still live and tracked, and from
    then on every [Release] of a positive count is refused as a mismatch,
    answers false and destroys nothing. *)
Theorem Acquire_wraps_to_zero (fuel : nat) (s : state) (p : Z) (pn : node)
    (name : string) (l1 l2 : list Z) (c : Z) (cn : node) (count : Z) :
  heap s !! p = Some pn → children_ pn = l1 ++ c :: l2 →
  Forall (λ x, ∃ xn, heap s !! x = Some xn ∧
                     (ci_equal name (name_ xn) → deleted_ xn = true)) l1 →
  heap s !! c = Some cn → ci_equal name (name_ cn) → deleted_ cn = false →
  refcount_ cn = 2 ^ 32 - 1 → 0 < count →
  ∃ s', LookupChildByName p name true s = Done c s' ∧
        heap s' !! c = Some (with_refcount 0 cn) ∧
        active_nodes_ s' = active_nodes_ s ∧
        Release (S fuel) c count s' = Done false s'.
Proof.
  intros Hp Hch Hl Hc Hci Hd Hmax Hcount.
  exists (upd c (with_refcount 0 cn) s). split; [|split; [|split]].
  - unfold LookupChildByName. step (deref_Done _ _ _ Hp). rewrite Hch.
    rewrite (lookup_scan_first name true l1 s c cn l2 Hl Hc Hci Hd).
    unfold acquired. rewrite Hmax. reflexivity.
  - apply heap_upd_eq.
  - reflexivity.
  - rewrite Release_S. step_by (apply deref_Done; apply heap_upd_eq).
    rewrite bool_decide_eq_false_2 by (simpl; lia). reflexivity.
Qed.

Lemma Acquire_wraps_to_zero_witness :
  ∃ s', LookupChildByName 32 "IMG.JPG" true
          (upd 48 (Node "img.jpg" (2 ^ 32 - 1) [] 32 [] [] false) st_file)
        = Done 48 s' ∧
        Release 1 48 1 s' = Done false s'.
Proof.
  destruct (Acquire_wraps_to_zero 0
              (upd 48 (Node "img.jpg" (2 ^ 32 - 1) [] 32 [] [] false) st_file)
              32 (Node "Pictures" 2 [48] 16 [] [] false) "IMG.JPG" [] [] 48
              (Node "img.jpg" (2 ^ 32 - 1) [] 32 [] [] false) 1)
    as (s' & H1 & _ & _ & H2).
  - vm_compute. reflexivity.
  - reflexivity.
  - constructor.
  - vm_compute. reflexivity.
  - reflexivity.
  - reflexivity.
  - reflexivity.
  - lia.
  - exists s'. split; assumption.
Defined.

(** ** Inodes over the reachable states *)

(** X20. In a state reached through the public interface [FromInode]
    never hands out a dangling pointer: either the inode is the one of a
    live node, which is returned with the state unchanged, or the call
    stops at the [CHECK] of the tracker. Inode 0, the null pointer, is
    always refused. *)
Theorem FromInode_reachable_live (s : state) (ino : Z) :
  reachable s →
  ((∃ r rn, FromInode ino s = Done r s ∧ heap s !! r = Some rn ∧
            valid_ptr r ∧ ToInode r = to_u64 ino)
   ∨ (FromInode ino s = Abort CHECK_tracked ∧ heap s !! to_uintptr ino = None))
  ∧ FromInode 0 s = Abort CHECK_tracked.
Proof.
  intros R. pose proof (Inv_reachable s R) as I.
  assert (Hcase : ∀ i,
            (to_uintptr i ∈ active_nodes_ s ∧
             FromInode i s = Done (to_uintptr i) s)
            ∨ ((to_uintptr i ∉ active_nodes_ s) ∧ FromInode i s = Abort CHECK_tracked)).
  { intros i. unfold FromInode, CheckTracked, kEnableInodeTracking.
    unfold mbind, M_bind, bind. cbv beta iota.
    destruct (decide (to_uintptr i ∈ active_nodes_ s)) as [T|T].
    - left. split; [exact T|]. rewrite bool_decide_eq_true_2 by exact T. reflexivity.
    - right. split; [exact T|]. rewrite bool_decide_eq_false_2 by exact T. reflexivity. }
  split.
  - destruct (Hcase ino) as [[T H]|[T H]].
    + left. rewrite <- (inv_tracked _ _ I) in T. apply elem_of_dom in T as [rn Hr].
      exists (to_uintptr ino), rn. split; [exact H|]. split; [exact Hr|].
      pose proof (inv_ptr _ _ I _ _ Hr) as Hv. split; [exact Hv|].
      unfold ToInode, to_u64, to_uintptr. rewrite !Z.mod_mod by discriminate.
      reflexivity.
    + right. split; [exact H|]. apply not_elem_of_dom.
      rewrite (inv_tracked _ _ I). exact T.
  - destruct (Hcase 0) as [[T H]|[T H]]; [|exact H].
    rewrite <- (inv_tracked _ _ I) in T. apply elem_of_dom in T as [rn Hr].
    destruct (inv_ptr _ _ I _ _ Hr) as [Hv _]. discriminate Hv.
Qed.

Lemma FromInode_reachable_live_witness :
  FromInode 0 st_file = Abort CHECK_tracked.
Proof.
  destruct (FromInode_reachable_live st_file 48) as [_ H].
  - apply reachable_st_file.
  - exact H.
Defined.
